(** * The component-route RBAC controller of the cluster ingress operator

    A shallow embedding of
    [pkg/operator/controller/ingress-routes/controller.go] (package
    [ingressroutes], the hash-keyed controller) and the properties of its
    reconciliation: the intersection of desired and observed component
    routes, the convergence of roles and role bindings, and the garbage
    collection of orphaned objects.

    The Kubernetes client and cache are collaborators of the controller.  A
    controller function is therefore a tree of requests ([prog]): each node
    names the call the Go code makes, and continues with whatever the
    collaborator answers.  Theorems quantify over every collaborator
    ([handler]); an in-memory cluster ([fakeClient]) runs the code on
    concrete inputs.

    The file also holds the revision of the controller that the hash-keyed
    one replaced ([Legacy]), the set-up of the watches of both ([Setup]),
    and the checks that the end-to-end test polls for ([E2E]). *)

From Stdlib Require Import Ascii.
From stdpp Require Import base tactics option list strings gmap pretty.


(** ** Data model *)

(** [k8s.io/apimachinery/pkg/apis/meta/v1.ObjectMeta], the fields the
    controller reads or writes. *)
Record ObjectMeta := {
  ObjectMeta_Name : string;
  ObjectMeta_GenerateName : string;
  ObjectMeta_Namespace : string;
  ObjectMeta_Labels : gmap string string;
}.

(** [k8s.io/api/rbac/v1]: roles and role bindings. *)
Record PolicyRule := {
  PolicyRule_Verbs : list string;
  PolicyRule_APIGroups : list string;
  PolicyRule_Resources : list string;
  PolicyRule_ResourceNames : list string;
}.

Record Role := {
  Role_ObjectMeta : ObjectMeta;
  Role_Rules : list PolicyRule;
}.

Record Subject := {
  Subject_Kind : string;
  Subject_Name : string;
  Subject_APIGroup : string;
}.

Record RoleRef := {
  RoleRef_Kind : string;
  RoleRef_Name : string;
  RoleRef_APIGroup : string;
}.

Record RoleBinding := {
  RoleBinding_ObjectMeta : ObjectMeta;
  RoleBinding_Subjects : list Subject;
  RoleBinding_RoleRef : RoleRef;
}.

Definition ServiceAccountKind : string := "ServiceAccount".

(** [github.com/openshift/api/config/v1]: the ingress configuration. *)
Record SecretNameReference := {
  SecretNameReference_Name : string;
}.

Record ComponentRouteSpec := {
  ComponentRouteSpec_Namespace : string;
  ComponentRouteSpec_Name : string;
  ComponentRouteSpec_Hostname : string;
  ComponentRouteSpec_ServingCertKeyPairSecret : SecretNameReference;
}.

(** [Conditions] and [RelatedObjects] are never read by the controller and
    are left out. *)
Record ComponentRouteStatus := {
  ComponentRouteStatus_Namespace : string;
  ComponentRouteStatus_Name : string;
  ComponentRouteStatus_DefaultHostname : string;
  ComponentRouteStatus_ConsumingUsers : list string;
  ComponentRouteStatus_CurrentHostnames : list string;
}.

Record IngressSpec := {
  IngressSpec_Domain : string;
  IngressSpec_AppsDomain : string;
  IngressSpec_ComponentRoutes : list ComponentRouteSpec;
}.

Record IngressStatus := {
  IngressStatus_ComponentRoutes : list ComponentRouteStatus;
}.

Record Ingress := {
  Ingress_ObjectMeta : ObjectMeta;
  Ingress_Spec : IngressSpec;
  Ingress_Status : IngressStatus;
}.

(** [k8s.io/apimachinery/pkg/types.NamespacedName] and the request and
    result of [sigs.k8s.io/controller-runtime/pkg/reconcile]. *)
Record NamespacedName := {
  NamespacedName_Namespace : string;
  NamespacedName_Name : string;
}.

Record Request := {
  Request_NamespacedName : NamespacedName;
}.

Record Result := {
  Result_Requeue : bool;
}.

(** Package [ingressroutes]. *)
Record Config := {
  Config_SecretNamespace : string;
}.

(** The [client] and [cache] fields of the Go struct are the collaborators
    that a [handler] interprets. *)
Record reconciler := {
  reconciler_config : Config;
}.

Record aggregatedComponentRoute := {
  aggregatedComponentRoute_Name : string;
  aggregatedComponentRoute_Hash : string;
  aggregatedComponentRoute_ServingCertificateName : string;
  aggregatedComponentRoute_ConsumingUsers : list string;
}.

Definition componentRouteHashLabelKey : string :=
  "ingress.operator.openshift.io/componentroutehash".

Definition Role_GetName (r : Role) : string :=
  ObjectMeta_Name (Role_ObjectMeta r).

Definition Role_GetLabels (r : Role) : gmap string string :=
  ObjectMeta_Labels (Role_ObjectMeta r).

Definition RoleBinding_GetName (b : RoleBinding) : string :=
  ObjectMeta_Name (RoleBinding_ObjectMeta b).

Definition RoleBinding_GetLabels (b : RoleBinding) : gmap string string :=
  ObjectMeta_Labels (RoleBinding_ObjectMeta b).

(** [existingRole.Rules = rules] on a copy of a listed item. *)
Definition Role_setRules (r : Role) (rules : list PolicyRule) : Role :=
  {| Role_ObjectMeta := Role_ObjectMeta r; Role_Rules := rules |}.

(** [existing.Subjects = subjects; existing.RoleRef = ref] on a copy of a
    listed item. *)
Definition RoleBinding_setSubjectsRoleRef
    (b : RoleBinding) (subjects : list Subject) (ref : RoleRef) : RoleBinding :=
  {| RoleBinding_ObjectMeta := RoleBinding_ObjectMeta b;
     RoleBinding_Subjects := subjects;
     RoleBinding_RoleRef := ref |}.

(** ** The state intersector *)

Definition namespacedName (namespace name : string) : string :=
  namespace +:+ "/" +:+ name.

Section Intersector.

(** [util.Hash] lives in [pkg/util], outside the files at hand: the
    controller is parametric in it. *)
Variable Hash : string → string.

Definition newAggregatedComponentRoute
    (spec : ComponentRouteSpec) (status : ComponentRouteStatus)
    : aggregatedComponentRoute :=
  {| aggregatedComponentRoute_Name := ComponentRouteSpec_Name spec;
     aggregatedComponentRoute_Hash :=
       Hash (namespacedName (ComponentRouteSpec_Namespace spec)
                            (ComponentRouteSpec_Name spec));
     aggregatedComponentRoute_ServingCertificateName :=
       SecretNameReference_Name (ComponentRouteSpec_ServingCertKeyPairSecret spec);
     aggregatedComponentRoute_ConsumingUsers :=
       ComponentRouteStatus_ConsumingUsers status |}.

(** The correlation key of a desired and of an observed entry, as both
    loops of [intersectingComponentRoutes] compute it. *)
Definition specHash (spec : ComponentRouteSpec) : string :=
  Hash (namespacedName (ComponentRouteSpec_Namespace spec)
                       (ComponentRouteSpec_Name spec)).

Definition statusHash (status : ComponentRouteStatus) : string :=
  Hash (namespacedName (ComponentRouteStatus_Namespace status)
                       (ComponentRouteStatus_Name status)).

(** The first loop: [componentRouteHashToComponentRouteStatus[hash] = componentRoute]. *)
Definition componentRouteHashToComponentRouteStatus
    (componentRouteStatuses : list ComponentRouteStatus)
    : gmap string ComponentRouteStatus :=
  foldl (λ m componentRoute, <[statusHash componentRoute := componentRoute]> m)
        ∅ componentRouteStatuses.

(** The second loop appends a target for each desired entry found in the map. *)
Definition intersectingComponentRoutes
    (componentRouteSpecs : list ComponentRouteSpec)
    (componentRouteStatuses : list ComponentRouteStatus)
    : list aggregatedComponentRoute :=
  let m := componentRouteHashToComponentRouteStatus componentRouteStatuses in
  foldl (λ componentRoutes componentRouteSpec,
           match m !! specHash componentRouteSpec with
           | Some componentRouteStatus =>
               componentRoutes ++
                 [newAggregatedComponentRoute componentRouteSpec componentRouteStatus]
           | None => componentRoutes
           end)
        [] componentRouteSpecs.

(** What the map lookup of the second loop finds for a key: the last
    observed entry with that key, if any. *)
Definition lastWithHash (k : string) (statuses : list ComponentRouteStatus)
    : option ComponentRouteStatus :=
  last (filter (λ s, statusHash s = k) statuses).

End Intersector.

(** The logical identity of an entry is its (namespace, name) pair. *)
Definition sameIdentity (d : ComponentRouteSpec) (s : ComponentRouteStatus) : Prop :=
  ComponentRouteSpec_Namespace d = ComponentRouteStatus_Namespace s ∧
  ComponentRouteSpec_Name d = ComponentRouteStatus_Name s.

(** The intersection read as a join on logical identity: the targets are
    those of the desired entries for which an observed entry has the same
    (namespace, name) pair. *)
Definition joinsOnIdentity (Hash : string → string)
    (D : list ComponentRouteSpec) (S : list ComponentRouteStatus) : Prop :=
  ∀ t, t ∈ intersectingComponentRoutes Hash D S ↔
       ∃ d s, d ∈ D ∧ s ∈ S ∧ sameIdentity d s ∧
              t = newAggregatedComponentRoute Hash d s.

(** At most one target per correlation key. *)
Definition oneTargetPerKey (targets : list aggregatedComponentRoute) : Prop :=
  ∀ k, length (filter (λ t, aggregatedComponentRoute_Hash t = k) targets) ≤ 1.

(** ** Collaborators: errors, requests and programs *)

(** What a call of the client or of the cache can fail with, as far as the
    controller tells the cases apart ([errors.IsNotFound],
    [errors.IsAlreadyExists]). *)
Inductive api_error :=
  | NotFoundError
  | AlreadyExistsError
  | OtherError (msg : string).

Definition IsNotFound (e : api_error) : bool :=
  match e with NotFoundError => true | _ => false end.

(** The errors the controller returns: one constructor per [fmt.Errorf] of
    the source, and [FromAPI] for a collaborator's error returned as it is. *)
Inductive error :=
  | FromAPI (e : api_error)
  | MissingHashLabel
      (* "Unable to find expected componentRoute hash label" *)
  | FailedToGetIngress (request : Request) (cause : api_error)
      (* "failed to get ingress %q: %v" *)
  | FailedToCreateRole (cause : error)
      (* "failed to create role: %v" *)
  | FailedToCreateRoleBinding (cause : error)
      (* "failed to create rolebinding: %v" *)
  | FailedToDeleteRole (cause : error).
      (* "failed to delete role: %v" *)

(** [sigs.k8s.io/controller-runtime/pkg/client]: list options. *)
Inductive ListOption :=
  | MatchingLabels (labels : gmap string string)
  | HasLabels (keys : list string)
  | InNamespace (namespace : string).

#[global] Instance ListOption_eq_dec : EqDecision ListOption.
Proof. solve_decision. Defined.

(** The calls the controller makes on [r.cache] and [r.client]. *)
Inductive request :=
  | CacheGetIngress (key : NamespacedName)
  | CacheListRoles (opts : list ListOption)
  | CacheListRoleBindings (opts : list ListOption)
  | ClientCreateRole (obj : Role)
  | ClientUpdateRole (obj : Role)
  | ClientDeleteRole (obj : Role)
  | ClientCreateRoleBinding (obj : RoleBinding)
  | ClientUpdateRoleBinding (obj : RoleBinding)
  | ClientDeleteRoleBinding (obj : RoleBinding).

(** What a call hands back.  The Go calls take a pointer and return an
    error: the answer is the object as the call left it (the fetched
    ingress, the listed items, the created or updated object with the name
    the server gave it) together with the error, [None] for [nil]. *)
Definition response (q : request) : Type :=
  match q with
  | CacheGetIngress _ => Ingress * option api_error
  | CacheListRoles _ => list Role * option api_error
  | CacheListRoleBindings _ => list RoleBinding * option api_error
  | ClientCreateRole _ | ClientUpdateRole _ => Role * option api_error
  | ClientCreateRoleBinding _ | ClientUpdateRoleBinding _ =>
      RoleBinding * option api_error
  | ClientDeleteRole _ | ClientDeleteRoleBinding _ => option api_error
  end.

(** A controller function: it returns, or makes a call and goes on with the
    answer. *)
Inductive prog (A : Type) : Type :=
  | Ret (a : A)
  | Call (q : request) (k : response q → prog A).

Arguments Ret {A} a.
Arguments Call {A} q k.

Fixpoint prog_bind {A B} (f : A → prog B) (p : prog A) : prog B :=
  match p with
  | Ret a => f a
  | Call q k => Call q (λ x, prog_bind f (k x))
  end.

#[global] Instance prog_ret : MRet prog := @Ret.
#[global] Instance prog_mbind : MBind prog := @prog_bind.

Definition call (q : request) : prog (response q) := Call q Ret.

(** One call with its answer, and the run of a program against a
    collaborator that keeps a state of type [W]. *)
Definition event : Type := { q : request & response q }.

Definition Event (q : request) (x : response q) : event := existT q x.

Definition handler (W : Type) : Type := ∀ q : request, W → response q * W.

Fixpoint run {W A} (h : handler W) (p : prog A) (w : W) : A * list event * W :=
  match p with
  | Ret a => (a, [], w)
  | Call q k =>
      let '(x, w1) := h q w in
      let '(a, t, w2) := run h (k x) w1 in
      (a, Event q x :: t, w2)
  end.

Definition result_of {A W} (o : A * list event * W) : A := o.1.1.
Definition trace_of {A W} (o : A * list event * W) : list event := o.1.2.
Definition world_of {A W} (o : A * list event * W) : W := o.2.

Definition requests (t : list event) : list request := map projT1 t.

(** Requests by kind. *)
Definition is_create (q : request) : bool :=
  match q with ClientCreateRole _ | ClientCreateRoleBinding _ => true | _ => false end.

Definition is_update (q : request) : bool :=
  match q with ClientUpdateRole _ | ClientUpdateRoleBinding _ => true | _ => false end.

Definition is_delete (q : request) : bool :=
  match q with ClientDeleteRole _ | ClientDeleteRoleBinding _ => true | _ => false end.

Definition is_write (q : request) : bool :=
  is_create q || is_update q || is_delete q.

(** The error a call came back with. *)
Definition event_error (e : event) : option api_error :=
  match e with
  | existT q x =>
      match q return response q → option api_error with
      | CacheGetIngress _ => snd
      | CacheListRoles _ => snd
      | CacheListRoleBindings _ => snd
      | ClientCreateRole _ | ClientUpdateRole _ => snd
      | ClientCreateRoleBinding _ | ClientUpdateRoleBinding _ => snd
      | ClientDeleteRole _ | ClientDeleteRoleBinding _ => id
      end x
  end.

(** A delete that went through, or found the object gone already. *)
Definition delete_tolerated (e : event) : Prop :=
  is_delete (projT1 e) = true →
  event_error e = None ∨ event_error e = Some NotFoundError.

(** The items a list call for roles (for role bindings) with options [opts]
    handed back. *)
Definition listed_roles (opts : list ListOption) (e : event) : list Role :=
  match e with
  | existT q x =>
      match q return response q → list Role with
      | CacheListRoles o => λ x, if decide (o = opts) then x.1 else []
      | _ => λ _, []
      end x
  end.

Definition listed_roleBindings (opts : list ListOption) (e : event)
    : list RoleBinding :=
  match e with
  | existT q x =>
      match q return response q → list RoleBinding with
      | CacheListRoleBindings o => λ x, if decide (o = opts) then x.1 else []
      | _ => λ _, []
      end x
  end.

(** ** The controller *)

Section Controller.

(** [util.Hash] and [operatorcontroller.OpenShiftConfigNamespace] are
    declared in packages outside the files at hand: the controller is
    parametric in both. *)
Variable Hash : string → string.
Variable OpenShiftConfigNamespace : string.

Definition componentRouteResources (componentRoute : aggregatedComponentRoute)
    : list ListOption :=
  [ MatchingLabels
      {[ componentRouteHashLabelKey := aggregatedComponentRoute_Hash componentRoute ]};
    InNamespace OpenShiftConfigNamespace ].

Definition allComponentRouteResources : list ListOption :=
  [ HasLabels [componentRouteHashLabelKey];
    InNamespace OpenShiftConfigNamespace ].

(** *** Role convergence *)

(** The [role] literal of [ensureServiceCertKeyPairSecretRole]. *)
Definition desiredRole (r : reconciler) (componentRoute : aggregatedComponentRoute)
    : Role :=
  {| Role_ObjectMeta :=
       {| ObjectMeta_Name := "";
          ObjectMeta_GenerateName :=
            aggregatedComponentRoute_Name componentRoute +:+ "-";
          ObjectMeta_Namespace := Config_SecretNamespace (reconciler_config r);
          ObjectMeta_Labels :=
            {[ componentRouteHashLabelKey :=
                 aggregatedComponentRoute_Hash componentRoute ]} |};
     Role_Rules :=
       [ {| PolicyRule_Verbs := ["get"; "list"; "watch"];
            PolicyRule_APIGroups := [""];
            PolicyRule_Resources := ["secrets"];
            PolicyRule_ResourceNames :=
              [aggregatedComponentRoute_ServingCertificateName componentRoute] |} ] |}.

(** [for i, curRole := range roleList.Items]: skip index 0, delete the
    others; a delete error that is not NotFound is returned. *)
Fixpoint deleteRolesAfterFirst (i : nat) (items : list Role) : prog (option error) :=
  match items with
  | [] => mret None
  | curRole :: items' =>
      if decide (i = 0) then deleteRolesAfterFirst (S i) items'
      else
        err ← call (ClientDeleteRole curRole);
        match err with
        | Some e =>
            if IsNotFound e then deleteRolesAfterFirst (S i) items'
            else mret (Some (FromAPI e))
        | None => deleteRolesAfterFirst (S i) items'
        end
  end.

Definition ensureServiceCertKeyPairSecretRole
    (r : reconciler) (componentRoute : aggregatedComponentRoute)
    : prog (string * option error) :=
  let role := desiredRole r componentRoute in
  '(roleList, err) ← call (CacheListRoles (componentRouteResources componentRoute));
  match err with
  | Some e => mret ("", Some (FromAPI e))
  | None =>
      match roleList with
      | [] =>
          '(role', err) ← call (ClientCreateRole role);
          match err with
          | Some e => mret ("", Some (FromAPI e))
          | None => mret (Role_GetName role', None)
          end
      | first :: _ =>
          err ← deleteRolesAfterFirst 0 roleList;
          match err with
          | Some e => mret ("", Some e)
          | None =>
              let existingRole := Role_setRules first (Role_Rules role) in
              '(existingRole', err) ← call (ClientUpdateRole existingRole);
              match err with
              | Some e => mret ("", Some (FromAPI e))
              | None => mret (Role_GetName existingRole', None)
              end
          end
      end
  end.

(** *** Role-binding convergence *)

(** The [subjects] loop of [ensureServiceCertKeyPairSecretRoleBinding]. *)
Definition subjectsOf (users : list string) : list Subject :=
  foldl (λ subjects serviceAccountName,
           subjects ++ [ {| Subject_Kind := ServiceAccountKind;
                            Subject_Name := serviceAccountName;
                            Subject_APIGroup := "" |} ])
        [] users.

Definition roleRefTo (roleName : string) : RoleRef :=
  {| RoleRef_Kind := "Role";
     RoleRef_Name := roleName;
     RoleRef_APIGroup := "rbac.authorization.k8s.io" |}.

(** The [roleBinding] literal of [ensureServiceCertKeyPairSecretRoleBinding]. *)
Definition desiredRoleBinding
    (r : reconciler) (componentRoute : aggregatedComponentRoute) (roleName : string)
    : RoleBinding :=
  {| RoleBinding_ObjectMeta :=
       {| ObjectMeta_Name := roleName;
          ObjectMeta_GenerateName := "";
          ObjectMeta_Namespace := Config_SecretNamespace (reconciler_config r);
          ObjectMeta_Labels :=
            {[ componentRouteHashLabelKey :=
                 aggregatedComponentRoute_Hash componentRoute ]} |};
     RoleBinding_Subjects :=
       subjectsOf (aggregatedComponentRoute_ConsumingUsers componentRoute);
     RoleBinding_RoleRef := roleRefTo roleName |}.

Fixpoint deleteRoleBindingsAfterFirst (i : nat) (items : list RoleBinding)
    : prog (option error) :=
  match items with
  | [] => mret None
  | curRole :: items' =>
      if decide (i = 0) then deleteRoleBindingsAfterFirst (S i) items'
      else
        err ← call (ClientDeleteRoleBinding curRole);
        match err with
        | Some e =>
            if IsNotFound e then deleteRoleBindingsAfterFirst (S i) items'
            else mret (Some (FromAPI e))
        | None => deleteRoleBindingsAfterFirst (S i) items'
        end
  end.

Definition ensureServiceCertKeyPairSecretRoleBinding
    (r : reconciler) (componentRoute : aggregatedComponentRoute) (roleName : string)
    : prog (option error) :=
  let roleBinding := desiredRoleBinding r componentRoute roleName in
  '(roleBindingList, err) ←
    call (CacheListRoleBindings (componentRouteResources componentRoute));
  match err with
  | Some e => mret (Some (FromAPI e))
  | None =>
      match roleBindingList with
      | [] =>
          '(_, err) ← call (ClientCreateRoleBinding roleBinding);
          mret (FromAPI <$> err)
      | first :: _ =>
          err ← deleteRoleBindingsAfterFirst 0 roleBindingList;
          match err with
          | Some e => mret (Some e)
          | None =>
              let existingRoleBinding :=
                RoleBinding_setSubjectsRoleRef first
                  (RoleBinding_Subjects roleBinding)
                  (RoleBinding_RoleRef roleBinding) in
              '(_, err) ← call (ClientUpdateRoleBinding existingRoleBinding);
              mret (FromAPI <$> err)
          end
      end
  end.

(** *** Garbage collection *)

(** [existingHashes[cr.Hash] = struct{}{}] for each target. *)
Definition existingHashes (componentRoutes : list aggregatedComponentRoute)
    : gset string :=
  foldl (λ hashes cr, {[ aggregatedComponentRoute_Hash cr ]} ∪ hashes)
        ∅ componentRoutes.

(** [for _, item := range roleList.Items]. *)
Fixpoint deleteOrphanedRoles (hashes : gset string) (items : list Role)
    : prog (option error) :=
  match items with
  | [] => mret None
  | item :: items' =>
      match Role_GetLabels item !! componentRouteHashLabelKey with
      | None => mret (Some MissingHashLabel)
      | Some expectedHash =>
          if decide (expectedHash ∈ hashes) then deleteOrphanedRoles hashes items'
          else
            err ← call (ClientDeleteRole item);
            match err with
            | Some e =>
                if IsNotFound e then deleteOrphanedRoles hashes items'
                else mret (Some (FromAPI e))
            | None => deleteOrphanedRoles hashes items'
            end
      end
  end.

(** [for _, item := range roleBindingList.Items]. *)
Fixpoint deleteOrphanedRoleBindings (hashes : gset string) (items : list RoleBinding)
    : prog (option error) :=
  match items with
  | [] => mret None
  | item :: items' =>
      match RoleBinding_GetLabels item !! componentRouteHashLabelKey with
      | None => mret (Some MissingHashLabel)
      | Some expectedHash =>
          if decide (expectedHash ∈ hashes)
          then deleteOrphanedRoleBindings hashes items'
          else
            err ← call (ClientDeleteRoleBinding item);
            match err with
            | Some e =>
                if IsNotFound e then deleteOrphanedRoleBindings hashes items'
                else mret (Some (FromAPI e))
            | None => deleteOrphanedRoleBindings hashes items'
            end
      end
  end.

(** Both [r.cache.List] calls of this function drop the error they return:
    the loops run over whatever items the call left in the list. *)
Definition cleanupOrphanedResources (componentRoutes : list aggregatedComponentRoute)
    : prog (option error) :=
  let hashes := existingHashes componentRoutes in
  '(roleList, _) ← call (CacheListRoles allComponentRouteResources);
  err ← deleteOrphanedRoles hashes roleList;
  match err with
  | Some e => mret (Some e)
  | None =>
      '(roleBindingList, _) ← call (CacheListRoleBindings allComponentRouteResources);
      deleteOrphanedRoleBindings hashes roleBindingList
  end.

(** *** The reconcile driver *)

(** [for _, componentRoute := range componentRoutes]: [Some] is what the
    loop returns from [Reconcile] with, [None] that it ran to its end. *)
Fixpoint ensureComponentRoutes
    (r : reconciler) (componentRoutes : list aggregatedComponentRoute)
    : prog (option (Result * option error)) :=
  match componentRoutes with
  | [] => mret None
  | componentRoute :: rest =>
      '(roleName, err) ← ensureServiceCertKeyPairSecretRole r componentRoute;
      match err with
      | Some e =>
          mret (Some ({| Result_Requeue := true |}, Some (FailedToCreateRole e)))
      | None =>
          err ← ensureServiceCertKeyPairSecretRoleBinding r componentRoute roleName;
          match err with
          | Some e =>
              mret (Some ({| Result_Requeue := true |},
                          Some (FailedToCreateRoleBinding e)))
          | None => ensureComponentRoutes r rest
          end
      end
  end.

Definition Reconcile (r : reconciler) (request : Request)
    : prog (Result * option error) :=
  '(ingress, err) ← call (CacheGetIngress (Request_NamespacedName request));
  match err with
  | Some e =>
      if IsNotFound e then mret ({| Result_Requeue := false |}, None)
      else mret ({| Result_Requeue := false |}, Some (FailedToGetIngress request e))
  | None =>
      let componentRoutes :=
        intersectingComponentRoutes Hash
          (IngressSpec_ComponentRoutes (Ingress_Spec ingress))
          (IngressStatus_ComponentRoutes (Ingress_Status ingress)) in
      returned ← ensureComponentRoutes r componentRoutes;
      match returned with
      | Some res => mret res
      | None =>
          err ← cleanupOrphanedResources componentRoutes;
          match err with
          | Some e =>
              mret ({| Result_Requeue := true |}, Some (FailedToDeleteRole e))
          | None => mret ({| Result_Requeue := false |}, None)
          end
      end
  end.

End Controller.

(** ** Collaborators to run the controller against *)

(** *** Canned answers

    A collaborator without state: every call of a kind gets the same
    answer.  A created or updated object comes back as it was sent, a
    created one under the name [ObjectMeta_GenerateName] asks for. *)
Record canned := {
  canned_ingress : Ingress * option api_error;
  canned_roles : list Role * option api_error;
  canned_roleBindings : list RoleBinding * option api_error;
  canned_write : option api_error;
  canned_delete : option api_error;
}.

Definition named (meta : ObjectMeta) (suffix : string) : ObjectMeta :=
  {| ObjectMeta_Name :=
       if decide (ObjectMeta_Name meta = "")
       then ObjectMeta_GenerateName meta +:+ suffix
       else ObjectMeta_Name meta;
     ObjectMeta_GenerateName := ObjectMeta_GenerateName meta;
     ObjectMeta_Namespace := ObjectMeta_Namespace meta;
     ObjectMeta_Labels := ObjectMeta_Labels meta |}.

Definition Role_named (obj : Role) (suffix : string) : Role :=
  {| Role_ObjectMeta := named (Role_ObjectMeta obj) suffix;
     Role_Rules := Role_Rules obj |}.

Definition RoleBinding_named (obj : RoleBinding) (suffix : string) : RoleBinding :=
  {| RoleBinding_ObjectMeta := named (RoleBinding_ObjectMeta obj) suffix;
     RoleBinding_Subjects := RoleBinding_Subjects obj;
     RoleBinding_RoleRef := RoleBinding_RoleRef obj |}.

Definition cannedClient (c : canned) : handler unit :=
  λ q w,
    (match q return response q with
     | CacheGetIngress _ => canned_ingress c
     | CacheListRoles _ => canned_roles c
     | CacheListRoleBindings _ => canned_roleBindings c
     | ClientCreateRole obj => (Role_named obj "x", canned_write c)
     | ClientUpdateRole obj => (obj, canned_write c)
     | ClientCreateRoleBinding obj => (RoleBinding_named obj "x", canned_write c)
     | ClientUpdateRoleBinding obj => (obj, canned_write c)
     | ClientDeleteRole _ | ClientDeleteRoleBinding _ => canned_delete c
     end, w).

(** *** An in-memory cluster

    A store of objects keyed by namespace and name, in the manner of the
    fake client that controller tests use: list filters by the options,
    create refuses a taken name and generates one when none is given,
    update and delete answer NotFound for an object that is not stored. *)
Record cluster := {
  cluster_ingresses : list Ingress;
  cluster_roles : list Role;
  cluster_roleBindings : list RoleBinding;
  cluster_generated : nat;
}.

Definition sameKey (a b : ObjectMeta) : bool :=
  bool_decide (ObjectMeta_Namespace a = ObjectMeta_Namespace b) &&
  bool_decide (ObjectMeta_Name a = ObjectMeta_Name b).

Definition matchesOption (meta : ObjectMeta) (o : ListOption) : bool :=
  match o with
  | MatchingLabels labels =>
      bool_decide (map_Forall (λ k v, ObjectMeta_Labels meta !! k = Some v) labels)
  | HasLabels keys =>
      forallb (λ k, bool_decide (is_Some (ObjectMeta_Labels meta !! k))) keys
  | InNamespace namespace => bool_decide (ObjectMeta_Namespace meta = namespace)
  end.

Definition matchesOptions (opts : list ListOption) (meta : ObjectMeta) : bool :=
  forallb (matchesOption meta) opts.

Definition emptyMeta : ObjectMeta :=
  {| ObjectMeta_Name := ""; ObjectMeta_GenerateName := "";
     ObjectMeta_Namespace := ""; ObjectMeta_Labels := ∅ |}.

Definition emptyIngress : Ingress :=
  {| Ingress_ObjectMeta := emptyMeta;
     Ingress_Spec := {| IngressSpec_Domain := ""; IngressSpec_AppsDomain := "";
                        IngressSpec_ComponentRoutes := [] |};
     Ingress_Status := {| IngressStatus_ComponentRoutes := [] |} |}.

Definition getIngress (key : NamespacedName) (w : cluster)
    : Ingress * option api_error :=
  match
    List.find (λ i, bool_decide
                 (ObjectMeta_Namespace (Ingress_ObjectMeta i) = NamespacedName_Namespace key
                  ∧ ObjectMeta_Name (Ingress_ObjectMeta i) = NamespacedName_Name key))
              (cluster_ingresses w)
  with
  | Some i => (i, None)
  | None => (emptyIngress, Some NotFoundError)
  end.

Definition stored {A} (meta : A → ObjectMeta) (obj : A) (objs : list A) : bool :=
  existsb (λ o, sameKey (meta o) (meta obj)) objs.

Definition replace {A} (meta : A → ObjectMeta) (obj : A) (objs : list A) : list A :=
  map (λ o, if sameKey (meta o) (meta obj) then obj else o) objs.

Definition remove {A} (meta : A → ObjectMeta) (obj : A) (objs : list A) : list A :=
  List.filter (λ o, negb (sameKey (meta o) (meta obj))) objs.

Definition withRoles (w : cluster) (roles : list Role) (generated : nat) : cluster :=
  {| cluster_ingresses := cluster_ingresses w;
     cluster_roles := roles;
     cluster_roleBindings := cluster_roleBindings w;
     cluster_generated := generated |}.

Definition withRoleBindings (w : cluster) (bindings : list RoleBinding) (generated : nat)
    : cluster :=
  {| cluster_ingresses := cluster_ingresses w;
     cluster_roles := cluster_roles w;
     cluster_roleBindings := bindings;
     cluster_generated := generated |}.

Definition fakeClient : handler cluster :=
  λ q,
    match q return cluster → response q * cluster with
    | CacheGetIngress key => λ w, (getIngress key w, w)
    | CacheListRoles opts => λ w,
        ((List.filter (λ o, matchesOptions opts (Role_ObjectMeta o)) (cluster_roles w),
          None), w)
    | CacheListRoleBindings opts => λ w,
        ((List.filter (λ o, matchesOptions opts (RoleBinding_ObjectMeta o))
            (cluster_roleBindings w), None), w)
    | ClientCreateRole obj => λ w,
        let obj' := Role_named obj (pretty (cluster_generated w)) in
        if stored Role_ObjectMeta obj' (cluster_roles w)
        then ((obj, Some AlreadyExistsError), w)
        else ((obj', None),
              withRoles w (cluster_roles w ++ [obj']) (S (cluster_generated w)))
    | ClientUpdateRole obj => λ w,
        if stored Role_ObjectMeta obj (cluster_roles w)
        then ((obj, None),
              withRoles w (replace Role_ObjectMeta obj (cluster_roles w))
                (cluster_generated w))
        else ((obj, Some NotFoundError), w)
    | ClientDeleteRole obj => λ w,
        if stored Role_ObjectMeta obj (cluster_roles w)
        then (None,
              withRoles w (remove Role_ObjectMeta obj (cluster_roles w))
                (cluster_generated w))
        else (Some NotFoundError, w)
    | ClientCreateRoleBinding obj => λ w,
        let obj' := RoleBinding_named obj (pretty (cluster_generated w)) in
        if stored RoleBinding_ObjectMeta obj' (cluster_roleBindings w)
        then ((obj, Some AlreadyExistsError), w)
        else ((obj', None),
              withRoleBindings w (cluster_roleBindings w ++ [obj'])
                (S (cluster_generated w)))
    | ClientUpdateRoleBinding obj => λ w,
        if stored RoleBinding_ObjectMeta obj (cluster_roleBindings w)
        then ((obj, None),
              withRoleBindings w
                (replace RoleBinding_ObjectMeta obj (cluster_roleBindings w))
                (cluster_generated w))
        else ((obj, Some NotFoundError), w)
    | ClientDeleteRoleBinding obj => λ w,
        if stored RoleBinding_ObjectMeta obj (cluster_roleBindings w)
        then (None,
              withRoleBindings w
                (remove RoleBinding_ObjectMeta obj (cluster_roleBindings w))
                (cluster_generated w))
        else (Some NotFoundError, w)
    end.

(** ** The earlier revision of the controller

    The first 238 lines of the file hold the revision that the hash-keyed
    controller replaced (package [ingress]).  It names the role and the
    role binding of a component route after the route, creates first and
    updates when the create answers AlreadyExists, and deletes by name what
    is observed but no longer desired.  It talks to the client only. *)

Definition IsAlreadyExists (e : api_error) : bool :=
  match e with AlreadyExistsError => true | _ => false end.

Definition Role_GetNamespace (r : Role) : string :=
  ObjectMeta_Namespace (Role_ObjectMeta r).

Definition RoleBinding_GetNamespace (b : RoleBinding) : string :=
  ObjectMeta_Namespace (RoleBinding_ObjectMeta b).

Module Legacy.

Record componentRouteTuple := {
  componentRouteTuple_Namespace : string;
  componentRouteTuple_Name : string;
}.

#[global] Instance componentRouteTuple_eq_dec : EqDecision componentRouteTuple.
Proof. solve_decision. Defined.

#[global] Instance componentRouteTuple_countable : Countable componentRouteTuple.
Proof.
  refine (inj_countable'
            (λ t, (componentRouteTuple_Namespace t, componentRouteTuple_Name t))
            (λ p, {| componentRouteTuple_Namespace := p.1;
                     componentRouteTuple_Name := p.2 |}) _).
  by intros [].
Defined.

(** The calls this revision makes on [r.client]. *)
Inductive request :=
  | ClientGetIngress (key : NamespacedName)
  | ClientCreateRole (obj : Role)
  | ClientGetRole (key : NamespacedName)
  | ClientUpdateRole (obj : Role)
  | ClientDeleteRole (obj : Role)
  | ClientCreateRoleBinding (obj : RoleBinding)
  | ClientGetRoleBinding (key : NamespacedName)
  | ClientUpdateRoleBinding (obj : RoleBinding)
  | ClientDeleteRoleBinding (obj : RoleBinding).

(** The object as the call left it, and the error. *)
Definition response (q : request) : Type :=
  match q with
  | ClientGetIngress _ => Ingress * option api_error
  | ClientCreateRole _ | ClientGetRole _ | ClientUpdateRole _ =>
      Role * option api_error
  | ClientCreateRoleBinding _ | ClientGetRoleBinding _
  | ClientUpdateRoleBinding _ => RoleBinding * option api_error
  | ClientDeleteRole _ | ClientDeleteRoleBinding _ => option api_error
  end.

Inductive prog (A : Type) : Type :=
  | Ret (a : A)
  | Call (q : request) (k : response q → prog A).

Arguments Ret {A} a.
Arguments Call {A} q k.

Fixpoint prog_bind {A B} (f : A → prog B) (p : prog A) : prog B :=
  match p with
  | Ret a => f a
  | Call q k => Call q (λ x, prog_bind f (k x))
  end.

#[global] Instance prog_ret : MRet prog := @Ret.
#[global] Instance prog_mbind : MBind prog := @prog_bind.

Definition call (q : request) : prog (response q) := Call q Ret.

Definition event : Type := { q : request & response q }.

Definition Event (q : request) (x : response q) : event := existT q x.

Definition handler (W : Type) : Type := ∀ q : request, W → response q * W.

Fixpoint run {W A} (h : handler W) (p : prog A) (w : W) : A * list event * W :=
  match p with
  | Ret a => (a, [], w)
  | Call q k =>
      let '(x, w1) := h q w in
      let '(a, t, w2) := run h (k x) w1 in
      (a, Event q x :: t, w2)
  end.

Definition requests (t : list event) : list request := map projT1 t.

Definition event_error (e : event) : option api_error :=
  match e with
  | existT q x =>
      match q return response q → option api_error with
      | ClientGetIngress _ => snd
      | ClientCreateRole _ | ClientGetRole _ | ClientUpdateRole _ => snd
      | ClientCreateRoleBinding _ | ClientGetRoleBinding _
      | ClientUpdateRoleBinding _ => snd
      | ClientDeleteRole _ | ClientDeleteRoleBinding _ => id
      end x
  end.

(** The [role] literal of [ensureServiceCertKeyPairSecretRole]. *)
Definition desiredRole (r : reconciler) (crName secretName : string) : Role :=
  {| Role_ObjectMeta :=
       {| ObjectMeta_Name := crName;
          ObjectMeta_GenerateName := "";
          ObjectMeta_Namespace := Config_SecretNamespace (reconciler_config r);
          ObjectMeta_Labels := ∅ |};
     Role_Rules :=
       [ {| PolicyRule_Verbs := ["get"; "list"; "watch"];
            PolicyRule_APIGroups := [""];
            PolicyRule_Resources := ["secrets"];
            PolicyRule_ResourceNames := [secretName] |} ] |}.

(** [role] is read again after the create call, through the pointer the
    call was given: the key of the get and the rules of the update are
    those of the object as the create call left it. *)
Definition ensureServiceCertKeyPairSecretRole
    (r : reconciler) (crName secretName : string) : prog (option api_error) :=
  '(role, err) ← call (ClientCreateRole (desiredRole r crName secretName));
  match err with
  | Some e =>
      if negb (IsAlreadyExists e) then mret (Some e)
      else
        '(existingRole, err) ←
          call (ClientGetRole
                  {| NamespacedName_Namespace := Role_GetNamespace role;
                     NamespacedName_Name := Role_GetName role |});
        match err with
        | Some e => mret (Some e)
        | None =>
            '(_, err) ←
              call (ClientUpdateRole (Role_setRules existingRole (Role_Rules role)));
            mret err
        end
  | None => mret None
  end.

(** The [roleBinding] literal of [ensureServiceCertKeyPairSecretRoleBinding]. *)
Definition desiredRoleBinding
    (r : reconciler) (roleName : string) (users : list string) : RoleBinding :=
  {| RoleBinding_ObjectMeta :=
       {| ObjectMeta_Name := roleName;
          ObjectMeta_GenerateName := "";
          ObjectMeta_Namespace := Config_SecretNamespace (reconciler_config r);
          ObjectMeta_Labels := ∅ |};
     RoleBinding_Subjects := subjectsOf users;
     RoleBinding_RoleRef := roleRefTo roleName |}.

Definition ensureServiceCertKeyPairSecretRoleBinding
    (r : reconciler) (roleName : string) (users : list string)
    : prog (option api_error) :=
  '(roleBinding, err) ←
    call (ClientCreateRoleBinding (desiredRoleBinding r roleName users));
  match err with
  | Some e =>
      if negb (IsAlreadyExists e) then mret (Some e)
      else
        '(existingRoleBinding, err) ←
          call (ClientGetRoleBinding
                  {| NamespacedName_Namespace := RoleBinding_GetNamespace roleBinding;
                     NamespacedName_Name := RoleBinding_GetName roleBinding |});
        match err with
        | Some e => mret (Some e)
        | None =>
            '(_, err) ←
              call (ClientUpdateRoleBinding
                      (RoleBinding_setSubjectsRoleRef existingRoleBinding
                         (RoleBinding_Subjects roleBinding)
                         (RoleBinding_RoleRef roleBinding)));
            mret err
        end
  | None => mret None
  end.

(** The objects that the delete functions send: a name and a namespace. *)
Definition namedRole (r : reconciler) (name : string) : Role :=
  {| Role_ObjectMeta :=
       {| ObjectMeta_Name := name;
          ObjectMeta_GenerateName := "";
          ObjectMeta_Namespace := Config_SecretNamespace (reconciler_config r);
          ObjectMeta_Labels := ∅ |};
     Role_Rules := [] |}.

Definition namedRoleBinding (r : reconciler) (name : string) : RoleBinding :=
  {| RoleBinding_ObjectMeta :=
       {| ObjectMeta_Name := name;
          ObjectMeta_GenerateName := "";
          ObjectMeta_Namespace := Config_SecretNamespace (reconciler_config r);
          ObjectMeta_Labels := ∅ |};
     RoleBinding_Subjects := [];
     RoleBinding_RoleRef :=
       {| RoleRef_Kind := ""; RoleRef_Name := ""; RoleRef_APIGroup := "" |} |}.

Definition deleteServiceKeyPairSecretRole (r : reconciler) (name : string)
    : prog (option api_error) :=
  err ← call (ClientDeleteRole (namedRole r name));
  match err with
  | Some e => if IsNotFound e then mret None else mret (Some e)
  | None => mret None
  end.

Definition deleteServiceKeyPairSecretRoleBinding (r : reconciler) (name : string)
    : prog (option api_error) :=
  err ← call (ClientDeleteRoleBinding (namedRoleBinding r name));
  match err with
  | Some e => if IsNotFound e then mret None else mret (Some e)
  | None => mret None
  end.

Definition specTuple (componentRoute : ComponentRouteSpec) : componentRouteTuple :=
  {| componentRouteTuple_Namespace := ComponentRouteSpec_Namespace componentRoute;
     componentRouteTuple_Name := ComponentRouteSpec_Name componentRoute |}.

Definition statusTuple (componentRoute : ComponentRouteStatus) : componentRouteTuple :=
  {| componentRouteTuple_Namespace := ComponentRouteStatus_Namespace componentRoute;
     componentRouteTuple_Name := ComponentRouteStatus_Name componentRoute |}.

(** The first loop of [Reconcile]:
    [componentRouteTupleToSecretName[tuple] = secret name]. *)
Definition componentRouteTupleToSecretName (specs : list ComponentRouteSpec)
    : gmap componentRouteTuple string :=
  foldl (λ m componentRoute,
           <[ specTuple componentRoute :=
                SecretNameReference_Name
                  (ComponentRouteSpec_ServingCertKeyPairSecret componentRoute) ]> m)
        ∅ specs.

Definition requeue (e : api_error) : Result * option error :=
  ({| Result_Requeue := true |}, Some (FromAPI e)).

(** The second loop, over the observed entries: [Some] is what the loop
    returns from [Reconcile] with, [None] that it ran to its end. *)
Fixpoint reconcileComponentRoutes
    (r : reconciler) (secretNames : gmap componentRouteTuple string)
    (statuses : list ComponentRouteStatus)
    : prog (option (Result * option error)) :=
  match statuses with
  | [] => mret None
  | componentRoute :: rest =>
      let name := ComponentRouteStatus_Name componentRoute in
      match secretNames !! statusTuple componentRoute with
      | None =>
          err ← deleteServiceKeyPairSecretRole r name;
          match err with
          | Some e => mret (Some (requeue e))
          | None =>
              err ← deleteServiceKeyPairSecretRoleBinding r name;
              match err with
              | Some e => mret (Some (requeue e))
              | None => reconcileComponentRoutes r secretNames rest
              end
          end
      | Some secretName =>
          err ← ensureServiceCertKeyPairSecretRole r name secretName;
          match err with
          | Some e => mret (Some (requeue e))
          | None =>
              err ← ensureServiceCertKeyPairSecretRoleBinding r name
                      (ComponentRouteStatus_ConsumingUsers componentRoute);
              match err with
              | Some e => mret (Some (requeue e))
              | None => reconcileComponentRoutes r secretNames rest
              end
          end
      end
  end.

Definition Reconcile (r : reconciler) (request : Request)
    : prog (Result * option error) :=
  '(ingress, err) ← call (ClientGetIngress (Request_NamespacedName request));
  match err with
  | Some e =>
      if IsNotFound e then mret ({| Result_Requeue := false |}, None)
      else mret ({| Result_Requeue := false |}, Some (FailedToGetIngress request e))
  | None =>
      let secretNames :=
        componentRouteTupleToSecretName
          (IngressSpec_ComponentRoutes (Ingress_Spec ingress)) in
      returned ← reconcileComponentRoutes r secretNames
                   (IngressStatus_ComponentRoutes (Ingress_Status ingress));
      match returned with
      | Some res => mret res
      | None => mret ({| Result_Requeue := false |}, None)
      end
  end.

(** What the second loop asks for an observed entry when every call goes
    through: the role and the role binding of a desired entry with the
    same namespace and name are created, those of an entry that is not
    desired are deleted. *)
Definition plan (r : reconciler) (secretNames : gmap componentRouteTuple string)
    (componentRoute : ComponentRouteStatus) : list request :=
  let name := ComponentRouteStatus_Name componentRoute in
  match secretNames !! statusTuple componentRoute with
  | Some secretName =>
      [ ClientCreateRole (desiredRole r name secretName);
        ClientCreateRoleBinding
          (desiredRoleBinding r name
             (ComponentRouteStatus_ConsumingUsers componentRoute)) ]
  | None =>
      [ ClientDeleteRole (namedRole r name);
        ClientDeleteRoleBinding (namedRoleBinding r name) ]
  end.

(** An error that this revision passes over on purpose: NotFound on
    fetching the ingress and on a delete, AlreadyExists on a create. *)
Definition passedOver (e : event) : Prop :=
  match projT1 e, event_error e with
  | ClientGetIngress _, Some NotFoundError => True
  | ClientDeleteRole _, Some NotFoundError => True
  | ClientDeleteRoleBinding _, Some NotFoundError => True
  | ClientCreateRole _, Some AlreadyExistsError => True
  | ClientCreateRoleBinding _, Some AlreadyExistsError => True
  | _, _ => False
  end.

(** A call that came back with an error that is not passed over. *)
Definition failed (e : event) : Prop :=
  is_Some (event_error e) ∧ ¬ passedOver e.

(** Whenever a call of the trace failed, it is the last call. *)
Fixpoint failsLast (t : list event) : Prop :=
  match t with
  | [] => True
  | e :: t' => (failed e → t' = []) ∧ failsLast t'
  end.

(** A run stops at the first failed call, and then returns an error. *)
Definition aborts {A W} (err : A → Prop) (o : A * list event * W) : Prop :=
  failsLast o.1.2 ∧ (Exists failed o.1.2 → err o.1.1).

(** A client without state: every call of a kind gets the same answer, a
    created or updated object comes back as it was sent. *)
Record canned := {
  canned_ingress : Ingress * option api_error;
  canned_create : option api_error;
  canned_role : Role * option api_error;
  canned_roleBinding : RoleBinding * option api_error;
  canned_update : option api_error;
  canned_delete : option api_error;
}.

Definition cannedClient (c : canned) : handler unit :=
  λ q w,
    (match q return response q with
     | ClientGetIngress _ => canned_ingress c
     | ClientCreateRole obj => (obj, canned_create c)
     | ClientGetRole _ => canned_role c
     | ClientUpdateRole obj => (obj, canned_update c)
     | ClientCreateRoleBinding obj => (obj, canned_create c)
     | ClientGetRoleBinding _ => canned_roleBinding c
     | ClientUpdateRoleBinding obj => (obj, canned_update c)
     | ClientDeleteRole _ | ClientDeleteRoleBinding _ => canned_delete c
     end, w).

End Legacy.

(** ** Setting up the controller

    [New] registers the reconciler with the manager and sets up its
    watches.  The manager, the controller it builds and the cache are
    collaborators: [New] is a tree of the calls it makes on them. *)
Module Setup.

Definition controllerName : string := "operator_route_rbac_controller".

(** The kinds of object that [New] watches. *)
Inductive kind := IngressKind | RoleKind | RoleBindingKind.

(** [controller.Controller] and [cache.Informer] are opaque to [New]:
    handles. *)
Inductive Controller := ControllerHandle (id : nat).
Inductive Informer := InformerHandle (id : nat).

(** [source.Kind] and [source.Informer]. *)
Inductive source :=
  | SourceKind (type : kind)
  | SourceInformer (informer : Informer).

(** [handler.EnqueueRequestForObject], [handler.EnqueueRequestForOwner] and
    [handler.EnqueueRequestsFromMapFunc]. *)
Inductive eventHandler :=
  | EnqueueRequestForObject
  | EnqueueRequestForOwner (ownerType : kind)
  | EnqueueRequestsFromMapFunc (toRequests : ObjectMeta → list Request).

(** The calls of [New]; an error is told by its message. *)
Inductive request :=
  | ControllerNew (name : string) (reconciler : reconciler)
  | Watch (c : Controller) (src : source) (handler : eventHandler)
      (predicates : list (ObjectMeta → bool))
  | GetInformer (type : kind).

Definition response (q : request) : Type :=
  match q with
  | ControllerNew _ _ => Controller * option string
  | Watch _ _ _ _ => option string
  | GetInformer _ => Informer * option string
  end.

Inductive prog (A : Type) : Type :=
  | Ret (a : A)
  | Call (q : request) (k : response q → prog A).

Arguments Ret {A} a.
Arguments Call {A} q k.

Fixpoint prog_bind {A B} (f : A → prog B) (p : prog A) : prog B :=
  match p with
  | Ret a => f a
  | Call q k => Call q (λ x, prog_bind f (k x))
  end.

#[global] Instance prog_ret : MRet prog := @Ret.
#[global] Instance prog_mbind : MBind prog := @prog_bind.

Definition call (q : request) : prog (response q) := Call q Ret.

Definition event : Type := { q : request & response q }.

Definition Event (q : request) (x : response q) : event := existT q x.

Definition handler (W : Type) : Type := ∀ q : request, W → response q * W.

Fixpoint run {W A} (h : handler W) (p : prog A) (w : W) : A * list event * W :=
  match p with
  | Ret a => (a, [], w)
  | Call q k =>
      let '(x, w1) := h q w in
      let '(a, t, w2) := run h (k x) w1 in
      (a, Event q x :: t, w2)
  end.

Definition requests (t : list event) : list request := map projT1 t.

Definition event_error (e : event) : option string :=
  match e with
  | existT q x =>
      match q return response q → option string with
      | ControllerNew _ _ => snd
      | Watch _ _ _ _ => id
      | GetInformer _ => snd
      end x
  end.

Definition is_GetInformer (q : request) : bool :=
  match q with GetInformer _ => true | _ => false end.

Section WithClusterConfigName.

(** [operatorcontroller.IngressClusterConfigName()] is declared outside
    the files at hand. *)
Variable IngressClusterConfigName : NamespacedName.

(** The predicate of the watch on the ingress configuration. *)
Definition clusterNamePredicate (meta : ObjectMeta) : bool :=
  bool_decide (ObjectMeta_Name meta = NamespacedName_Name IngressClusterConfigName)
  && bool_decide (ObjectMeta_Namespace meta
                  = NamespacedName_Namespace IngressClusterConfigName).

(** The predicate of the watches on roles and role bindings:
    [_, ok := labels[componentRouteHashLabelKey]]. *)
Definition defaultPredicate (meta : ObjectMeta) : bool :=
  bool_decide (is_Some (ObjectMeta_Labels meta !! componentRouteHashLabelKey)).

Definition resourceToClusterIngressConfig (o : ObjectMeta) : list Request :=
  [ {| Request_NamespacedName := IngressClusterConfigName |} ].

(** [New].  [mgr.GetClient()] and [mgr.GetCache()] are getters and make no
    call.  The error that [GetInformer] returns is assigned and never
    read: the watch is set up on whatever informer came back. *)
Definition New (config : Config) : prog (option Controller * option string) :=
  let reconciler := {| reconciler_config := config |} in
  '(c, err) ← call (ControllerNew controllerName reconciler);
  match err with
  | Some e => mret (None, Some e)
  | None =>
      err ← call (Watch c (SourceKind IngressKind) EnqueueRequestForObject
                    [clusterNamePredicate]);
      match err with
      | Some e => mret (None, Some e)
      | None =>
          '(roleInformer, _) ← call (GetInformer RoleKind);
          err ← call (Watch c (SourceInformer roleInformer)
                        (EnqueueRequestsFromMapFunc resourceToClusterIngressConfig)
                        [defaultPredicate]);
          match err with
          | Some e => mret (None, Some e)
          | None =>
              '(roleBindingInformer, _) ← call (GetInformer RoleBindingKind);
              err ← call (Watch c (SourceInformer roleBindingInformer)
                            (EnqueueRequestsFromMapFunc
                               resourceToClusterIngressConfig)
                            [defaultPredicate]);
              match err with
              | Some e => mret (None, Some e)
              | None => mret (Some c, None)
              end
          end
      end
  end.

End WithClusterConfigName.

(** [New] of the earlier revision (package [ingress]): three watches by
    kind, the roles and the role bindings by their owner. *)
Definition legacyControllerName : string := "ingress_routes_controller".

Definition LegacyNew (config : Config) : prog (option Controller * option string) :=
  let reconciler := {| reconciler_config := config |} in
  '(c, err) ← call (ControllerNew legacyControllerName reconciler);
  match err with
  | Some e => mret (None, Some e)
  | None =>
      err ← call (Watch c (SourceKind IngressKind) EnqueueRequestForObject []);
      match err with
      | Some e => mret (None, Some e)
      | None =>
          err ← call (Watch c (SourceKind RoleKind)
                        (EnqueueRequestForOwner IngressKind) []);
          match err with
          | Some e => mret (None, Some e)
          | None =>
              err ← call (Watch c (SourceKind RoleBindingKind)
                            (EnqueueRequestForOwner IngressKind) []);
              match err with
              | Some e => mret (None, Some e)
              | None => mret (Some c, None)
              end
          end
      end
  end.

(** A call, other than [GetInformer], that came back with an error. *)
Definition failed (e : event) : Prop :=
  is_GetInformer (projT1 e) = false ∧ is_Some (event_error e).

(** A manager without state: every call of a kind gets the same answer. *)
Record canned := {
  canned_controller : Controller * option string;
  canned_watch : option string;
  canned_informer : Informer * option string;
}.

Definition cannedManager (c : canned) : handler unit :=
  λ q w,
    (match q return response q with
     | ControllerNew _ _ => canned_controller c
     | Watch _ _ _ _ => canned_watch c
     | GetInformer _ => canned_informer c
     end, w).

End Setup.

(** ** The checks of the end-to-end test

    [test/e2e/ingress_test.go] polls the cluster until a condition holds.
    The conditions are embedded as functions of what the list call of one
    poll hands back; an index out of range is a panic of the Go runtime. *)
Module E2E.

Inductive outcome (A : Type) : Type :=
  | Returns (a : A)
  | Panics.

Arguments Returns {A} a.
Arguments Panics {A}.

(** [a || b] and [a && b]: [b] is looked at only when [a] does not decide. *)
Definition orElse (a b : outcome bool) : outcome bool :=
  match a with
  | Returns true => Returns true
  | Returns false => b
  | Panics => Panics
  end.

Definition andAlso (a b : outcome bool) : outcome bool :=
  match a with
  | Returns true => b
  | Returns false => Returns false
  | Panics => Panics
  end.

(** [len(l) != n]. *)
Definition lenDiffers {A} (l : list A) (n : nat) : outcome bool :=
  Returns (bool_decide (length l ≠ n)).

(** [l[i] != v]. *)
Definition differs (l : list string) (i : nat) (v : string) : outcome bool :=
  match l !! i with
  | Some x => Returns (bool_decide (x ≠ v))
  | None => Panics
  end.

(** The condition of the [if] that reports an invalid role, for
    [role.Rules]. *)
Definition invalidRules (rules : list PolicyRule) (secretName : string)
    : outcome bool :=
  orElse (lenDiffers rules 1)
    match rules !! 0 with
    | None => Panics
    | Some rule =>
        orElse
          (andAlso (lenDiffers (PolicyRule_Verbs rule) 3)
             (andAlso (differs (PolicyRule_Verbs rule) 0 "get")
                (andAlso (differs (PolicyRule_Verbs rule) 1 "list")
                   (differs (PolicyRule_Verbs rule) 2 "watch"))))
          (orElse
             (andAlso (lenDiffers (PolicyRule_APIGroups rule) 1)
                (differs (PolicyRule_APIGroups rule) 0 ""))
             (orElse
                (andAlso (lenDiffers (PolicyRule_Resources rule) 1)
                   (differs (PolicyRule_Resources rule) 0 "secrets"))
                (andAlso (lenDiffers (PolicyRule_ResourceNames rule) 1)
                   (differs (PolicyRule_ResourceNames rule) 0 secretName))))
    end.

(** The condition function of [pollForValidComponentRouteRole]: what one
    poll returns, [(done, err)], for what the list call handed back. *)
Definition pollForValidComponentRouteRole_condition
    (componentRoute : ComponentRouteSpec) (listed : list Role * option api_error)
    : outcome (bool * option string) :=
  match listed.2 with
  | Some _ => Returns (false, None)
  | None =>
      if bool_decide (length listed.1 ≠ 1) then Returns (false, None)
      else
        match listed.1 !! 0 with
        | None => Panics
        | Some role =>
            match invalidRules (Role_Rules role)
                    (SecretNameReference_Name
                       (ComponentRouteSpec_ServingCertKeyPairSecret componentRoute))
            with
            | Panics => Panics
            | Returns true => Returns (false, Some "Invalid Role generated")
            | Returns false => Returns (true, None)
            end
        end
  end.

(** The loop over [componentRoute.ConsumingUsers]: every expected subject
    is the name of some subject. *)
Definition allFound (subjects : list Subject) (users : list string) : bool :=
  forallb (λ expectedSubject,
             existsb (λ subject, bool_decide (Subject_Name subject = expectedSubject))
                     subjects)
          users.

(** The condition function of [pollForValidComponentRouteRoleBinding]. *)
Definition pollForValidComponentRouteRoleBinding_condition
    (componentRoute : ComponentRouteStatus)
    (listed : list RoleBinding * option api_error) : outcome (bool * option string) :=
  match listed.2 with
  | Some _ => Returns (false, None)
  | None =>
      if bool_decide (length listed.1 ≠ 1) then Returns (false, None)
      else
        match listed.1 !! 0 with
        | None => Panics
        | Some roleBinding =>
            if bool_decide (RoleRef_APIGroup (RoleBinding_RoleRef roleBinding)
                            ≠ "rbac.authorization.k8s.io")
               || bool_decide (RoleRef_Kind (RoleBinding_RoleRef roleBinding) ≠ "Role")
               || bool_decide (RoleRef_Name (RoleBinding_RoleRef roleBinding)
                               ≠ RoleBinding_GetName roleBinding)
            then Returns (false, None)
            else if bool_decide
                      (length (RoleBinding_Subjects roleBinding)
                       ≠ length (ComponentRouteStatus_ConsumingUsers componentRoute))
            then Returns (false, None)
            else if allFound (RoleBinding_Subjects roleBinding)
                      (ComponentRouteStatus_ConsumingUsers componentRoute)
            then Returns (true, None)
            else Returns (false, None)
        end
  end.

End E2E.

(** ** Vocabulary of the properties *)

(** No ["/"] in a string. *)
Fixpoint noSlash (s : string) : bool :=
  match s with
  | EmptyString => true
  | String c s' => negb (Ascii.eqb c "/"%char) && noSlash s'
  end.

(** The correlation hash an object is labelled with. *)
Definition hashLabel (labels : gmap string string) : option string :=
  labels !! componentRouteHashLabelKey.

(** An object whose correlation hash is not among [hashes]. *)
Definition orphaned (hashes : gset string) (labels : gmap string string) : Prop :=
  match hashLabel labels with
  | Some expectedHash => expectedHash ∉ hashes
  | None => False
  end.

#[global] Instance orphaned_dec hashes labels : Decision (orphaned hashes labels).
Proof. unfold orphaned. destruct (hashLabel labels); apply _. Defined.

(** The items that the list calls of the garbage collector handed back in
    a trace. *)
Definition gcListedRoles (namespace : string) (t : list event) : list Role :=
  t ≫= listed_roles (allComponentRouteResources namespace).

Definition gcListedRoleBindings (namespace : string) (t : list event)
    : list RoleBinding :=
  t ≫= listed_roleBindings (allComponentRouteResources namespace).

(** The calls that role convergence (role-binding convergence) for a target
    can make. *)
Inductive roleStep (namespace : string) (r : reconciler)
    (cr : aggregatedComponentRoute) : request → Prop :=
  | roleStep_list :
      roleStep namespace r cr (CacheListRoles (componentRouteResources namespace cr))
  | roleStep_create :
      roleStep namespace r cr (ClientCreateRole (desiredRole r cr))
  | roleStep_delete (obj : Role) :
      roleStep namespace r cr (ClientDeleteRole obj)
  | roleStep_update (first : Role) :
      roleStep namespace r cr
        (ClientUpdateRole (Role_setRules first (Role_Rules (desiredRole r cr)))).

Inductive bindingStep (namespace : string) (r : reconciler)
    (cr : aggregatedComponentRoute) (roleName : string) : request → Prop :=
  | bindingStep_list :
      bindingStep namespace r cr roleName
        (CacheListRoleBindings (componentRouteResources namespace cr))
  | bindingStep_create :
      bindingStep namespace r cr roleName
        (ClientCreateRoleBinding (desiredRoleBinding r cr roleName))
  | bindingStep_delete (obj : RoleBinding) :
      bindingStep namespace r cr roleName (ClientDeleteRoleBinding obj)
  | bindingStep_update (first : RoleBinding) :
      bindingStep namespace r cr roleName
        (ClientUpdateRoleBinding
           (RoleBinding_setSubjectsRoleRef first
              (subjectsOf (aggregatedComponentRoute_ConsumingUsers cr))
              (roleRefTo roleName))).

(** A request that is not one of the two list calls of the garbage
    collector. *)
Definition notGcList (namespace : string) (q : request) : Prop :=
  q ≠ CacheListRoles (allComponentRouteResources namespace) ∧
  q ≠ CacheListRoleBindings (allComponentRouteResources namespace).

(** One of the list calls of the garbage collector handed back an object
    without the hash label. *)
Definition gcUnlabelled (namespace : string) (t : list event) : Prop :=
  (∃ item, item ∈ gcListedRoles namespace t ∧
           hashLabel (Role_GetLabels item) = None) ∨
  (∃ item, item ∈ gcListedRoleBindings namespace t ∧
           hashLabel (RoleBinding_GetLabels item) = None).

(** Role bindings follow roles along a trace.  [current] is the name the
    last write of a role came back with ([None] before any, and after one
    that failed): that is the name role convergence returns.  Every role
    binding sent to create or update must name [current] in its role
    reference; a created one must also have it as its own name, and so
    must an updated one when [ownName] is set. *)
Fixpoint bindingsFollowRoles (ownName : bool) (current : option string)
    (t : list event) : Prop :=
  match t with
  | [] => True
  | existT q x :: t' =>
      match q return response q → Prop with
      | ClientCreateRole _ | ClientUpdateRole _ => λ x,
          bindingsFollowRoles ownName
            (match x.2 with None => Some (Role_GetName x.1) | Some _ => None end) t'
      | ClientCreateRoleBinding obj => λ _,
          current = Some (RoleRef_Name (RoleBinding_RoleRef obj)) ∧
          current = Some (RoleBinding_GetName obj) ∧
          bindingsFollowRoles ownName current t'
      | ClientUpdateRoleBinding obj => λ _,
          current = Some (RoleRef_Name (RoleBinding_RoleRef obj)) ∧
          (ownName = true → current = Some (RoleBinding_GetName obj)) ∧
          bindingsFollowRoles ownName current t'
      | _ => λ _, bindingsFollowRoles ownName current t'
      end x
  end.

(** A request that writes neither a role nor a role binding in place: a
    get, a list or a delete. *)
Definition neutral (q : request) : Prop :=
  is_create q = false ∧ is_update q = false.

(** An error that the controller passes over on purpose: NotFound on
    fetching the ingress and NotFound on a delete. *)
Definition is_get (q : request) : bool :=
  match q with CacheGetIngress _ => true | _ => false end.

Definition passedOver (e : event) : Prop :=
  event_error e = Some NotFoundError ∧
  (is_get (projT1 e) = true ∨ is_delete (projT1 e) = true).

(** A call, other than the list calls of the garbage collector, that came
    back with an error that is not passed over. *)
Definition failed (namespace : string) (e : event) : Prop :=
  is_Some (event_error e) ∧ ¬ passedOver e ∧ notGcList namespace (projT1 e).

(** Whenever a call of the trace failed, it is the last call. *)
Fixpoint failsLast (namespace : string) (t : list event) : Prop :=
  match t with
  | [] => True
  | e :: t' => (failed namespace e → t' = []) ∧ failsLast namespace t'
  end.

(** A run stops at the first failed call, and then returns an error
    ([err] tells the results that are errors). *)
Definition aborts {A W} (namespace : string) (err : A → Prop)
    (o : A * list event * W) : Prop :=
  failsLast namespace (trace_of o) ∧
  (Exists (failed namespace) (trace_of o) → err (result_of o)).

(** [delete_tolerated], as a test to run on a trace. *)
Definition tolerated (e : event) : bool :=
  negb (is_delete (projT1 e)) ||
  match event_error e with
  | None | Some NotFoundError => true
  | Some _ => false
  end.

(** A second run of a program, right after a first one, makes no create
    and no update call. *)
Definition secondRunOnlyLists {W A} (h : handler W) (p : prog A) (w : W) : Prop :=
  let first := run h p w in
  let second := run h p (world_of first) in
  List.filter (λ q, is_create q || is_update q) (requests (trace_of second)) = [].

(** The key under which the cluster stores an object: its namespace and
    its name. *)
Definition objectKey (meta : ObjectMeta) : string * string :=
  (ObjectMeta_Namespace meta, ObjectMeta_Name meta).

(** No two roles, and no two role bindings, of the cluster have the same
    namespace and name. *)
Definition uniqueKeys (w : cluster) : Prop :=
  NoDup (map (λ o, objectKey (Role_ObjectMeta o)) (cluster_roles w)) ∧
  NoDup (map (λ o, objectKey (RoleBinding_ObjectMeta o)) (cluster_roleBindings w)).

(** An object for the garbage collector: it is in the managed namespace,
    it carries the marker label, and the hash the label holds is not the
    hash of a target. *)
Definition collectable (namespace : string) (hashes : gset string)
    (meta : ObjectMeta) : Prop :=
  ObjectMeta_Namespace meta = namespace ∧
  ∃ expectedHash,
    ObjectMeta_Labels meta !! componentRouteHashLabelKey = Some expectedHash ∧
    expectedHash ∉ hashes.

#[global] Instance collectable_dec namespace hashes meta :
  Decision (collectable namespace hashes meta).
Proof.
  unfold collectable.
  destruct (ObjectMeta_Labels meta !! componentRouteHashLabelKey) as [k |].
  - destruct (decide (ObjectMeta_Namespace meta = namespace ∧ k ∉ hashes))
      as [Hyes | Hno].
    + left. destruct Hyes. eauto.
    + right. intros [Hns (k' & [= <-] & Hk)]. auto.
  - right. by intros [_ (k' & [=] & _)].
Defined.

(** A list call of convergence (any list call but the two of the garbage
    collector) that handed back exactly one item and no error. *)
Definition singleMatch (namespace : string) (e : event) : Prop :=
  match e with
  | existT q x =>
      match q return response q → Prop with
      | CacheListRoles opts => λ x,
          opts ≠ allComponentRouteResources namespace → ∃ item, x = ([item], None)
      | CacheListRoleBindings opts => λ x,
          opts ≠ allComponentRouteResources namespace → ∃ item, x = ([item], None)
      | _ => λ _, True
      end x
  end.

(** Every list call of convergence in the trace found exactly one item. *)
Definition singleMatches (namespace : string) (t : list event) : Prop :=
  Forall (singleMatch namespace) t.

(** A request that puts an object in place: a create or an update. *)
Definition is_put (q : request) : bool := is_create q || is_update q.

(** The shape of what [Reconcile] returns for a request. *)
Definition resultShape (req : Request) (res : Result * option error) : Prop :=
  match res.2 with
  | None => Result_Requeue res.1 = false
  | Some (FailedToGetIngress request cause) =>
      Result_Requeue res.1 = false ∧ request = req ∧ IsNotFound cause = false
  | Some (FailedToCreateRole _)
  | Some (FailedToCreateRoleBinding _)
  | Some (FailedToDeleteRole _) => Result_Requeue res.1 = true
  | Some (FromAPI _) | Some MissingHashLabel => False
  end.

(** Along a trace, every delete is of an object that an earlier list call
    of the trace handed back, and every update is of such an object with
    its metadata as listed.  [roles] and [bindings] are the objects handed
    back so far. *)
Fixpoint touchesOnlyListed (roles : list Role) (bindings : list RoleBinding)
    (t : list event) : Prop :=
  match t with
  | [] => True
  | existT q x :: t' =>
      match q return response q → Prop with
      | CacheListRoles _ => λ x, touchesOnlyListed (roles ++ x.1) bindings t'
      | CacheListRoleBindings _ => λ x,
          touchesOnlyListed roles (bindings ++ x.1) t'
      | ClientDeleteRole obj => λ _,
          obj ∈ roles ∧ touchesOnlyListed roles bindings t'
      | ClientUpdateRole obj => λ _,
          (∃ item, item ∈ roles ∧ Role_ObjectMeta obj = Role_ObjectMeta item) ∧
          touchesOnlyListed roles bindings t'
      | ClientDeleteRoleBinding obj => λ _,
          obj ∈ bindings ∧ touchesOnlyListed roles bindings t'
      | ClientUpdateRoleBinding obj => λ _,
          (∃ item, item ∈ bindings ∧
                   RoleBinding_ObjectMeta obj = RoleBinding_ObjectMeta item) ∧
          touchesOnlyListed roles bindings t'
      | _ => λ _, touchesOnlyListed roles bindings t'
      end x
  end.

(** What the garbage collector may ask for: its two list calls, and the
    delete of an object whose hash label is not among [hashes]. *)
Definition gcStep (namespace : string) (hashes : gset string) (q : request) : Prop :=
  match q with
  | CacheListRoles opts | CacheListRoleBindings opts =>
      opts = allComponentRouteResources namespace
  | ClientDeleteRole obj => orphaned hashes (Role_GetLabels obj)
  | ClientDeleteRoleBinding obj => orphaned hashes (RoleBinding_GetLabels obj)
  | _ => False
  end.

(** The number of creates and updates of a trace. *)
Definition puts (t : list event) : nat :=
  length (List.filter is_put (requests t)).

(** ** Concrete inputs *)

(** A stand-in for [util.Hash] that never collides: the key itself. *)
Definition plainHash (s : string) : string := s.

Definition configNamespace : string := "openshift-config".

Definition specOf (namespace name secret : string) : ComponentRouteSpec :=
  {| ComponentRouteSpec_Namespace := namespace;
     ComponentRouteSpec_Name := name;
     ComponentRouteSpec_Hostname := "";
     ComponentRouteSpec_ServingCertKeyPairSecret :=
       {| SecretNameReference_Name := secret |} |}.

Definition statusOf (namespace name : string) (users : list string)
    : ComponentRouteStatus :=
  {| ComponentRouteStatus_Namespace := namespace;
     ComponentRouteStatus_Name := name;
     ComponentRouteStatus_DefaultHostname := "";
     ComponentRouteStatus_ConsumingUsers := users;
     ComponentRouteStatus_CurrentHostnames := [] |}.

(** The two entries of the end-to-end test. *)
Definition desiredFooBar : list ComponentRouteSpec :=
  [specOf "default" "foo" "foo"; specOf "default" "bar" "bar"].

Definition observedFooBar : list ComponentRouteStatus :=
  [statusOf "default" "foo" ["foo"; "bar"]; statusOf "default" "bar" ["bar"]].

(** Two different identities whose keys are both ["a/b/c"]. *)
Definition desiredSlash : list ComponentRouteSpec := [specOf "a/b" "c" "secret"].
Definition observedSlash : list ComponentRouteStatus := [statusOf "a" "b/c" ["user"]].

(** The same identity twice, on either side. *)
Definition desiredTwice : list ComponentRouteSpec :=
  [specOf "default" "foo" "first"; specOf "default" "foo" "second"].

Definition observedTwice : list ComponentRouteStatus :=
  [statusOf "default" "foo" ["early"]; statusOf "default" "foo" ["late"]].

(** A reconciler for the namespace [configNamespace], a target, and stored
    objects as the controller writes them. *)
Definition theReconciler : reconciler :=
  {| reconciler_config := {| Config_SecretNamespace := configNamespace |} |}.

Definition targetFoo : aggregatedComponentRoute :=
  {| aggregatedComponentRoute_Name := "foo";
     aggregatedComponentRoute_Hash := "default/foo";
     aggregatedComponentRoute_ServingCertificateName := "foo";
     aggregatedComponentRoute_ConsumingUsers := ["foo"; "bar"] |}.

Definition storedMeta (name : string) (labels : gmap string string) : ObjectMeta :=
  {| ObjectMeta_Name := name;
     ObjectMeta_GenerateName := "";
     ObjectMeta_Namespace := configNamespace;
     ObjectMeta_Labels := labels |}.

Definition storedRole (name hash secret : string) : Role :=
  {| Role_ObjectMeta := storedMeta name {[ componentRouteHashLabelKey := hash ]};
     Role_Rules :=
       [ {| PolicyRule_Verbs := ["get"; "list"; "watch"];
            PolicyRule_APIGroups := [""];
            PolicyRule_Resources := ["secrets"];
            PolicyRule_ResourceNames := [secret] |} ] |}.

Definition storedRoleBinding (name hash roleName : string) (users : list string)
    : RoleBinding :=
  {| RoleBinding_ObjectMeta :=
       storedMeta name {[ componentRouteHashLabelKey := hash ]};
     RoleBinding_Subjects :=
       map (λ user, {| Subject_Kind := ServiceAccountKind;
                       Subject_Name := user;
                       Subject_APIGroup := "" |}) users;
     RoleBinding_RoleRef := roleRefTo roleName |}.

(** A race left three roles and two role bindings for the target, and by
    the time the controller deletes the duplicates they are gone. *)
Definition duplicatesAlreadyGone : canned :=
  {| canned_ingress := (emptyIngress, None);
     canned_roles :=
       ([storedRole "foo-1" "default/foo" "foo";
         storedRole "foo-2" "default/foo" "foo";
         storedRole "foo-3" "default/foo" "foo"], None);
     canned_roleBindings :=
       ([storedRoleBinding "foo-1" "default/foo" "foo-1" ["foo"; "bar"];
         storedRoleBinding "foo-2" "default/foo" "foo-2" ["foo"; "bar"]], None);
     canned_write := None;
     canned_delete := Some NotFoundError |}.

(** One role and one role binding for the target, with the content the
    target asks for. *)
Definition converged : canned :=
  {| canned_ingress := (emptyIngress, None);
     canned_roles := ([storedRole "foo-1" "default/foo" "foo"], None);
     canned_roleBindings :=
       ([storedRoleBinding "foo-1" "default/foo" "foo-1" ["foo"; "bar"]], None);
     canned_write := None;
     canned_delete := None |}.

(** The cache hands the garbage collector a role that carries no label. *)
Definition listsUnlabelled : canned :=
  {| canned_ingress := (emptyIngress, None);
     canned_roles :=
       ([ {| Role_ObjectMeta := storedMeta "stray" ∅; Role_Rules := [] |} ], None);
     canned_roleBindings := ([], None);
     canned_write := None;
     canned_delete := None |}.

(** The cache fails to list, for the roles and for the role bindings. *)
Definition listsFail : canned :=
  {| canned_ingress := (emptyIngress, None);
     canned_roles := ([], Some (OtherError "cache not synced"));
     canned_roleBindings := ([], Some (OtherError "cache not synced"));
     canned_write := None;
     canned_delete := None |}.

(** The cluster ingress configuration with the two entries of the
    end-to-end test, in a cluster that holds no role and no role binding
    yet; and a cluster without the configuration. *)
Definition requestCluster : Request :=
  {| Request_NamespacedName :=
       {| NamespacedName_Namespace := ""; NamespacedName_Name := "cluster" |} |}.

Definition ingressOf (D : list ComponentRouteSpec) (S : list ComponentRouteStatus)
    : Ingress :=
  {| Ingress_ObjectMeta :=
       {| ObjectMeta_Name := "cluster"; ObjectMeta_GenerateName := "";
          ObjectMeta_Namespace := ""; ObjectMeta_Labels := ∅ |};
     Ingress_Spec := {| IngressSpec_Domain := ""; IngressSpec_AppsDomain := "";
                        IngressSpec_ComponentRoutes := D |};
     Ingress_Status := {| IngressStatus_ComponentRoutes := S |} |}.

(** The cache fails to list the roles of a target. *)
Definition listFailsForTarget : canned :=
  {| canned_ingress :=
       (ingressOf [specOf "default" "foo" "foo"]
                  [statusOf "default" "foo" ["foo"; "bar"]], None);
     canned_roles := ([], Some (OtherError "cache not synced"));
     canned_roleBindings := ([], None);
     canned_write := None;
     canned_delete := None |}.

Definition clusterFooBar : cluster :=
  {| cluster_ingresses := [ingressOf desiredFooBar observedFooBar];
     cluster_roles := [];
     cluster_roleBindings := [];
     cluster_generated := 0 |}.

Definition clusterWithoutIngress : cluster :=
  {| cluster_ingresses := [];
     cluster_roles := [];
     cluster_roleBindings := [];
     cluster_generated := 0 |}.

(** A cluster that still holds the role and the role binding of the entry
    ["bar"], beside those of ["foo"]. *)
Definition clusterFooAndBar : cluster :=
  {| cluster_ingresses := [];
     cluster_roles :=
       [storedRole "foo-0" "default/foo" "foo"; storedRole "bar-2" "default/bar" "bar"];
     cluster_roleBindings :=
       [storedRoleBinding "foo-0" "default/foo" "foo-0" ["foo"; "bar"];
        storedRoleBinding "bar-2" "default/bar" "bar-2" ["bar"]];
     cluster_generated := 4 |}.

(** The role of the entry ["foo"] was deleted by hand; its role binding,
    named after that role, is still there. *)
Definition clusterRoleLost : cluster :=
  {| cluster_ingresses :=
       [ingressOf [specOf "default" "foo" "foo"]
                  [statusOf "default" "foo" ["foo"; "bar"]]];
     cluster_roles := [];
     cluster_roleBindings :=
       [storedRoleBinding "foo-0" "default/foo" "foo-0" ["foo"; "bar"]];
     cluster_generated := 7 |}.

(** The cluster [w] after the administrator replaced the ingress
    configuration. *)
Definition withIngress (w : cluster) (ingress : Ingress) : cluster :=
  {| cluster_ingresses := [ingress];
     cluster_roles := cluster_roles w;
     cluster_roleBindings := cluster_roleBindings w;
     cluster_generated := cluster_generated w |}.

(** A call of the earlier revision that went through. *)
Definition legacy_ok (e : Legacy.event) : Prop := Legacy.event_error e = None.

(** Concrete inputs for the earlier revision: the entry ["foo"] is desired
    and observed in the namespace ["default"]; an entry of the same name is
    observed in the namespace ["other"], where it is not desired. *)
Definition legacyIngress : Ingress :=
  ingressOf [specOf "default" "foo" "foo-secret"]
            [statusOf "default" "foo" ["foo"; "bar"]; statusOf "other" "foo" ["baz"]].

Definition legacyRole : Role :=
  {| Role_ObjectMeta := storedMeta "foo" ∅; Role_Rules := [] |}.

Definition legacyRoleBinding : RoleBinding :=
  {| RoleBinding_ObjectMeta := storedMeta "foo" ∅;
     RoleBinding_Subjects := [];
     RoleBinding_RoleRef := roleRefTo "stale" |}.

(** Every call goes through. *)
Definition legacyObliging : Legacy.canned :=
  {| Legacy.canned_ingress := (legacyIngress, None);
     Legacy.canned_create := None;
     Legacy.canned_role := (legacyRole, None);
     Legacy.canned_roleBinding := (legacyRoleBinding, None);
     Legacy.canned_update := None;
     Legacy.canned_delete := None |}.

(** The objects exist already. *)
Definition legacyExisting : Legacy.canned :=
  {| Legacy.canned_ingress := (legacyIngress, None);
     Legacy.canned_create := Some AlreadyExistsError;
     Legacy.canned_role := (legacyRole, None);
     Legacy.canned_roleBinding := (legacyRoleBinding, None);
     Legacy.canned_update := None;
     Legacy.canned_delete := None |}.

(** The update is refused. *)
Definition legacyRefused : Legacy.canned :=
  {| Legacy.canned_ingress := (legacyIngress, None);
     Legacy.canned_create := Some AlreadyExistsError;
     Legacy.canned_role := (legacyRole, None);
     Legacy.canned_roleBinding := (legacyRoleBinding, None);
     Legacy.canned_update := Some (OtherError "conflict");
     Legacy.canned_delete := None |}.

(** The cache cannot hand out informers; every other call goes through. *)
Definition noInformers : Setup.canned :=
  {| Setup.canned_controller := (Setup.ControllerHandle 0, None);
     Setup.canned_watch := None;
     Setup.canned_informer := (Setup.InformerHandle 0, Some "cache not started") |}.

Definition clusterConfigName : NamespacedName :=
  {| NamespacedName_Namespace := ""; NamespacedName_Name := "cluster" |}.

(** A role that grants everything on every resource, in a single rule with
    three verbs. *)
Definition permissiveRole : Role :=
  {| Role_ObjectMeta := storedMeta "foo-0" {[ componentRouteHashLabelKey := "default/foo" ]};
     Role_Rules :=
       [ {| PolicyRule_Verbs := ["*"; "*"; "*"];
            PolicyRule_APIGroups := ["*"];
            PolicyRule_Resources := ["*"];
            PolicyRule_ResourceNames := ["*"] |} ] |}.

(** A role whose single rule names no verb. *)
Definition verblessRole : Role :=
  {| Role_ObjectMeta := storedMeta "foo-0" {[ componentRouteHashLabelKey := "default/foo" ]};
     Role_Rules :=
       [ {| PolicyRule_Verbs := [];
            PolicyRule_APIGroups := [""];
            PolicyRule_Resources := ["secrets"];
            PolicyRule_ResourceNames := ["foo"] |} ] |}.

(** * Properties *)

(** ** Programs and their runs *)

Lemma run_bind {W A B} (h : handler W) (p : prog A) (f : A → prog B) (w : W) :
  run h (p ≫= f) w =
    let '(a, t, w1) := run h p w in
    let '(b, t', w2) := run h (f a) w1 in
    (b, t ++ t', w2).
Proof.
  revert w. induction p as [a | q k IH]; intros w.
  - simpl. destruct (run h (f a) w) as [[b t'] w2]. done.
  - change (run h (Call q k ≫= f) w)
      with (let '(x, w1) := h q w in
            let '(a, t, w2) := run h (k x ≫= f) w1 in
            (a, Event q x :: t, w2)).
    simpl. destruct (h q w) as [x w1]. rewrite IH.
    destruct (run h (k x) w1) as [[a t] w2].
    destruct (run h (f a) w2) as [[b t'] w3]. done.
Qed.

Lemma omap_cons {A B} (f : A → option B) (x : A) (l : list A) :
  omap f (x :: l) = match f x with Some y => y :: omap f l | None => omap f l end.
Proof. done. Qed.

(** ** The state intersector *)

Section IntersectorFacts.

Variable Hash : string → string.

Lemma newAggregatedComponentRoute_Hash d s :
  aggregatedComponentRoute_Hash (newAggregatedComponentRoute Hash d s)
  = specHash Hash d.
Proof. done. Qed.

Lemma lastWithHash_snoc k S s :
  lastWithHash Hash k (S ++ [s]) =
    if decide (statusHash Hash s = k) then Some s else lastWithHash Hash k S.
Proof.
  unfold lastWithHash. rewrite filter_app, filter_cons, filter_nil.
  case_decide.
  - by rewrite last_snoc.
  - by rewrite app_nil_r.
Qed.

(** The map built by the first loop answers a lookup with the last observed
    entry of that key. *)
Lemma componentRouteHashToComponentRouteStatus_lookup S k :
  componentRouteHashToComponentRouteStatus Hash S !! k = lastWithHash Hash k S.
Proof.
  unfold componentRouteHashToComponentRouteStatus.
  induction S as [| s S IH] using rev_ind.
  - done.
  - rewrite foldl_app, lastWithHash_snoc. simpl.
    rewrite lookup_insert. case_decide; done.
Qed.

Lemma lastWithHash_Some k S s :
  lastWithHash Hash k S = Some s → s ∈ S ∧ statusHash Hash s = k.
Proof.
  unfold lastWithHash. intros H%last_Some_elem_of.
  apply list_elem_of_filter in H. tauto.
Qed.

Lemma lastWithHash_is_Some k S :
  is_Some (lastWithHash Hash k S) ↔ ∃ s, s ∈ S ∧ statusHash Hash s = k.
Proof.
  unfold lastWithHash. rewrite last_is_Some. split.
  - intros H. destruct (filter _ S) as [| s l] eqn:E; [done |].
    assert (Hs : s ∈ filter (λ s, statusHash Hash s = k) S) by (rewrite E; left).
    apply list_elem_of_filter in Hs. exists s. tauto.
  - intros (s & Hin & Hk) E.
    eapply (filter_nil_not_elem_of (λ s, statusHash Hash s = k)); eauto.
Qed.

(** When no later entry has the key of [s], the lookup finds [s]. *)
Lemma lastWithHash_last S1 s S2 :
  (∀ s', s' ∈ S2 → statusHash Hash s' ≠ statusHash Hash s) →
  lastWithHash Hash (statusHash Hash s) (S1 ++ s :: S2) = Some s.
Proof.
  intros Hlater. unfold lastWithHash.
  rewrite filter_app, filter_cons_True by done.
  replace (filter (λ s0, statusHash Hash s0 = statusHash Hash s) S2) with (@nil ComponentRouteStatus).
  - by rewrite last_snoc.
  - symmetry. induction S2 as [| s' S2 IH]; [done |].
    rewrite filter_cons_False by (apply Hlater; left).
    apply IH. intros s'' Hin. apply Hlater. by right.
Qed.

(** The second loop, as one pass over the desired list. *)
Lemma intersectingComponentRoutes_omap D S :
  intersectingComponentRoutes Hash D S =
    omap (λ d, newAggregatedComponentRoute Hash d
                 <$> lastWithHash Hash (specHash Hash d) S) D.
Proof.
  unfold intersectingComponentRoutes.
  induction D as [| d D IH] using rev_ind.
  - done.
  - rewrite foldl_app, omap_app, IH. simpl.
    rewrite componentRouteHashToComponentRouteStatus_lookup.
    destruct (lastWithHash Hash (specHash Hash d) S); simpl.
    + done.
    + by rewrite app_nil_r.
Qed.

(** The targets of one key: one for each desired entry of the key, each
    combined with the last observed entry of the key. *)
Lemma intersectingComponentRoutes_of_hash D S1 s S2 :
  (∀ s', s' ∈ S2 → statusHash Hash s' ≠ statusHash Hash s) →
  filter (λ t, aggregatedComponentRoute_Hash t = statusHash Hash s)
         (intersectingComponentRoutes Hash D (S1 ++ s :: S2))
  = map (λ d, newAggregatedComponentRoute Hash d s)
        (filter (λ d, specHash Hash d = statusHash Hash s) D).
Proof.
  intros Hlater. rewrite intersectingComponentRoutes_omap.
  induction D as [| d D IH]; [done |].
  rewrite omap_cons, (filter_cons _ d). case_decide as Hk.
  - rewrite Hk, lastWithHash_last by done. cbn [fmap option_fmap option_map].
    rewrite filter_cons_True by (by rewrite newAggregatedComponentRoute_Hash).
    by rewrite IH.
  - destruct (lastWithHash Hash (specHash Hash d) (S1 ++ s :: S2));
      cbn [fmap option_fmap option_map].
    + rewrite filter_cons_False by (by rewrite newAggregatedComponentRoute_Hash).
      apply IH.
    + apply IH.
Qed.

Lemma append_cons (c : ascii) (s t : string) :
  String c s +:+ t = String c (s +:+ t).
Proof. reflexivity. Qed.

Lemma append_nil (t : string) : "" +:+ t = t.
Proof. reflexivity. Qed.

(** Without a ["/"] in the namespaces, the key tells the pair. *)
Lemma namespacedName_inj (ns1 n1 ns2 n2 : string) :
  noSlash ns1 = true → noSlash ns2 = true →
  namespacedName ns1 n1 = namespacedName ns2 n2 → ns1 = ns2 ∧ n1 = n2.
Proof.
  unfold namespacedName. revert ns2.
  induction ns1 as [| c1 ns1 IH]; intros [| c2 ns2];
    rewrite ?append_cons, ?append_nil; cbn [noSlash].
  - intros _ _ [= ->]. done.
  - intros _ Hc2 [= <- _]. done.
  - intros Hc1 _ [= -> _]. done.
  - intros [_ H1]%andb_prop [_ H2]%andb_prop [= -> Hrest].
    destruct (IH ns2 H1 H2 Hrest) as [-> ->]. done.
Qed.

(** With a hash that does not collide and namespaces without ["/"], two
    entries have the same key exactly when they have the same identity. *)
Lemma sameHash_sameIdentity d s :
  Inj (=) (=) Hash →
  noSlash (ComponentRouteSpec_Namespace d) = true →
  noSlash (ComponentRouteStatus_Namespace s) = true →
  statusHash Hash s = specHash Hash d ↔ sameIdentity d s.
Proof.
  intros Hinj Hd Hs. unfold statusHash, specHash, sameIdentity. split.
  - intros Hk%Hinj. by destruct (namespacedName_inj _ _ _ _ Hs Hd Hk) as [-> ->].
  - by intros [-> ->].
Qed.

End IntersectorFacts.







(** On the two lists of that input the targets are these, with the plain
    stand-in for the hash. *)
Example intersectingComponentRoutes_twice :
  intersectingComponentRoutes plainHash desiredTwice observedTwice =
    [ {| aggregatedComponentRoute_Name := "foo";
         aggregatedComponentRoute_Hash := "default/foo";
         aggregatedComponentRoute_ServingCertificateName := "first";
         aggregatedComponentRoute_ConsumingUsers := ["late"] |};
      {| aggregatedComponentRoute_Name := "foo";
         aggregatedComponentRoute_Hash := "default/foo";
         aggregatedComponentRoute_ServingCertificateName := "second";
         aggregatedComponentRoute_ConsumingUsers := ["late"] |} ].
Proof. vm_compute. reflexivity. Qed.

(** ** Runs of the controller *)

Lemma requests_app (t1 t2 : list event) :
  requests (t1 ++ t2) = requests t1 ++ requests t2.
Proof. apply map_app. Qed.

Lemma requests_cons (q : request) (x : response q) (t : list event) :
  requests (Event q x :: t) = q :: requests t.
Proof. done. Qed.

Lemma requests_nil : requests [] = [].
Proof. done. Qed.

Create Rewrite HintDb trace.
#[global] Hint Rewrite requests_app requests_cons requests_nil : trace.

Lemma tolerated_Forall (t : list event) :
  forallb tolerated t = true → Forall delete_tolerated t.
Proof.
  intros Ht. apply Forall_forall. intros e Hin%list_elem_of_In Hd.
  rewrite forallb_forall in Ht. specialize (Ht e Hin).
  unfold tolerated in Ht. rewrite Hd in Ht. simpl in Ht.
  destruct (event_error e) as [[| |] |]; auto; discriminate.
Qed.

(** One step of a run: a call of the program meets the handler. *)
Ltac run_step := cbn [run mbind prog_mbind prog_bind call mret prog_ret IsNotFound].

(** The parts of an outcome, and the requests of a trace that starts with
    a known event. *)
Ltac out_simpl :=
  cbn [result_of trace_of world_of fst snd] in *; autorewrite with trace in *.

(** The run of [p ≫= f], split at the end of [p]. *)
Ltac run_split p a t w :=
  rewrite (run_bind _ p); destruct (run _ p _) as [[a t] w] eqn:?.

Section ConvergenceFacts.

Variable OpenShiftConfigNamespace : string.
Context {W : Type} (h : handler W).

(** The duplicate loop over roles, when every delete goes through or finds
    the object gone: all items are deleted, and the loop ends without an
    error. *)
Lemma deleteRolesAfterFirst_tolerated (i : nat) (items : list Role) (w : W) :
  Forall delete_tolerated (trace_of (run h (deleteRolesAfterFirst (S i) items) w)) →
  result_of (run h (deleteRolesAfterFirst (S i) items) w) = None ∧
  requests (trace_of (run h (deleteRolesAfterFirst (S i) items) w))
  = map ClientDeleteRole items.
Proof.
  revert i w. induction items as [| item items IH]; intros i w; [done |].
  cbn [deleteRolesAfterFirst]. rewrite decide_False by lia. run_step.
  destruct (h (ClientDeleteRole item) w) as [err w1].
  specialize (IH (S i) w1).
  destruct err as [[| |msg] |]; run_step;
    try destruct (run h (deleteRolesAfterFirst (S (S i)) items) w1) as [[res t] w2];
    out_simpl; intros Htol; apply Forall_cons in Htol as [Hitem Htol];
    try (destruct (Hitem eq_refl); discriminate);
    destruct (IH Htol) as [-> Hreq]; (split; [done | by rewrite Hreq]).
Qed.

Lemma deleteRoleBindingsAfterFirst_tolerated
    (i : nat) (items : list RoleBinding) (w : W) :
  Forall delete_tolerated
    (trace_of (run h (deleteRoleBindingsAfterFirst (S i) items) w)) →
  result_of (run h (deleteRoleBindingsAfterFirst (S i) items) w) = None ∧
  requests (trace_of (run h (deleteRoleBindingsAfterFirst (S i) items) w))
  = map ClientDeleteRoleBinding items.
Proof.
  revert i w. induction items as [| item items IH]; intros i w; [done |].
  cbn [deleteRoleBindingsAfterFirst]. rewrite decide_False by lia. run_step.
  destruct (h (ClientDeleteRoleBinding item) w) as [err w1].
  specialize (IH (S i) w1).
  destruct err as [[| |msg] |]; run_step;
    try destruct (run h (deleteRoleBindingsAfterFirst (S (S i)) items) w1)
      as [[res t] w2];
    out_simpl; intros Htol; apply Forall_cons in Htol as [Hitem Htol];
    try (destruct (Hitem eq_refl); discriminate);
    destruct (IH Htol) as [-> Hreq]; (split; [done | by rewrite Hreq]).
Qed.

(** Role convergence over a list of at least one item, when every delete
    is tolerated: the duplicates are deleted, then the first item is
    updated with the desired rules, and the name that update comes back
    with is the result. *)
Lemma ensureServiceCertKeyPairSecretRole_listed
    (r : reconciler) (cr : aggregatedComponentRoute)
    (first : Role) (rest : list Role) (w w1 : W) :
  h (CacheListRoles (componentRouteResources OpenShiftConfigNamespace cr)) w
    = ((first :: rest, None), w1) →
  Forall delete_tolerated
    (trace_of (run h (ensureServiceCertKeyPairSecretRole
                        OpenShiftConfigNamespace r cr) w)) →
  let o := run h (ensureServiceCertKeyPairSecretRole
                    OpenShiftConfigNamespace r cr) w in
  let update :=
    ClientUpdateRole (Role_setRules first (Role_Rules (desiredRole r cr))) in
  requests (trace_of o) =
    CacheListRoles (componentRouteResources OpenShiftConfigNamespace cr)
      :: map ClientDeleteRole rest ++ [update]
  ∧ ∃ x : response update,
      last (trace_of o) = Some (Event update x) ∧
      result_of o = match x.2 with
                    | Some e => ("", Some (FromAPI e))
                    | None => (Role_GetName x.1, None)
                    end.
Proof.
  intros Hlist. unfold ensureServiceCertKeyPairSecretRole.
  run_step. rewrite Hlist. cbn [deleteRolesAfterFirst].
  rewrite decide_True by done.
  run_split (deleteRolesAfterFirst 1 rest) err t w2.
  pose proof (deleteRolesAfterFirst_tolerated 0 rest w1) as Hloop.
  rewrite Heqp in Hloop. out_simpl.
  destruct err as [e |].
  - run_step. out_simpl. rewrite app_nil_r. intros Htol.
    apply Forall_cons in Htol as [_ Htol]. by destruct (Hloop Htol).
  - run_step.
    destruct (h (ClientUpdateRole (Role_setRules first (Role_Rules (desiredRole r cr)))) w2)
      as [[updated err] w3].
    destruct err as [e |]; run_step; out_simpl; intros Htol;
      apply Forall_cons in Htol as [_ Htol];
      apply Forall_app in Htol as [Htol _];
      destruct (Hloop Htol) as [_ Hreq]; rewrite Hreq.
    + split; [done |]. eexists (updated, Some e). split; [| done].
      by rewrite app_comm_cons, last_snoc.
    + split; [done |]. eexists (updated, None). split; [| done].
      by rewrite app_comm_cons, last_snoc.
Qed.

Lemma ensureServiceCertKeyPairSecretRoleBinding_listed
    (r : reconciler) (cr : aggregatedComponentRoute) (roleName : string)
    (first : RoleBinding) (rest : list RoleBinding) (w w1 : W) :
  h (CacheListRoleBindings (componentRouteResources OpenShiftConfigNamespace cr)) w
    = ((first :: rest, None), w1) →
  Forall delete_tolerated
    (trace_of (run h (ensureServiceCertKeyPairSecretRoleBinding
                        OpenShiftConfigNamespace r cr roleName) w)) →
  let o := run h (ensureServiceCertKeyPairSecretRoleBinding
                    OpenShiftConfigNamespace r cr roleName) w in
  let update :=
    ClientUpdateRoleBinding
      (RoleBinding_setSubjectsRoleRef first
         (subjectsOf (aggregatedComponentRoute_ConsumingUsers cr))
         (roleRefTo roleName)) in
  requests (trace_of o) =
    CacheListRoleBindings (componentRouteResources OpenShiftConfigNamespace cr)
      :: map ClientDeleteRoleBinding rest ++ [update]
  ∧ ∃ x : response update,
      last (trace_of o) = Some (Event update x) ∧
      result_of o = FromAPI <$> x.2.
Proof.
  intros Hlist. unfold ensureServiceCertKeyPairSecretRoleBinding.
  run_step. rewrite Hlist. cbn [deleteRoleBindingsAfterFirst].
  rewrite decide_True by done.
  run_split (deleteRoleBindingsAfterFirst 1 rest) err t w2.
  pose proof (deleteRoleBindingsAfterFirst_tolerated 0 rest w1) as Hloop.
  rewrite Heqp in Hloop. out_simpl.
  destruct err as [e |].
  - run_step. out_simpl. rewrite app_nil_r. intros Htol.
    apply Forall_cons in Htol as [_ Htol]. by destruct (Hloop Htol).
  - run_step. cbn [desiredRoleBinding RoleBinding_Subjects RoleBinding_RoleRef].
    destruct (h (ClientUpdateRoleBinding
                   (RoleBinding_setSubjectsRoleRef first
                      (subjectsOf (aggregatedComponentRoute_ConsumingUsers cr))
                      (roleRefTo roleName))) w2)
      as [[updated err] w3].
    run_step; out_simpl; intros Htol;
      apply Forall_cons in Htol as [_ Htol];
      apply Forall_app in Htol as [Htol _];
      destruct (Hloop Htol) as [_ Hreq]; rewrite Hreq.
    split; [done |]. eexists (updated, err). split; [| done].
    by rewrite app_comm_cons, last_snoc.
Qed.

(** Whatever the collaborator answers, the duplicate loops make delete
    calls only. *)
Lemma deleteRolesAfterFirst_requests
    (P : request → Prop) (i : nat) (items : list Role) (w : W) :
  (∀ obj, P (ClientDeleteRole obj)) →
  Forall P (requests (trace_of (run h (deleteRolesAfterFirst i items) w))).
Proof.
  intros HP. revert i w. induction items as [| item items IH]; intros i w.
  - constructor.
  - cbn [deleteRolesAfterFirst]. case_decide; [apply IH |]. run_step.
    destruct (h (ClientDeleteRole item) w) as [err w1].
    specialize (IH (S i) w1).
    destruct err as [[| |msg] |]; run_step;
      try destruct (run h (deleteRolesAfterFirst (S i) items) w1) as [[res t] w2];
      out_simpl; auto.
Qed.

Lemma deleteRoleBindingsAfterFirst_requests
    (P : request → Prop) (i : nat) (items : list RoleBinding) (w : W) :
  (∀ obj, P (ClientDeleteRoleBinding obj)) →
  Forall P (requests (trace_of (run h (deleteRoleBindingsAfterFirst i items) w))).
Proof.
  intros HP. revert i w. induction items as [| item items IH]; intros i w.
  - constructor.
  - cbn [deleteRoleBindingsAfterFirst]. case_decide; [apply IH |]. run_step.
    destruct (h (ClientDeleteRoleBinding item) w) as [err w1].
    specialize (IH (S i) w1).
    destruct err as [[| |msg] |]; run_step;
      try destruct (run h (deleteRoleBindingsAfterFirst (S i) items) w1)
        as [[res t] w2];
      out_simpl; auto.
Qed.

(** Every call of role convergence is one of [roleStep]. *)
Lemma ensureServiceCertKeyPairSecretRole_steps
    (r : reconciler) (cr : aggregatedComponentRoute) (w : W) :
  Forall (roleStep OpenShiftConfigNamespace r cr)
    (requests (trace_of (run h (ensureServiceCertKeyPairSecretRole
                                  OpenShiftConfigNamespace r cr) w))).
Proof.
  unfold ensureServiceCertKeyPairSecretRole. run_step.
  destruct (h (CacheListRoles (componentRouteResources OpenShiftConfigNamespace cr)) w)
    as [[items err] w1].
  destruct err as [e |]; [run_step; out_simpl; repeat constructor |].
  destruct items as [| first rest].
  - run_step. destruct (h (ClientCreateRole (desiredRole r cr)) w1) as [[role' err] w2].
    destruct err; run_step; out_simpl; repeat constructor.
  - cbn [deleteRolesAfterFirst]. rewrite decide_True by done.
    run_split (deleteRolesAfterFirst 1 rest) err t w2.
    pose proof (deleteRolesAfterFirst_requests
                  (roleStep OpenShiftConfigNamespace r cr) 1 rest w1
                  (roleStep_delete _ _ _)) as Hloop.
    rewrite Heqp in Hloop. out_simpl.
    destruct err as [e |]; run_step.
    + out_simpl. rewrite app_nil_r. constructor; [constructor | done].
    + destruct (h (ClientUpdateRole
                     (Role_setRules first (Role_Rules (desiredRole r cr)))) w2)
        as [[updated err] w3].
      destruct err; run_step; out_simpl;
        (constructor; [constructor |]);
        (apply Forall_app; split; [done | repeat constructor]).
Qed.

(** Every call of role-binding convergence is one of [bindingStep]. *)
Lemma ensureServiceCertKeyPairSecretRoleBinding_steps
    (r : reconciler) (cr : aggregatedComponentRoute) (roleName : string) (w : W) :
  Forall (bindingStep OpenShiftConfigNamespace r cr roleName)
    (requests (trace_of (run h (ensureServiceCertKeyPairSecretRoleBinding
                                  OpenShiftConfigNamespace r cr roleName) w))).
Proof.
  unfold ensureServiceCertKeyPairSecretRoleBinding. run_step.
  destruct (h (CacheListRoleBindings
                 (componentRouteResources OpenShiftConfigNamespace cr)) w)
    as [[items err] w1].
  destruct err as [e |]; [run_step; out_simpl; repeat constructor |].
  destruct items as [| first rest].
  - run_step.
    destruct (h (ClientCreateRoleBinding (desiredRoleBinding r cr roleName)) w1)
      as [[created err] w2].
    run_step; out_simpl; repeat constructor.
  - cbn [deleteRoleBindingsAfterFirst]. rewrite decide_True by done.
    run_split (deleteRoleBindingsAfterFirst 1 rest) err t w2.
    pose proof (deleteRoleBindingsAfterFirst_requests
                  (bindingStep OpenShiftConfigNamespace r cr roleName) 1 rest w1
                  (bindingStep_delete _ _ _ _)) as Hloop.
    rewrite Heqp in Hloop. out_simpl.
    destruct err as [e |]; run_step.
    + out_simpl. rewrite app_nil_r. constructor; [constructor | done].
    + cbn [desiredRoleBinding RoleBinding_Subjects RoleBinding_RoleRef].
      destruct (h (ClientUpdateRoleBinding
                     (RoleBinding_setSubjectsRoleRef first
                        (subjectsOf (aggregatedComponentRoute_ConsumingUsers cr))
                        (roleRefTo roleName))) w2)
        as [[updated err] w3].
      run_step; out_simpl;
        (constructor; [constructor |]);
        (apply Forall_app; split; [done | repeat constructor]).
Qed.

End ConvergenceFacts.

(** C4.  When the list of roles (of role bindings) for a target has more
    than one item and every delete goes through or answers NotFound, the
    controller deletes every item but the first, then updates the first;
    whether the step fails is decided by that update alone. *)
Theorem convergence_keeps_first_deletes_duplicates
    (OpenShiftConfigNamespace : string) (W : Type) (h : handler W)
    (r : reconciler) (cr : aggregatedComponentRoute) (roleName : string)
    (first second : Role) (rest : list Role)
    (firstB secondB : RoleBinding) (restB : list RoleBinding)
    (w w1 w' w1' : W) :
  h (CacheListRoles (componentRouteResources OpenShiftConfigNamespace cr)) w
    = ((first :: second :: rest, None), w1) →
  h (CacheListRoleBindings (componentRouteResources OpenShiftConfigNamespace cr)) w'
    = ((firstB :: secondB :: restB, None), w1') →
  let role := run h (ensureServiceCertKeyPairSecretRole
                       OpenShiftConfigNamespace r cr) w in
  let binding := run h (ensureServiceCertKeyPairSecretRoleBinding
                          OpenShiftConfigNamespace r cr roleName) w' in
  let updateRole :=
    ClientUpdateRole (Role_setRules first (Role_Rules (desiredRole r cr))) in
  let updateBinding :=
    ClientUpdateRoleBinding
      (RoleBinding_setSubjectsRoleRef firstB
         (subjectsOf (aggregatedComponentRoute_ConsumingUsers cr))
         (roleRefTo roleName)) in
  Forall delete_tolerated (trace_of role) →
  Forall delete_tolerated (trace_of binding) →
  (requests (trace_of role) =
     CacheListRoles (componentRouteResources OpenShiftConfigNamespace cr)
       :: map ClientDeleteRole (second :: rest) ++ [updateRole]
   ∧ ∃ x : response updateRole,
       last (trace_of role) = Some (Event updateRole x) ∧
       result_of role = match x.2 with
                        | Some e => ("", Some (FromAPI e))
                        | None => (Role_GetName x.1, None)
                        end)
  ∧ (requests (trace_of binding) =
       CacheListRoleBindings (componentRouteResources OpenShiftConfigNamespace cr)
         :: map ClientDeleteRoleBinding (secondB :: restB) ++ [updateBinding]
     ∧ ∃ x : response updateBinding,
         last (trace_of binding) = Some (Event updateBinding x) ∧
         result_of binding = FromAPI <$> x.2).
Proof.
  intros Hroles Hbindings role binding updateRole updateBinding Htol Htol'.
  split.
  - by apply (ensureServiceCertKeyPairSecretRole_listed _ _ _ _ _ _ _ w1).
  - by apply (ensureServiceCertKeyPairSecretRoleBinding_listed _ _ _ _ _ _ _ _ w1').
Qed.

Lemma convergence_keeps_first_deletes_duplicates_witness :
  let h := cannedClient duplicatesAlreadyGone in
  requests (trace_of (run h (ensureServiceCertKeyPairSecretRole
                               configNamespace theReconciler targetFoo) tt))
  = [ CacheListRoles (componentRouteResources configNamespace targetFoo);
      ClientDeleteRole (storedRole "foo-2" "default/foo" "foo");
      ClientDeleteRole (storedRole "foo-3" "default/foo" "foo");
      ClientUpdateRole (storedRole "foo-1" "default/foo" "foo") ]
  ∧ requests (trace_of (run h (ensureServiceCertKeyPairSecretRoleBinding
                                 configNamespace theReconciler targetFoo "foo-1") tt))
  = [ CacheListRoleBindings (componentRouteResources configNamespace targetFoo);
      ClientDeleteRoleBinding
        (storedRoleBinding "foo-2" "default/foo" "foo-2" ["foo"; "bar"]);
      ClientUpdateRoleBinding
        (storedRoleBinding "foo-1" "default/foo" "foo-1" ["foo"; "bar"]) ].
Proof.
  destruct (convergence_keeps_first_deletes_duplicates
              configNamespace unit (cannedClient duplicatesAlreadyGone)
              theReconciler targetFoo "foo-1"
              (storedRole "foo-1" "default/foo" "foo")
              (storedRole "foo-2" "default/foo" "foo")
              [storedRole "foo-3" "default/foo" "foo"]
              (storedRoleBinding "foo-1" "default/foo" "foo-1" ["foo"; "bar"])
              (storedRoleBinding "foo-2" "default/foo" "foo-2" ["foo"; "bar"])
              [] tt tt tt tt eq_refl eq_refl) as [[Hrole _] [Hbinding _]].
  - apply tolerated_Forall. vm_compute. reflexivity.
  - apply tolerated_Forall. vm_compute. reflexivity.
  - split; [exact Hrole | exact Hbinding].
Defined.

(** ** Garbage collection *)

Lemma orphaned_Some (hashes : gset string) (labels : gmap string string)
    (expectedHash : string) :
  hashLabel labels = Some expectedHash →
  orphaned hashes labels ↔ expectedHash ∉ hashes.
Proof. unfold orphaned. by intros ->. Qed.

Section GarbageCollectionFacts.

Variable OpenShiftConfigNamespace : string.
Context {W : Type} (h : handler W).

(** Whatever the collaborator answers, the loop over the listed roles makes
    delete calls only. *)
Lemma deleteOrphanedRoles_requests
    (P : request → Prop) (hashes : gset string) (items : list Role) (w : W) :
  (∀ obj, P (ClientDeleteRole obj)) →
  Forall P (requests (trace_of (run h (deleteOrphanedRoles hashes items) w))).
Proof.
  intros HP. revert w. induction items as [| item items IH]; intros w.
  - constructor.
  - cbn [deleteOrphanedRoles].
    destruct (Role_GetLabels item !! componentRouteHashLabelKey); [| constructor].
    case_decide; [apply IH |]. run_step.
    destruct (h (ClientDeleteRole item) w) as [err w1].
    specialize (IH w1).
    destruct err as [[| |msg] |]; run_step;
      try destruct (run h (deleteOrphanedRoles hashes items) w1) as [[res t] w2];
      out_simpl; auto.
Qed.

(** With every item labelled and every delete tolerated, the loop deletes
    the orphans, in order, and ends without an error. *)
Lemma deleteOrphanedRoles_tolerated
    (hashes : gset string) (items : list Role) (w : W) :
  Forall (λ item, is_Some (hashLabel (Role_GetLabels item))) items →
  Forall delete_tolerated (trace_of (run h (deleteOrphanedRoles hashes items) w)) →
  result_of (run h (deleteOrphanedRoles hashes items) w) = None ∧
  requests (trace_of (run h (deleteOrphanedRoles hashes items) w))
  = map ClientDeleteRole
        (filter (λ item, orphaned hashes (Role_GetLabels item)) items).
Proof.
  revert w. induction items as [| item items IH]; intros w Hlab; [done |].
  apply Forall_cons in Hlab as [[expectedHash Hitem] Hlab].
  cbn [deleteOrphanedRoles]. pose proof Hitem as Hlabel. unfold hashLabel in Hitem.
  rewrite Hitem.
  destruct (decide (expectedHash ∈ hashes)) as [Hin | Hout].
  - rewrite filter_cons_False by (rewrite (orphaned_Some _ _ _ Hlabel); tauto).
    by apply IH.
  - rewrite filter_cons_True by (by apply (orphaned_Some _ _ _ Hlabel)). run_step.
    destruct (h (ClientDeleteRole item) w) as [err w1].
    specialize (IH w1 Hlab).
    destruct err as [[| |msg] |]; run_step;
      try destruct (run h (deleteOrphanedRoles hashes items) w1) as [[res t] w2];
      out_simpl; intros Htol; apply Forall_cons in Htol as [Hdel Htol];
      try (destruct (Hdel eq_refl); discriminate);
      destruct (IH Htol) as [-> Hreq]; (split; [done | by rewrite Hreq]).
Qed.

(** How the loop can end: without an error only if every item is labelled;
    with the label fault only if some item is not labelled; with another
    error only if a delete was not tolerated. *)
Lemma deleteOrphanedRoles_result
    (hashes : gset string) (items : list Role) (w : W) :
  let o := run h (deleteOrphanedRoles hashes items) w in
  (result_of o = None →
   Forall (λ item, is_Some (hashLabel (Role_GetLabels item))) items)
  ∧ (result_of o = Some MissingHashLabel →
     ∃ item, item ∈ items ∧ hashLabel (Role_GetLabels item) = None)
  ∧ (∀ e, result_of o = Some (FromAPI e) → ¬ Forall delete_tolerated (trace_of o))
  ∧ (∀ e, result_of o = Some e → e = MissingHashLabel ∨ ∃ a, e = FromAPI a).
Proof.
  revert w. induction items as [| item items IH]; intros w.
  { cbn. repeat split; done. }
  cbn [deleteOrphanedRoles].
  destruct (Role_GetLabels item !! componentRouteHashLabelKey)
    as [expectedHash |] eqn:Hitem.
  - assert (Hthere : is_Some (hashLabel (Role_GetLabels item)))
      by (by exists expectedHash).
    case_decide.
    + destruct (IH w) as (HNone & HMissing & HHard & HKind).
      repeat split; [| | done | done].
      * intros Hres. constructor; auto.
      * intros Hres. destruct (HMissing Hres) as (item' & Hin & Hnone).
        exists item'. split; [by right | done].
    + run_step. destruct (h (ClientDeleteRole item) w) as [err w1].
      destruct (IH w1) as (HNone & HMissing & HHard & HKind).
      destruct err as [[| |msg] |]; run_step;
        try destruct (run h (deleteOrphanedRoles hashes items) w1) as [[res t] w2];
        out_simpl.
      * repeat split; [| | | done].
        -- intros Hres. constructor; auto.
        -- intros Hres. destruct (HMissing Hres) as (item' & Hin & Hnone).
           exists item'. split; [by right | done].
        -- intros e Hres Htol. apply Forall_cons in Htol as [_ Htol].
           by apply (HHard e).
      * repeat split; try done.
        -- intros e _ Htol. apply Forall_cons in Htol as [Hdel _].
           destruct (Hdel eq_refl); discriminate.
        -- intros e [= <-]. right. by eexists.
      * repeat split; try done.
        -- intros e _ Htol. apply Forall_cons in Htol as [Hdel _].
           destruct (Hdel eq_refl); discriminate.
        -- intros e [= <-]. right. by eexists.
      * repeat split; [| | | done].
        -- intros Hres. constructor; auto.
        -- intros Hres. destruct (HMissing Hres) as (item' & Hin & Hnone).
           exists item'. split; [by right | done].
        -- intros e Hres Htol. apply Forall_cons in Htol as [_ Htol].
           by apply (HHard e).
  - run_step. out_simpl. repeat split; try done.
    + intros _. exists item. split; [left | done].
    + intros e [= <-]. by left.
Qed.

(** The same three facts for the loop over role bindings. *)
Lemma deleteOrphanedRoleBindings_requests
    (P : request → Prop) (hashes : gset string) (items : list RoleBinding) (w : W) :
  (∀ obj, P (ClientDeleteRoleBinding obj)) →
  Forall P (requests (trace_of (run h (deleteOrphanedRoleBindings hashes items) w))).
Proof.
  intros HP. revert w. induction items as [| item items IH]; intros w.
  - constructor.
  - cbn [deleteOrphanedRoleBindings].
    destruct (RoleBinding_GetLabels item !! componentRouteHashLabelKey); [| constructor].
    case_decide; [apply IH |]. run_step.
    destruct (h (ClientDeleteRoleBinding item) w) as [err w1].
    specialize (IH w1).
    destruct err as [[| |msg] |]; run_step;
      try destruct (run h (deleteOrphanedRoleBindings hashes items) w1) as [[res t] w2];
      out_simpl; auto.
Qed.

Lemma deleteOrphanedRoleBindings_tolerated
    (hashes : gset string) (items : list RoleBinding) (w : W) :
  Forall (λ item, is_Some (hashLabel (RoleBinding_GetLabels item))) items →
  Forall delete_tolerated (trace_of (run h (deleteOrphanedRoleBindings hashes items) w)) →
  result_of (run h (deleteOrphanedRoleBindings hashes items) w) = None ∧
  requests (trace_of (run h (deleteOrphanedRoleBindings hashes items) w))
  = map ClientDeleteRoleBinding
        (filter (λ item, orphaned hashes (RoleBinding_GetLabels item)) items).
Proof.
  revert w. induction items as [| item items IH]; intros w Hlab; [done |].
  apply Forall_cons in Hlab as [[expectedHash Hitem] Hlab].
  cbn [deleteOrphanedRoleBindings]. pose proof Hitem as Hlabel. unfold hashLabel in Hitem.
  rewrite Hitem.
  destruct (decide (expectedHash ∈ hashes)) as [Hin | Hout].
  - rewrite filter_cons_False by (rewrite (orphaned_Some _ _ _ Hlabel); tauto).
    by apply IH.
  - rewrite filter_cons_True by (by apply (orphaned_Some _ _ _ Hlabel)). run_step.
    destruct (h (ClientDeleteRoleBinding item) w) as [err w1].
    specialize (IH w1 Hlab).
    destruct err as [[| |msg] |]; run_step;
      try destruct (run h (deleteOrphanedRoleBindings hashes items) w1) as [[res t] w2];
      out_simpl; intros Htol; apply Forall_cons in Htol as [Hdel Htol];
      try (destruct (Hdel eq_refl); discriminate);
      destruct (IH Htol) as [-> Hreq]; (split; [done | by rewrite Hreq]).
Qed.

Lemma deleteOrphanedRoleBindings_result
    (hashes : gset string) (items : list RoleBinding) (w : W) :
  let o := run h (deleteOrphanedRoleBindings hashes items) w in
  (result_of o = None →
   Forall (λ item, is_Some (hashLabel (RoleBinding_GetLabels item))) items)
  ∧ (result_of o = Some MissingHashLabel →
     ∃ item, item ∈ items ∧ hashLabel (RoleBinding_GetLabels item) = None)
  ∧ (∀ e, result_of o = Some (FromAPI e) → ¬ Forall delete_tolerated (trace_of o))
  ∧ (∀ e, result_of o = Some e → e = MissingHashLabel ∨ ∃ a, e = FromAPI a).
Proof.
  revert w. induction items as [| item items IH]; intros w.
  { cbn. repeat split; done. }
  cbn [deleteOrphanedRoleBindings].
  destruct (RoleBinding_GetLabels item !! componentRouteHashLabelKey)
    as [expectedHash |] eqn:Hitem.
  - assert (Hthere : is_Some (hashLabel (RoleBinding_GetLabels item)))
      by (by exists expectedHash).
    case_decide.
    + destruct (IH w) as (HNone & HMissing & HHard & HKind).
      repeat split; [| | done | done].
      * intros Hres. constructor; auto.
      * intros Hres. destruct (HMissing Hres) as (item' & Hin & Hnone).
        exists item'. split; [by right | done].
    + run_step. destruct (h (ClientDeleteRoleBinding item) w) as [err w1].
      destruct (IH w1) as (HNone & HMissing & HHard & HKind).
      destruct err as [[| |msg] |]; run_step;
        try destruct (run h (deleteOrphanedRoleBindings hashes items) w1) as [[res t] w2];
        out_simpl.
      * repeat split; [| | | done].
        -- intros Hres. constructor; auto.
        -- intros Hres. destruct (HMissing Hres) as (item' & Hin & Hnone).
           exists item'. split; [by right | done].
        -- intros e Hres Htol. apply Forall_cons in Htol as [_ Htol].
           by apply (HHard e).
      * repeat split; try done.
        -- intros e _ Htol. apply Forall_cons in Htol as [Hdel _].
           destruct (Hdel eq_refl); discriminate.
        -- intros e [= <-]. right. by eexists.
      * repeat split; try done.
        -- intros e _ Htol. apply Forall_cons in Htol as [Hdel _].
           destruct (Hdel eq_refl); discriminate.
        -- intros e [= <-]. right. by eexists.
      * repeat split; [| | | done].
        -- intros Hres. constructor; auto.
        -- intros Hres. destruct (HMissing Hres) as (item' & Hin & Hnone).
           exists item'. split; [by right | done].
        -- intros e Hres Htol. apply Forall_cons in Htol as [_ Htol].
           by apply (HHard e).
  - run_step. out_simpl. repeat split; try done.
    + intros _. exists item. split; [left | done].
    + intros e [= <-]. by left.
Qed.

(** The run of the garbage collector, call by call. *)
Lemma run_cleanupOrphanedResources
    (componentRoutes : list aggregatedComponentRoute) (w : W) :
  run h (cleanupOrphanedResources OpenShiftConfigNamespace componentRoutes) w =
    let opts := allComponentRouteResources OpenShiftConfigNamespace in
    let hashes := existingHashes componentRoutes in
    let roleList := h (CacheListRoles opts) w in
    let roles := run h (deleteOrphanedRoles hashes roleList.1.1) roleList.2 in
    match result_of roles with
    | Some e =>
        (Some e, Event (CacheListRoles opts) roleList.1 :: trace_of roles,
         world_of roles)
    | None =>
        let roleBindingList := h (CacheListRoleBindings opts) (world_of roles) in
        let bindings :=
          run h (deleteOrphanedRoleBindings hashes roleBindingList.1.1)
              roleBindingList.2 in
        (result_of bindings,
         Event (CacheListRoles opts) roleList.1
           :: trace_of roles
           ++ Event (CacheListRoleBindings opts) roleBindingList.1
           :: trace_of bindings,
         world_of bindings)
    end.
Proof.
  unfold cleanupOrphanedResources. run_step.
  destruct (h (CacheListRoles (allComponentRouteResources OpenShiftConfigNamespace)) w)
    as [[roleList e1] w1].
  run_split (deleteOrphanedRoles (existingHashes componentRoutes) roleList) err t w2.
  cbn [fst snd result_of trace_of world_of]. rewrite Heqp.
  cbn [fst snd result_of trace_of world_of].
  destruct err as [e |]; run_step.
  - by rewrite app_nil_r.
  - destruct (h (CacheListRoleBindings
                   (allComponentRouteResources OpenShiftConfigNamespace)) w2)
      as [[roleBindingList e2] w3].
    cbn [fst snd].
    destruct (run h (deleteOrphanedRoleBindings (existingHashes componentRoutes)
                       roleBindingList) w3) as [[res t'] w4].
    done.
Qed.

(** A trace without the list calls of the garbage collector lists nothing
    for it. *)
Lemma gcListed_nil (t : list event) :
  Forall (notGcList OpenShiftConfigNamespace) (requests t) →
  gcListedRoles OpenShiftConfigNamespace t = [] ∧
  gcListedRoleBindings OpenShiftConfigNamespace t = [].
Proof.
  unfold gcListedRoles, gcListedRoleBindings.
  induction t as [| [q x] t IH]; [done |].
  change (requests (existT q x :: t)) with (q :: requests t).
  intros [[Hroles Hbindings] Ht]%Forall_cons.
  destruct (IH Ht) as [IHr IHb]. rewrite !bind_cons, IHr, IHb, !app_nil_r.
  destruct q; cbn; try done.
  - split; [| done]. case_decide; [| done]. by subst.
  - split; [done |]. case_decide; [| done]. by subst.
Qed.

Lemma deletes_notGcList (t : list event) :
  Forall (λ q, is_delete q = true) (requests t) →
  Forall (notGcList OpenShiftConfigNamespace) (requests t).
Proof.
  intros Ht. eapply Forall_impl; [exact Ht |].
  intros q Hq. split; intros ->; discriminate.
Qed.

(** The set built by the first loop of the garbage collector holds the
    hashes of the targets. *)
Lemma elem_of_existingHashes
    (componentRoutes : list aggregatedComponentRoute) (expectedHash : string) :
  expectedHash ∈ existingHashes componentRoutes ↔
  ∃ cr, cr ∈ componentRoutes ∧ aggregatedComponentRoute_Hash cr = expectedHash.
Proof.
  unfold existingHashes.
  induction componentRoutes as [| cr crs IH] using rev_ind.
  - cbn. split; [set_solver |]. intros (cr & Hin & _). by apply elem_of_nil in Hin.
  - rewrite foldl_app. cbn. rewrite elem_of_union, elem_of_singleton, IH. split.
    + intros [-> | (cr' & Hin & Hcr')].
      * exists cr. split; [| done]. apply elem_of_app. right. left.
      * exists cr'. split; [| done]. apply elem_of_app. by left.
    + intros (cr' & [Hin | Hin%list_elem_of_singleton]%elem_of_app & Hcr').
      * right. by exists cr'.
      * left. by subst.
Qed.

Lemma gcListedRoles_app (t1 t2 : list event) :
  gcListedRoles OpenShiftConfigNamespace (t1 ++ t2) =
    gcListedRoles OpenShiftConfigNamespace t1
      ++ gcListedRoles OpenShiftConfigNamespace t2.
Proof. apply bind_app. Qed.

Lemma gcListedRoleBindings_app (t1 t2 : list event) :
  gcListedRoleBindings OpenShiftConfigNamespace (t1 ++ t2) =
    gcListedRoleBindings OpenShiftConfigNamespace t1
      ++ gcListedRoleBindings OpenShiftConfigNamespace t2.
Proof. apply bind_app. Qed.

Lemma gcListed_roles_event
    (x : response (CacheListRoles (allComponentRouteResources OpenShiftConfigNamespace)))
    (t : list event) :
  gcListedRoles OpenShiftConfigNamespace
    (Event (CacheListRoles (allComponentRouteResources OpenShiftConfigNamespace)) x :: t)
  = x.1 ++ gcListedRoles OpenShiftConfigNamespace t
  ∧ gcListedRoleBindings OpenShiftConfigNamespace
      (Event (CacheListRoles (allComponentRouteResources OpenShiftConfigNamespace)) x :: t)
    = gcListedRoleBindings OpenShiftConfigNamespace t.
Proof.
  unfold gcListedRoles, gcListedRoleBindings. rewrite !bind_cons. cbn.
  by rewrite decide_True.
Qed.

Lemma gcListed_roleBindings_event
    (x : response (CacheListRoleBindings
                     (allComponentRouteResources OpenShiftConfigNamespace)))
    (t : list event) :
  gcListedRoles OpenShiftConfigNamespace
    (Event (CacheListRoleBindings
              (allComponentRouteResources OpenShiftConfigNamespace)) x :: t)
  = gcListedRoles OpenShiftConfigNamespace t
  ∧ gcListedRoleBindings OpenShiftConfigNamespace
      (Event (CacheListRoleBindings
                (allComponentRouteResources OpenShiftConfigNamespace)) x :: t)
    = x.1 ++ gcListedRoleBindings OpenShiftConfigNamespace t.
Proof.
  unfold gcListedRoles, gcListedRoleBindings. rewrite !bind_cons. cbn.
  by rewrite decide_True.
Qed.

(** What the garbage collector was handed by its two list calls: the
    answer to the first, and the answer to the second if the loop over the
    roles got that far. *)
Lemma gcListed_cleanupOrphanedResources
    (componentRoutes : list aggregatedComponentRoute) (w : W) :
  let opts := allComponentRouteResources OpenShiftConfigNamespace in
  let o := run h (cleanupOrphanedResources OpenShiftConfigNamespace componentRoutes) w in
  let roleList := h (CacheListRoles opts) w in
  let roles := run h (deleteOrphanedRoles (existingHashes componentRoutes)
                        roleList.1.1) roleList.2 in
  gcListedRoles OpenShiftConfigNamespace (trace_of o) = roleList.1.1 ∧
  gcListedRoleBindings OpenShiftConfigNamespace (trace_of o) =
    match result_of roles with
    | Some _ => []
    | None => (h (CacheListRoleBindings opts) (world_of roles)).1.1
    end.
Proof.
  cbv zeta. rewrite run_cleanupOrphanedResources. cbv zeta.
  destruct (h (CacheListRoles (allComponentRouteResources OpenShiftConfigNamespace)) w)
    as [roleList w1].
  cbn [fst snd].
  pose proof (deleteOrphanedRoles_requests (λ q, is_delete q = true)
                (existingHashes componentRoutes) roleList.1 w1 (λ _, eq_refl))
    as Hroles.
  apply deletes_notGcList, gcListed_nil in Hroles as [Hr Hb].
  destruct (run h (deleteOrphanedRoles (existingHashes componentRoutes) roleList.1) w1)
    as [[res t] w2].
  cbn [result_of trace_of world_of fst snd] in *.
  destruct res as [e |]; cbn [trace_of fst snd].
  - destruct (gcListed_roles_event roleList t) as [-> ->].
    by rewrite Hr, Hb, app_nil_r.
  - destruct (h (CacheListRoleBindings
                   (allComponentRouteResources OpenShiftConfigNamespace)) w2)
      as [roleBindingList w3].
    cbn [fst snd].
    pose proof (deleteOrphanedRoleBindings_requests (λ q, is_delete q = true)
                  (existingHashes componentRoutes) roleBindingList.1 w3
                  (λ _, eq_refl)) as Hbindings.
    apply deletes_notGcList, gcListed_nil in Hbindings as [Hr' Hb'].
    destruct (run h (deleteOrphanedRoleBindings (existingHashes componentRoutes)
                       roleBindingList.1) w3) as [[res' t'] w4].
    cbn [result_of trace_of world_of fst snd] in *.
    destruct (gcListed_roles_event roleList
                (t ++ Event (CacheListRoleBindings
                               (allComponentRouteResources OpenShiftConfigNamespace))
                        roleBindingList :: t')) as [-> ->].
    rewrite gcListedRoles_app, gcListedRoleBindings_app, Hr, Hb.
    destruct (gcListed_roleBindings_event roleBindingList t') as [-> ->].
    by rewrite Hr', Hb', !app_nil_r.
Qed.

(** The label fault of the garbage collector: an unlabelled object among
    the listed ones makes it fail, with the label fault unless a delete
    failed first; and it reports the label fault for no other reason. *)
Lemma cleanupOrphanedResources_label_fault
    (componentRoutes : list aggregatedComponentRoute) (w : W) :
  let o := run h (cleanupOrphanedResources OpenShiftConfigNamespace componentRoutes) w in
  (gcUnlabelled OpenShiftConfigNamespace (trace_of o) → result_of o ≠ None)
  ∧ (gcUnlabelled OpenShiftConfigNamespace (trace_of o) →
     Forall delete_tolerated (trace_of o) →
     result_of o = Some MissingHashLabel)
  ∧ (result_of o = Some MissingHashLabel →
     gcUnlabelled OpenShiftConfigNamespace (trace_of o)).
Proof.
  cbv zeta. unfold gcUnlabelled.
  destruct (gcListed_cleanupOrphanedResources componentRoutes w) as [-> ->].
  rewrite run_cleanupOrphanedResources. cbv zeta.
  destruct (h (CacheListRoles (allComponentRouteResources OpenShiftConfigNamespace)) w)
    as [roleList w1].
  cbn [fst snd].
  destruct (deleteOrphanedRoles_result (existingHashes componentRoutes) roleList.1 w1)
    as (HNone & HMissing & HHard & HKind).
  destruct (run h (deleteOrphanedRoles (existingHashes componentRoutes) roleList.1) w1)
    as [[res t] w2].
  cbn [result_of trace_of world_of fst snd] in *.
  destruct res as [e |]; cbn [result_of trace_of world_of fst snd].
  - repeat apply conj.
    + done.
    + intros _ [_ Htol]%Forall_cons.
      destruct (HKind e eq_refl) as [-> | [a ->]]; [done |].
      by destruct (HHard a eq_refl).
    + intros [= ->]. left. by apply HMissing.
  - specialize (HNone eq_refl). rewrite Forall_forall in HNone.
    destruct (h (CacheListRoleBindings
                   (allComponentRouteResources OpenShiftConfigNamespace)) w2)
      as [roleBindingList w3].
    cbn [fst snd].
    destruct (deleteOrphanedRoleBindings_result
                (existingHashes componentRoutes) roleBindingList.1 w3)
      as (HNone' & HMissing' & HHard' & HKind').
    destruct (run h (deleteOrphanedRoleBindings (existingHashes componentRoutes)
                       roleBindingList.1) w3) as [[res' t'] w4].
    cbn [result_of trace_of world_of fst snd] in *.
    assert (Hfault : (∃ item, item ∈ roleList.1 ∧
                              hashLabel (Role_GetLabels item) = None) ∨
                     (∃ item, item ∈ roleBindingList.1 ∧
                              hashLabel (RoleBinding_GetLabels item) = None) →
                     res' ≠ None).
    { intros [(item & Hin & Hnone) | (item & Hin & Hnone)] ->.
      - destruct (HNone item Hin) as [? Hsome]. congruence.
      - specialize (HNone' eq_refl). rewrite Forall_forall in HNone'.
        destruct (HNone' item Hin) as [? Hsome]. congruence. }
    repeat apply conj.
    + done.
    + intros Hun [_ [_ [_ Htol]%Forall_cons]%Forall_app]%Forall_cons.
      destruct res' as [e |]; [| by destruct (Hfault Hun)].
      destruct (HKind' e eq_refl) as [-> | [a ->]]; [done |].
      by destruct (HHard' a eq_refl).
    + intros Hres. right. by apply HMissing'.
Qed.

End GarbageCollectionFacts.

(** When the objects handed back by the two list calls carry the hash
    label and every delete goes through or answers NotFound, the garbage
    collector makes these calls and no other: it lists the roles, deletes
    those whose hash is not the hash of a target, lists the role bindings,
    and deletes those whose hash is not the hash of a target.  An object
    whose hash is the hash of a target is in no call. *)
Lemma cleanupOrphanedResources_calls
    (OpenShiftConfigNamespace : string) (W : Type) (h : handler W)
    (componentRoutes : list aggregatedComponentRoute) (w : W) :
  let o := run h (cleanupOrphanedResources OpenShiftConfigNamespace componentRoutes) w in
  let roles := gcListedRoles OpenShiftConfigNamespace (trace_of o) in
  let bindings := gcListedRoleBindings OpenShiftConfigNamespace (trace_of o) in
  let hashes := existingHashes componentRoutes in
  Forall delete_tolerated (trace_of o) →
  Forall (λ item, is_Some (hashLabel (Role_GetLabels item))) roles →
  Forall (λ item, is_Some (hashLabel (RoleBinding_GetLabels item))) bindings →
  result_of o = None
  ∧ requests (trace_of o) =
      CacheListRoles (allComponentRouteResources OpenShiftConfigNamespace)
        :: map ClientDeleteRole
             (filter (λ item, orphaned hashes (Role_GetLabels item)) roles)
        ++ CacheListRoleBindings (allComponentRouteResources OpenShiftConfigNamespace)
        :: map ClientDeleteRoleBinding
             (filter (λ item, orphaned hashes (RoleBinding_GetLabels item)) bindings)
  ∧ ∀ expectedHash,
      expectedHash ∈ hashes ↔
      ∃ cr, cr ∈ componentRoutes ∧ aggregatedComponentRoute_Hash cr = expectedHash.
Proof.
  cbv zeta.
  destruct (gcListed_cleanupOrphanedResources
              OpenShiftConfigNamespace h componentRoutes w) as [-> ->].
  rewrite run_cleanupOrphanedResources. cbv zeta.
  destruct (h (CacheListRoles (allComponentRouteResources OpenShiftConfigNamespace)) w)
    as [roleList w1].
  cbn [fst snd].
  pose proof (deleteOrphanedRoles_tolerated h
                (existingHashes componentRoutes) roleList.1 w1) as Hroles.
  destruct (run h (deleteOrphanedRoles (existingHashes componentRoutes) roleList.1) w1)
    as [[res t] w2].
  cbn [result_of trace_of world_of fst snd] in *.
  destruct res as [e |]; cbn [result_of trace_of world_of fst snd].
  - intros Htol Hlab _. apply Forall_cons in Htol as [_ Htol].
    by destruct (Hroles Hlab Htol).
  - destruct (h (CacheListRoleBindings
                   (allComponentRouteResources OpenShiftConfigNamespace)) w2)
      as [roleBindingList w3].
    cbn [fst snd].
    pose proof (deleteOrphanedRoleBindings_tolerated h
                  (existingHashes componentRoutes) roleBindingList.1 w3) as Hbindings.
    destruct (run h (deleteOrphanedRoleBindings (existingHashes componentRoutes)
                       roleBindingList.1) w3) as [[res' t'] w4].
    cbn [result_of trace_of world_of fst snd] in *.
    intros Htol Hlab Hlab'.
    apply Forall_cons in Htol as [_ Htol].
    apply Forall_app in Htol as [Htol Htol'].
    apply Forall_cons in Htol' as [_ Htol'].
    destruct (Hroles Hlab Htol) as [_ Hreq].
    destruct (Hbindings Hlab' Htol') as [-> Hreq'].
    split; [done |]. split; [| apply elem_of_existingHashes].
    autorewrite with trace. by rewrite Hreq, Hreq'.
Qed.

(** ** Garbage collection on the in-memory cluster *)

Section StoreFacts.

Context {A : Type} (meta : A → ObjectMeta).

Lemma sameKey_objectKey (a b : ObjectMeta) :
  sameKey a b = true ↔ objectKey a = objectKey b.
Proof.
  unfold sameKey, objectKey. rewrite andb_true_iff, !bool_decide_eq_true.
  split; [by intros [-> ->] | by intros [= -> ->]].
Qed.

Lemma remove_not_stored (obj : A) (objs : list A) :
  stored meta obj objs = false → remove meta obj objs = objs.
Proof.
  unfold stored, remove. induction objs as [| o objs IH]; [done |].
  cbn [existsb List.filter]. intros [Ho Hobjs]%orb_false_iff.
  rewrite Ho. cbn [negb]. by rewrite IH.
Qed.

Lemma List_filter_filter (f g : A → bool) (l : list A) :
  List.filter g (List.filter f l) = List.filter (λ x, f x && g x) l.
Proof.
  induction l as [| x l IH]; [done |]. cbn [List.filter].
  destruct (f x); cbn [List.filter andb]; [destruct (g x) |]; by rewrite IH.
Qed.

Lemma foldl_remove (D R : list A) :
  foldl (λ rs item, remove meta item rs) R D =
    List.filter (λ o, forallb (λ item, negb (sameKey (meta o) (meta item))) D) R.
Proof.
  revert R. induction D as [| d D IH]; intros R.
  - cbn [foldl forallb]. induction R as [| o R IHR]; [done |].
    cbn [List.filter]. by rewrite <- IHR.
  - cbn [foldl forallb]. rewrite IH. unfold remove. apply List_filter_filter.
Qed.

Lemma List_filter_decide (f : A → bool) (P : A → Prop) `{∀ x, Decision (P x)}
    (l : list A) :
  (∀ x, x ∈ l → f x = true ↔ P x) → List.filter f l = filter P l.
Proof.
  induction l as [| x l IH]; intros Hf; [done |].
  cbn [List.filter]. rewrite filter_cons.
  rewrite IH by (intros y Hy; apply Hf; by right).
  specialize (Hf x (list_elem_of_here x l)).
  destruct (f x) eqn:Hfx; case_decide as HP; try done.
  - exfalso. by apply HP, Hf.
  - apply Hf in HP. discriminate HP.
Qed.

Lemma NoDup_key (l : list A) (x y : A) :
  NoDup (map (λ o, objectKey (meta o)) l) → x ∈ l → y ∈ l →
  objectKey (meta x) = objectKey (meta y) → x = y.
Proof.
  induction l as [| z l IH]; [by intros _ ?%elem_of_nil |].
  rewrite fmap_cons, NoDup_cons. intros [Hz Hl] Hx Hy Hk.
  apply elem_of_cons in Hx as [-> | Hx]; apply elem_of_cons in Hy as [-> | Hy].
  - done.
  - exfalso. apply Hz. rewrite Hk.
    by apply (list_elem_of_fmap_2 (λ o, objectKey (meta o))).
  - exfalso. apply Hz. rewrite <- Hk.
    by apply (list_elem_of_fmap_2 (λ o, objectKey (meta o))).
  - by apply IH.
Qed.

(** Removing, key by key, the stored objects that satisfy [P] leaves the
    stored objects that do not. *)
Lemma foldl_remove_filter (P : A → Prop) `{∀ x, Decision (P x)} (R D : list A) :
  NoDup (map (λ o, objectKey (meta o)) R) →
  (∀ o, o ∈ D ↔ o ∈ R ∧ P o) →
  foldl (λ rs item, remove meta item rs) R D = filter (λ o, ¬ P o) R.
Proof.
  intros Hnodup HD. rewrite foldl_remove. apply List_filter_decide.
  intros o Ho. rewrite forallb_forall. split.
  - intros Hall HP.
    assert (HoD : o ∈ D) by (by apply HD).
    specialize (Hall o (proj1 (list_elem_of_In _ _) HoD)).
    apply negb_true_iff in Hall.
    assert (sameKey (meta o) (meta o) = true) by (by apply sameKey_objectKey).
    congruence.
  - intros HnP item Hitem%list_elem_of_In. apply negb_true_iff.
    destruct (sameKey (meta o) (meta item)) eqn:Hk; [| done].
    apply sameKey_objectKey in Hk. apply HD in Hitem as [Hitem HPitem].
    by rewrite (NoDup_key R o item Hnodup Ho Hitem Hk) in HnP.
Qed.

End StoreFacts.

Lemma orphaned_hashLabel (hashes : gset string) (labels : gmap string string) :
  orphaned hashes labels ↔
  ∃ expectedHash,
    labels !! componentRouteHashLabelKey = Some expectedHash ∧ expectedHash ∉ hashes.
Proof.
  unfold orphaned, hashLabel.
  destruct (labels !! componentRouteHashLabelKey) as [k |]; split.
  - intros Hk. by exists k.
  - by intros (k' & [= <-] & Hk).
  - done.
  - by intros (k' & [=] & _).
Qed.

(** What the list options of the garbage collector select. *)
Lemma matchesOptions_all (namespace : string) (meta : ObjectMeta) :
  matchesOptions (allComponentRouteResources namespace) meta = true ↔
  is_Some (ObjectMeta_Labels meta !! componentRouteHashLabelKey) ∧
  ObjectMeta_Namespace meta = namespace.
Proof.
  unfold matchesOptions, allComponentRouteResources.
  cbn [forallb matchesOption].
  rewrite !andb_true_r, andb_true_iff, !bool_decide_eq_true. done.
Qed.

Lemma collectable_listed (namespace : string) (hashes : gset string)
    (meta : ObjectMeta) :
  collectable namespace hashes meta ↔
  matchesOptions (allComponentRouteResources namespace) meta = true ∧
  orphaned hashes (ObjectMeta_Labels meta).
Proof.
  rewrite matchesOptions_all, orphaned_hashLabel. unfold collectable. split.
  - intros [Hns (k & Hk & Hnot)]. eauto 10.
  - intros [[_ Hns] Hk]. done.
Qed.

Lemma fake_deleteOrphanedRoles
    (hashes : gset string) (items : list Role) (w : cluster) :
  Forall (λ item, is_Some (hashLabel (Role_GetLabels item))) items →
  let o := run fakeClient (deleteOrphanedRoles hashes items) w in
  result_of o = None
  ∧ requests (trace_of o)
    = map ClientDeleteRole (filter (λ item, orphaned hashes (Role_GetLabels item)) items)
  ∧ cluster_roles (world_of o)
    = foldl (λ rs item, remove Role_ObjectMeta item rs) (cluster_roles w)
        (filter (λ item, orphaned hashes (Role_GetLabels item)) items)
  ∧ cluster_roleBindings (world_of o) = cluster_roleBindings w
  ∧ cluster_ingresses (world_of o) = cluster_ingresses w.
Proof.
  cbv zeta. revert w. induction items as [| item items IH]; intros w Hlab; [done |].
  apply Forall_cons in Hlab as [[expectedHash Hitem] Hitems].
  cbn [deleteOrphanedRoles]. unfold hashLabel in Hitem. rewrite Hitem.
  case_decide as Hactive.
  { rewrite filter_cons_False by (rewrite (orphaned_Some _ _ expectedHash); auto).
    by apply IH. }
  rewrite filter_cons_True by (by apply (orphaned_Some _ _ expectedHash)).
  run_step. cbn [fakeClient].
  destruct (stored Role_ObjectMeta item (cluster_roles w)) eqn:Hstored; run_step.
  - specialize (IH (withRoles w (remove Role_ObjectMeta item (cluster_roles w))
                      (cluster_generated w)) Hitems).
    destruct (run fakeClient (deleteOrphanedRoles hashes items) _) as [[res t] w2].
    out_simpl. destruct IH as (-> & -> & -> & -> & ->). done.
  - specialize (IH w Hitems).
    destruct (run fakeClient (deleteOrphanedRoles hashes items) w) as [[res t] w2].
    out_simpl. destruct IH as (-> & -> & -> & -> & ->).
    cbn [foldl]. by rewrite remove_not_stored.
Qed.

Lemma fake_deleteOrphanedRoleBindings
    (hashes : gset string) (items : list RoleBinding) (w : cluster) :
  Forall (λ item, is_Some (hashLabel (RoleBinding_GetLabels item))) items →
  let o := run fakeClient (deleteOrphanedRoleBindings hashes items) w in
  result_of o = None
  ∧ requests (trace_of o)
    = map ClientDeleteRoleBinding
        (filter (λ item, orphaned hashes (RoleBinding_GetLabels item)) items)
  ∧ cluster_roleBindings (world_of o)
    = foldl (λ rs item, remove RoleBinding_ObjectMeta item rs)
        (cluster_roleBindings w)
        (filter (λ item, orphaned hashes (RoleBinding_GetLabels item)) items)
  ∧ cluster_roles (world_of o) = cluster_roles w
  ∧ cluster_ingresses (world_of o) = cluster_ingresses w.
Proof.
  cbv zeta. revert w. induction items as [| item items IH]; intros w Hlab; [done |].
  apply Forall_cons in Hlab as [[expectedHash Hitem] Hitems].
  cbn [deleteOrphanedRoleBindings]. unfold hashLabel in Hitem. rewrite Hitem.
  case_decide as Hactive.
  { rewrite filter_cons_False by (rewrite (orphaned_Some _ _ expectedHash); auto).
    by apply IH. }
  rewrite filter_cons_True by (by apply (orphaned_Some _ _ expectedHash)).
  run_step. cbn [fakeClient].
  destruct (stored RoleBinding_ObjectMeta item (cluster_roleBindings w))
    eqn:Hstored; run_step.
  - specialize (IH (withRoleBindings w
                      (remove RoleBinding_ObjectMeta item (cluster_roleBindings w))
                      (cluster_generated w)) Hitems).
    destruct (run fakeClient (deleteOrphanedRoleBindings hashes items) _)
      as [[res t] w2].
    out_simpl. destruct IH as (-> & -> & -> & -> & ->). done.
  - specialize (IH w Hitems).
    destruct (run fakeClient (deleteOrphanedRoleBindings hashes items) w)
      as [[res t] w2].
    out_simpl. destruct IH as (-> & -> & -> & -> & ->).
    cbn [foldl]. by rewrite remove_not_stored.
Qed.

(** The objects that the list call of the garbage collector selects and
    that are orphaned are the collectable ones of the store. *)
Lemma listed_orphans {A} (meta : A → ObjectMeta) (namespace : string)
    (hashes : gset string) (objs : list A) (o : A) :
  o ∈ filter (λ item, orphaned hashes (ObjectMeta_Labels (meta item)))
        (List.filter (λ item, matchesOptions (allComponentRouteResources namespace)
                                (meta item)) objs)
  ↔ o ∈ objs ∧ collectable namespace hashes (meta o).
Proof.
  rewrite list_elem_of_filter, list_elem_of_In, filter_In, <- list_elem_of_In.
  rewrite collectable_listed. tauto.
Qed.

Lemma listed_labelled {A} (meta : A → ObjectMeta) (namespace : string)
    (objs : list A) :
  Forall (λ item, is_Some (hashLabel (ObjectMeta_Labels (meta item))))
    (List.filter (λ item, matchesOptions (allComponentRouteResources namespace)
                            (meta item)) objs).
Proof.
  apply Forall_forall. intros item [_ Hm]%list_elem_of_In%filter_In.
  by apply matchesOptions_all in Hm as [? _].
Qed.

Lemma listed_collectable {A} (meta : A → ObjectMeta) (namespace : string)
    (hashes : gset string) (objs : list A) :
  filter (λ item, orphaned hashes (ObjectMeta_Labels (meta item)))
    (List.filter (λ item, matchesOptions (allComponentRouteResources namespace)
                            (meta item)) objs)
  = filter (λ item, collectable namespace hashes (meta item)) objs.
Proof.
  induction objs as [| o objs IH]; [done |].
  cbn [List.filter]. rewrite (filter_cons _ o objs).
  destruct (matchesOptions _ (meta o)) eqn:Hm.
  - rewrite filter_cons, IH.
    case_decide as Ho; case_decide as Hc; try done; exfalso.
    + apply Hc, collectable_listed. done.
    + apply collectable_listed in Hc as [_ ?]. done.
  - rewrite IH. case_decide as Hc; [| done].
    apply collectable_listed in Hc as [Hm' _]. congruence.
Qed.

(** C3.  On a cluster that stores its objects under distinct keys and
    answers the list and delete calls, the garbage collector deletes the
    roles and the role bindings that are in the managed namespace, carry
    the marker label and hold under it a hash that is the hash of no
    target; it deletes these and no others.  Every other object (one whose
    hash is the hash of a target, one of another namespace, one without
    the label) stays in the cluster as it is, and so does the ingress
    configuration.  The calls are the two lists and one delete for each
    such object. *)
Theorem cleanupOrphanedResources_deletes_orphans
    (OpenShiftConfigNamespace : string)
    (componentRoutes : list aggregatedComponentRoute) (w : cluster) :
  uniqueKeys w →
  let o := run fakeClient
             (cleanupOrphanedResources OpenShiftConfigNamespace componentRoutes) w in
  let hashes := existingHashes componentRoutes in
  let orphanRole (item : Role) :=
    collectable OpenShiftConfigNamespace hashes (Role_ObjectMeta item) in
  let orphanBinding (item : RoleBinding) :=
    collectable OpenShiftConfigNamespace hashes (RoleBinding_ObjectMeta item) in
  result_of o = None
  ∧ cluster_roles (world_of o) = filter (λ item, ¬ orphanRole item) (cluster_roles w)
  ∧ cluster_roleBindings (world_of o)
    = filter (λ item, ¬ orphanBinding item) (cluster_roleBindings w)
  ∧ cluster_ingresses (world_of o) = cluster_ingresses w
  ∧ requests (trace_of o) =
      CacheListRoles (allComponentRouteResources OpenShiftConfigNamespace)
        :: map ClientDeleteRole (filter orphanRole (cluster_roles w))
        ++ CacheListRoleBindings (allComponentRouteResources OpenShiftConfigNamespace)
        :: map ClientDeleteRoleBinding (filter orphanBinding (cluster_roleBindings w))
  ∧ ∀ expectedHash,
      expectedHash ∈ hashes ↔
      ∃ cr, cr ∈ componentRoutes ∧ aggregatedComponentRoute_Hash cr = expectedHash.
Proof.
  intros [Hroles Hbindings]. cbv zeta.
  rewrite run_cleanupOrphanedResources. cbv zeta.
  cbn [fakeClient fst snd].
  set (hashes := existingHashes componentRoutes).
  set (roleList := List.filter _ (cluster_roles w)).
  pose proof (fake_deleteOrphanedRoles hashes roleList w
                (listed_labelled Role_ObjectMeta _ _)) as Hloop.
  destruct (run fakeClient (deleteOrphanedRoles hashes roleList) w)
    as [[res t] w2].
  cbn [result_of trace_of world_of fst snd] in Hloop.
  destruct Hloop as (-> & Ht & Hr2 & Hb2 & Hi2).
  cbn [result_of trace_of world_of fst snd].
  set (bindingList := List.filter _ (cluster_roleBindings w2)).
  pose proof (fake_deleteOrphanedRoleBindings hashes bindingList w2
                (listed_labelled RoleBinding_ObjectMeta _ _)) as Hloop.
  destruct (run fakeClient (deleteOrphanedRoleBindings hashes bindingList) w2)
    as [[res' t'] w3].
  cbn [result_of trace_of world_of fst snd] in *.
  destruct Hloop as (-> & Ht' & Hb3 & Hr3 & Hi3).
  split; [done |]. split; [| split; [| split; [| split]]].
  - rewrite Hr3, Hr2. apply (foldl_remove_filter Role_ObjectMeta); [done |].
    intros o. apply (listed_orphans Role_ObjectMeta).
  - rewrite Hb3. subst bindingList. rewrite Hb2.
    apply (foldl_remove_filter RoleBinding_ObjectMeta); [done |].
    intros o. apply (listed_orphans RoleBinding_ObjectMeta).
  - congruence.
  - autorewrite with trace. rewrite Ht, Ht'. subst roleList bindingList.
    rewrite Hb2.
    by rewrite (listed_collectable Role_ObjectMeta),
               (listed_collectable RoleBinding_ObjectMeta).
  - apply elem_of_existingHashes.
Qed.

(** The entry ["bar"] is no longer a target: its role and its role binding
    are deleted, those of ["foo"] stay. *)
Lemma cleanupOrphanedResources_deletes_orphans_witness :
  let o := run fakeClient (cleanupOrphanedResources configNamespace [targetFoo])
             clusterFooAndBar in
  cluster_roles (world_of o) = [storedRole "foo-0" "default/foo" "foo"]
  ∧ cluster_roleBindings (world_of o)
    = [storedRoleBinding "foo-0" "default/foo" "foo-0" ["foo"; "bar"]]
  ∧ requests (trace_of o)
    = [ CacheListRoles (allComponentRouteResources configNamespace);
        ClientDeleteRole (storedRole "bar-2" "default/bar" "bar");
        CacheListRoleBindings (allComponentRouteResources configNamespace);
        ClientDeleteRoleBinding
          (storedRoleBinding "bar-2" "default/bar" "bar-2" ["bar"]) ].
Proof.
  destruct (cleanupOrphanedResources_deletes_orphans
              configNamespace [targetFoo] clusterFooAndBar)
    as (_ & Hroles & Hbindings & _ & Hrequests & _).
  - split; apply (bool_decide_unpack _); vm_compute; reflexivity.
  - cbv zeta. rewrite Hroles, Hbindings, Hrequests.
    vm_compute. repeat split; reflexivity.
Defined.

(** ** The reconcile driver *)

Lemma roleStep_notGcList namespace r cr q :
  roleStep namespace r cr q → notGcList namespace q.
Proof. intros []; split; discriminate. Qed.

Lemma bindingStep_notGcList namespace r cr roleName q :
  bindingStep namespace r cr roleName q → notGcList namespace q.
Proof. intros []; split; discriminate. Qed.

Section DriverFacts.

Variable Hash : string → string.
Variable OpenShiftConfigNamespace : string.
Context {W : Type} (h : handler W).

(** One turn of the loop of [Reconcile]: role convergence, then role-binding
    convergence under the role name that role convergence returned, then
    the rest of the targets. *)
Lemma run_ensureComponentRoutes_cons
    (r : reconciler) (cr : aggregatedComponentRoute)
    (rest : list aggregatedComponentRoute) (w : W) :
  run h (ensureComponentRoutes OpenShiftConfigNamespace r (cr :: rest)) w =
    let role := run h (ensureServiceCertKeyPairSecretRole
                         OpenShiftConfigNamespace r cr) w in
    match (result_of role).2 with
    | Some e =>
        (Some ({| Result_Requeue := true |}, Some (FailedToCreateRole e)),
         trace_of role, world_of role)
    | None =>
        let binding := run h (ensureServiceCertKeyPairSecretRoleBinding
                                OpenShiftConfigNamespace r cr (result_of role).1)
                           (world_of role) in
        match result_of binding with
        | Some e =>
            (Some ({| Result_Requeue := true |}, Some (FailedToCreateRoleBinding e)),
             trace_of role ++ trace_of binding, world_of binding)
        | None =>
            let others := run h (ensureComponentRoutes OpenShiftConfigNamespace r rest)
                              (world_of binding) in
            (result_of others,
             trace_of role ++ trace_of binding ++ trace_of others,
             world_of others)
        end
    end.
Proof.
  cbn [ensureComponentRoutes].
  run_split (ensureServiceCertKeyPairSecretRole OpenShiftConfigNamespace r cr)
            res t w1.
  destruct res as [roleName [e |]];
    cbn [result_of trace_of world_of fst snd].
  - run_step. by rewrite app_nil_r.
  - run_split (ensureServiceCertKeyPairSecretRoleBinding
                 OpenShiftConfigNamespace r cr roleName) err t' w2.
    destruct err as [e |];
      cbn [result_of trace_of world_of fst snd].
    + run_step. by rewrite app_nil_r.
    + destruct (run h (ensureComponentRoutes OpenShiftConfigNamespace r rest) w2)
        as [[res'' t''] w3].
      done.
Qed.

(** The loop makes none of the list calls of the garbage collector. *)
Lemma ensureComponentRoutes_notGcList
    (r : reconciler) (componentRoutes : list aggregatedComponentRoute) (w : W) :
  Forall (notGcList OpenShiftConfigNamespace)
    (requests (trace_of (run h (ensureComponentRoutes
                                  OpenShiftConfigNamespace r componentRoutes) w))).
Proof.
  revert w. induction componentRoutes as [| cr rest IH]; intros w; [constructor |].
  rewrite run_ensureComponentRoutes_cons. cbv zeta.
  pose proof (ensureServiceCertKeyPairSecretRole_steps
                OpenShiftConfigNamespace h r cr w) as Hrole.
  eapply Forall_impl in Hrole; [| apply roleStep_notGcList].
  destruct (run h (ensureServiceCertKeyPairSecretRole OpenShiftConfigNamespace r cr) w)
    as [[[roleName err] t] w1].
  cbn [result_of trace_of world_of fst snd] in *.
  destruct err as [e |]; cbn [trace_of fst snd]; [done |].
  pose proof (ensureServiceCertKeyPairSecretRoleBinding_steps
                OpenShiftConfigNamespace h r cr roleName w1) as Hbinding.
  eapply Forall_impl in Hbinding; [| apply bindingStep_notGcList].
  destruct (run h (ensureServiceCertKeyPairSecretRoleBinding
                     OpenShiftConfigNamespace r cr roleName) w1)
    as [[err t'] w2].
  cbn [result_of trace_of world_of fst snd] in *.
  destruct err as [e |]; cbn [trace_of fst snd]; autorewrite with trace.
  - by apply Forall_app.
  - apply Forall_app. split; [done |]. apply Forall_app. split; [done | apply IH].
Qed.

(** What the loop returns from [Reconcile] with: a requeue and a failure to
    create a role or a role binding. *)
Lemma ensureComponentRoutes_result
    (r : reconciler) (componentRoutes : list aggregatedComponentRoute) (w : W)
    (res : Result * option error) :
  result_of (run h (ensureComponentRoutes OpenShiftConfigNamespace r componentRoutes) w)
    = Some res →
  ∃ e, res = ({| Result_Requeue := true |}, Some (FailedToCreateRole e)) ∨
       res = ({| Result_Requeue := true |}, Some (FailedToCreateRoleBinding e)).
Proof.
  revert w. induction componentRoutes as [| cr rest IH]; intros w; [done |].
  rewrite run_ensureComponentRoutes_cons. cbv zeta.
  destruct (result_of (run h (ensureServiceCertKeyPairSecretRole
                                OpenShiftConfigNamespace r cr) w)).2 as [e |].
  { intros [= <-]. eauto. }
  destruct (result_of (run h (ensureServiceCertKeyPairSecretRoleBinding _ _ _ _) _))
    as [e |].
  { intros [= <-]. eauto. }
  apply IH.
Qed.

(** The run of [Reconcile] when the ingress cannot be fetched. *)
Lemma run_Reconcile_fetch_failed
    (r : reconciler) (request : Request) (ingress : Ingress) (e : api_error)
    (w w1 : W) :
  h (CacheGetIngress (Request_NamespacedName request)) w = ((ingress, Some e), w1) →
  run h (Reconcile Hash OpenShiftConfigNamespace r request) w =
    (({| Result_Requeue := false |},
      if IsNotFound e then None else Some (FailedToGetIngress request e)),
     [Event (CacheGetIngress (Request_NamespacedName request)) (ingress, Some e)],
     w1).
Proof.
  intros Hget. unfold Reconcile. run_step. rewrite Hget.
  destruct (IsNotFound e); reflexivity.
Qed.

(** The run of [Reconcile] once the ingress is fetched. *)
Lemma run_Reconcile_fetched
    (r : reconciler) (request : Request) (ingress : Ingress) (w w1 : W) :
  h (CacheGetIngress (Request_NamespacedName request)) w = ((ingress, None), w1) →
  run h (Reconcile Hash OpenShiftConfigNamespace r request) w =
    let componentRoutes :=
      intersectingComponentRoutes Hash
        (IngressSpec_ComponentRoutes (Ingress_Spec ingress))
        (IngressStatus_ComponentRoutes (Ingress_Status ingress)) in
    let get := Event (CacheGetIngress (Request_NamespacedName request))
                     (ingress, None) in
    let loop := run h (ensureComponentRoutes
                         OpenShiftConfigNamespace r componentRoutes) w1 in
    match result_of loop with
    | Some res => (res, get :: trace_of loop, world_of loop)
    | None =>
        let gc := run h (cleanupOrphanedResources
                           OpenShiftConfigNamespace componentRoutes)
                      (world_of loop) in
        (match result_of gc with
         | Some e => ({| Result_Requeue := true |}, Some (FailedToDeleteRole e))
         | None => ({| Result_Requeue := false |}, None)
         end,
         get :: trace_of loop ++ trace_of gc, world_of gc)
    end.
Proof.
  intros Hget. unfold Reconcile. run_step. rewrite Hget. cbv zeta.
  run_split (ensureComponentRoutes OpenShiftConfigNamespace r
               (intersectingComponentRoutes Hash
                  (IngressSpec_ComponentRoutes (Ingress_Spec ingress))
                  (IngressStatus_ComponentRoutes (Ingress_Status ingress))))
            res t w2.
  cbn [result_of trace_of world_of fst snd].
  destruct res as [res |].
  - run_step. by rewrite app_nil_r.
  - run_split (cleanupOrphanedResources OpenShiftConfigNamespace
                 (intersectingComponentRoutes Hash
                    (IngressSpec_ComponentRoutes (Ingress_Spec ingress))
                    (IngressStatus_ComponentRoutes (Ingress_Status ingress))))
              err t' w3.
    cbn [result_of trace_of world_of fst snd].
    destruct err; run_step; by rewrite app_nil_r.
Qed.

(** Calls before the garbage collector do not count as listed by it. *)
Lemma gcUnlabelled_app (t1 t2 : list event) :
  Forall (notGcList OpenShiftConfigNamespace) (requests t1) →
  gcUnlabelled OpenShiftConfigNamespace (t1 ++ t2) ↔
  gcUnlabelled OpenShiftConfigNamespace t2.
Proof.
  intros [Hr Hb]%gcListed_nil. unfold gcUnlabelled.
  by rewrite gcListedRoles_app, gcListedRoleBindings_app, Hr, Hb.
Qed.

Lemma gcUnlabelled_nil : ¬ gcUnlabelled OpenShiftConfigNamespace [].
Proof. intros [(item & Hin & _) | (item & Hin & _)]; by apply elem_of_nil in Hin. Qed.

End DriverFacts.

(** C9.  When fetching the ingress fails, [Reconcile] makes no further
    call; it returns without an error and without a requeue when the error
    is NotFound, and with an error otherwise. *)
Theorem Reconcile_fetch_error
    (Hash : string → string) (OpenShiftConfigNamespace : string)
    (W : Type) (h : handler W) (w w1 : W) (r : reconciler) (request : Request)
    (ingress : Ingress) (e : api_error) :
  h (CacheGetIngress (Request_NamespacedName request)) w = ((ingress, Some e), w1) →
  run h (Reconcile Hash OpenShiftConfigNamespace r request) w =
    (({| Result_Requeue := false |},
      if IsNotFound e then None else Some (FailedToGetIngress request e)),
     [Event (CacheGetIngress (Request_NamespacedName request)) (ingress, Some e)],
     w1).
Proof. apply run_Reconcile_fetch_failed. Qed.

Lemma Reconcile_fetch_error_witness :
  run fakeClient (Reconcile plainHash configNamespace theReconciler requestCluster)
      clusterWithoutIngress =
    (({| Result_Requeue := false |}, None),
     [Event (CacheGetIngress (Request_NamespacedName requestCluster))
            (emptyIngress, Some NotFoundError)],
     clusterWithoutIngress).
Proof.
  apply (Reconcile_fetch_error plainHash configNamespace cluster fakeClient
           clusterWithoutIngress clusterWithoutIngress theReconciler requestCluster
           emptyIngress NotFoundError).
  reflexivity.
Defined.

(** C6.  If one of the list calls of the garbage collector hands back an
    object without the hash label, [Reconcile] returns an error, with a
    requeue: the object is not skipped.  The error is the label fault,
    unless a delete before the object failed.  And [Reconcile] returns the
    label fault for no other reason: when every listed object carries the
    label, that branch is not taken. *)
Theorem Reconcile_label_fault
    (Hash : string → string) (OpenShiftConfigNamespace : string)
    (W : Type) (h : handler W) (r : reconciler) (request : Request) (w : W) :
  let o := run h (Reconcile Hash OpenShiftConfigNamespace r request) w in
  (gcUnlabelled OpenShiftConfigNamespace (trace_of o) →
   ∃ e, result_of o = ({| Result_Requeue := true |}, Some (FailedToDeleteRole e)))
  ∧ (gcUnlabelled OpenShiftConfigNamespace (trace_of o) →
     Forall delete_tolerated (trace_of o) →
     result_of o
     = ({| Result_Requeue := true |}, Some (FailedToDeleteRole MissingHashLabel)))
  ∧ ((result_of o).2 = Some (FailedToDeleteRole MissingHashLabel) →
     gcUnlabelled OpenShiftConfigNamespace (trace_of o)).
Proof.
  cbv zeta.
  destruct (h (CacheGetIngress (Request_NamespacedName request)) w)
    as [[ingress [e |]] w1] eqn:Hget.
  { rewrite (run_Reconcile_fetch_failed _ _ _ _ _ _ _ _ _ Hget).
    cbn [result_of trace_of fst snd].
    assert (Hnone : ¬ gcUnlabelled OpenShiftConfigNamespace
                        [Event (CacheGetIngress (Request_NamespacedName request))
                               (ingress, Some e)]).
    { rewrite <- (app_nil_r [_]), gcUnlabelled_app; [apply gcUnlabelled_nil |].
      repeat constructor; discriminate. }
    repeat apply conj; try done. by destruct (IsNotFound e). }
  rewrite (run_Reconcile_fetched _ _ _ _ _ _ _ _ Hget). cbv zeta.
  set (componentRoutes := intersectingComponentRoutes Hash _ _).
  set (get := Event (CacheGetIngress (Request_NamespacedName request)) (ingress, None)).
  pose proof (ensureComponentRoutes_notGcList
                OpenShiftConfigNamespace h r componentRoutes w1) as Hloop.
  pose proof (ensureComponentRoutes_result
                OpenShiftConfigNamespace h r componentRoutes w1) as Hres.
  destruct (run h (ensureComponentRoutes OpenShiftConfigNamespace r componentRoutes) w1)
    as [[res t] w2].
  cbn [result_of trace_of world_of fst snd] in *.
  assert (Hget' : Forall (notGcList OpenShiftConfigNamespace) (requests (get :: t))).
  { subst get. autorewrite with trace. constructor; [split; discriminate | done]. }
  destruct res as [res |]; cbn [result_of trace_of fst snd].
  - assert (Hnone : ¬ gcUnlabelled OpenShiftConfigNamespace (get :: t)).
    { rewrite <- (app_nil_r (get :: t)), gcUnlabelled_app by done.
      apply gcUnlabelled_nil. }
    repeat apply conj; try done.
    destruct (Hres res eq_refl) as [e [-> | ->]]; discriminate.
  - rewrite app_comm_cons.
    pose proof (cleanupOrphanedResources_label_fault
                  OpenShiftConfigNamespace h componentRoutes w2) as Hgc.
    cbv zeta in Hgc. destruct Hgc as (Hfails & Hfault & Honly).
    destruct (run h (cleanupOrphanedResources
                       OpenShiftConfigNamespace componentRoutes) w2)
      as [[err t'] w3].
    cbn [result_of trace_of world_of fst snd] in *.
    rewrite gcUnlabelled_app by done.
    repeat apply conj.
    + intros Hun. destruct err as [e |]; [by exists e | by destruct (Hfails Hun)].
    + intros Hun [_ Htol]%Forall_app. by rewrite (Hfault Hun Htol).
    + destruct err as [e |]; [| done]. intros [= ->]. by apply Honly.
Qed.

Lemma Reconcile_label_fault_witness :
  result_of (run (cannedClient listsUnlabelled)
               (Reconcile plainHash configNamespace theReconciler requestCluster) tt)
  = ({| Result_Requeue := true |}, Some (FailedToDeleteRole MissingHashLabel)).
Proof.
  destruct (Reconcile_label_fault plainHash configNamespace unit
              (cannedClient listsUnlabelled) theReconciler requestCluster tt)
    as (_ & Hfault & _).
  apply Hfault.
  - left. exists {| Role_ObjectMeta := storedMeta "stray" ∅; Role_Rules := [] |}.
    split; [vm_compute; left | reflexivity].
  - apply tolerated_Forall. vm_compute. reflexivity.
Defined.

(** C5 fails on the code: an error of the list calls of the garbage
    collector is dropped.  With a cache that fails both of them,
    [Reconcile] makes the two calls and returns without an error and
    without a requeue. *)
Lemma Reconcile_drops_list_errors :
  run (cannedClient listsFail)
      (Reconcile plainHash configNamespace theReconciler requestCluster) tt
  = (({| Result_Requeue := false |}, None),
     [ Event (CacheGetIngress (Request_NamespacedName requestCluster))
             (emptyIngress, None);
       Event (CacheListRoles (allComponentRouteResources configNamespace))
             ([], Some (OtherError "cache not synced"));
       Event (CacheListRoleBindings (allComponentRouteResources configNamespace))
             ([], Some (OtherError "cache not synced")) ],
     tt).
Proof. vm_compute. reflexivity. Qed.

(** ** Role bindings follow roles *)

(** Gets, lists and deletes leave [current] as it is. *)
Lemma bindingsFollowRoles_neutral_l (b : bool) (cur : option string)
    (t1 t2 : list event) :
  Forall neutral (requests t1) →
  bindingsFollowRoles b cur (t1 ++ t2) ↔ bindingsFollowRoles b cur t2.
Proof.
  induction t1 as [| [q x] t1 IH]; [done |].
  change (requests (existT q x :: t1)) with (q :: requests t1).
  intros [[Hc Hu] Ht]%Forall_cons. specialize (IH Ht).
  destruct q; try discriminate; exact IH.
Qed.

Lemma bindingsFollowRoles_neutral_r (b : bool) (cur : option string)
    (t1 t2 : list event) :
  Forall neutral (requests t2) →
  bindingsFollowRoles b cur t1 → bindingsFollowRoles b cur (t1 ++ t2).
Proof.
  intros Ht2. revert cur. induction t1 as [| [q x] t1 IH]; intros cur.
  - intros _. change ([] ++ t2) with t2. rewrite <- (app_nil_r t2).
    by apply bindingsFollowRoles_neutral_l.
  - destruct q; cbn;
      first [apply IH | intros (? & ? & ?); repeat split; auto].
Qed.

Section FollowFacts.

Variable OpenShiftConfigNamespace : string.
Context {W : Type} (h : handler W).

(** Role convergence sets [current] to the name it returns. *)
Lemma bindingsFollowRoles_role
    (b : bool) (cur : option string) (r : reconciler)
    (cr : aggregatedComponentRoute) (w : W) (t2 : list event) :
  let o := run h (ensureServiceCertKeyPairSecretRole
                    OpenShiftConfigNamespace r cr) w in
  (∀ name, result_of o = (name, None) → bindingsFollowRoles b (Some name) t2) →
  ((result_of o).2 ≠ None → t2 = []) →
  bindingsFollowRoles b cur (trace_of o ++ t2).
Proof.
  cbv zeta. unfold ensureServiceCertKeyPairSecretRole. run_step.
  destruct (h (CacheListRoles (componentRouteResources OpenShiftConfigNamespace cr)) w)
    as [[items err] w1].
  destruct err as [e |].
  { run_step. cbn [result_of trace_of fst snd]. intros _ ->; done. }
  destruct items as [| first rest].
  - run_step. destruct (h (ClientCreateRole (desiredRole r cr)) w1)
      as [[role' err] w2].
    destruct err as [e |]; run_step; cbn [result_of trace_of fst snd].
    + intros _ ->; done.
    + intros Hname _. by apply Hname.
  - cbn [deleteRolesAfterFirst]. rewrite decide_True by done.
    run_split (deleteRolesAfterFirst 1 rest) err t w2.
    pose proof (deleteRolesAfterFirst_requests h neutral 1 rest w1
                  (λ _, conj eq_refl eq_refl)) as Hloop.
    rewrite Heqp in Hloop. cbn [result_of trace_of fst snd] in Hloop.
    destruct err as [e |]; run_step.
    + cbn [result_of trace_of fst snd]. intros _ ->; [| done].
      rewrite !app_nil_r. cbn.
      rewrite <- (app_nil_r t). by apply bindingsFollowRoles_neutral_l.
    + destruct (h (ClientUpdateRole
                     (Role_setRules first (Role_Rules (desiredRole r cr)))) w2)
        as [[updated err] w3].
      destruct err as [e |]; run_step; cbn [result_of trace_of fst snd].
      * intros _ ->; [| done]. rewrite app_nil_r. cbn.
        by apply bindingsFollowRoles_neutral_l.
      * intros Hname _. cbn. rewrite <- app_assoc.
        apply bindingsFollowRoles_neutral_l; [done |]. by apply Hname.
Qed.

(** Under [current = Some roleName], every write of role-binding
    convergence for [roleName] passes, and [current] stays. *)
Lemma bindingsFollowRoles_steps
    (roleName : string) (r : reconciler) (cr : aggregatedComponentRoute)
    (t1 t2 : list event) :
  Forall (bindingStep OpenShiftConfigNamespace r cr roleName) (requests t1) →
  bindingsFollowRoles false (Some roleName) t2 →
  bindingsFollowRoles false (Some roleName) (t1 ++ t2).
Proof.
  intros Ht1 Ht2. induction t1 as [| [q x] t1 IH]; [done |].
  change (requests (existT q x :: t1)) with (q :: requests t1) in Ht1.
  apply Forall_cons in Ht1 as [Hq Ht1]. specialize (IH Ht1).
  destruct Hq; cbn; repeat apply conj; first [done | exact IH].
Qed.

Lemma bindingsFollowRoles_binding
    (roleName : string) (r : reconciler) (cr : aggregatedComponentRoute)
    (w : W) (t2 : list event) :
  bindingsFollowRoles false (Some roleName) t2 →
  bindingsFollowRoles false (Some roleName)
    (trace_of (run h (ensureServiceCertKeyPairSecretRoleBinding
                        OpenShiftConfigNamespace r cr roleName) w) ++ t2).
Proof.
  apply (bindingsFollowRoles_steps roleName r cr).
  apply ensureServiceCertKeyPairSecretRoleBinding_steps.
Qed.

(** The loop of [Reconcile]. *)
Lemma bindingsFollowRoles_ensureComponentRoutes
    (cur : option string) (r : reconciler)
    (componentRoutes : list aggregatedComponentRoute) (w : W) :
  bindingsFollowRoles false cur
    (trace_of (run h (ensureComponentRoutes
                        OpenShiftConfigNamespace r componentRoutes) w)).
Proof.
  revert cur w. induction componentRoutes as [| cr rest IH]; intros cur w; [done |].
  rewrite run_ensureComponentRoutes_cons. cbv zeta.
  pose proof (bindingsFollowRoles_role false cur r cr w) as Hrole.
  cbv zeta in Hrole.
  destruct (run h (ensureServiceCertKeyPairSecretRole OpenShiftConfigNamespace r cr) w)
    as [[[roleName err] t] w1].
  cbn [result_of trace_of world_of fst snd] in *.
  destruct err as [e |]; cbn [trace_of fst snd].
  - rewrite <- (app_nil_r t). by apply Hrole.
  - pose proof (bindingsFollowRoles_binding roleName r cr w1) as Hbinding.
    destruct (run h (ensureServiceCertKeyPairSecretRoleBinding
                       OpenShiftConfigNamespace r cr roleName) w1)
      as [[err t'] w2].
    cbn [result_of trace_of world_of fst snd] in *.
    destruct err as [e |]; cbn [trace_of fst snd].
    + apply Hrole; [| done]. intros name [= <-].
      rewrite <- (app_nil_r t'). by apply Hbinding.
    + apply Hrole; [| done]. intros name [= <-]. apply Hbinding, IH.
Qed.

(** The garbage collector lists and deletes, nothing else. *)
Lemma cleanupOrphanedResources_neutral
    (componentRoutes : list aggregatedComponentRoute) (w : W) :
  Forall neutral
    (requests (trace_of (run h (cleanupOrphanedResources
                                  OpenShiftConfigNamespace componentRoutes) w))).
Proof.
  rewrite run_cleanupOrphanedResources. cbv zeta.
  pose proof (deleteOrphanedRoles_requests h neutral
                (existingHashes componentRoutes)
                (h (CacheListRoles
                      (allComponentRouteResources OpenShiftConfigNamespace)) w).1.1
                (h (CacheListRoles
                      (allComponentRouteResources OpenShiftConfigNamespace)) w).2
                (λ _, conj eq_refl eq_refl)) as Hroles.
  destruct (run h (deleteOrphanedRoles _ _) _) as [[res t] w2].
  cbn [result_of trace_of world_of fst snd] in *.
  destruct res as [e |]; cbn [trace_of fst snd]; autorewrite with trace.
  - by constructor.
  - constructor; [done |]. apply Forall_app. split; [done |].
    constructor; [done |].
    apply (deleteOrphanedRoleBindings_requests h neutral). done.
Qed.

End FollowFacts.

(** C8 (amended).  In any run of [Reconcile], every role binding sent to
    create or to update names, in its role reference, the name that the
    role write before it came back with, which is the name role
    convergence returned for the target; a role binding sent to create has
    that name as its own name too.  Of the own name of a role binding that
    is updated in place nothing is required.  The same holds of role
    convergence for a target followed by role-binding convergence under
    the name it returned. *)
Theorem Reconcile_bindings_follow_roles
    (Hash : string → string) (OpenShiftConfigNamespace : string)
    (W : Type) (h : handler W) (r : reconciler) (request : Request) (w : W) :
  bindingsFollowRoles false None
    (trace_of (run h (Reconcile Hash OpenShiftConfigNamespace r request) w))
  ∧ ∀ (cr : aggregatedComponentRoute) (w1 w2 : W) (roleName : string),
      result_of (run h (ensureServiceCertKeyPairSecretRole
                          OpenShiftConfigNamespace r cr) w1) = (roleName, None) →
      bindingsFollowRoles false None
        (trace_of (run h (ensureServiceCertKeyPairSecretRole
                            OpenShiftConfigNamespace r cr) w1)
         ++ trace_of (run h (ensureServiceCertKeyPairSecretRoleBinding
                               OpenShiftConfigNamespace r cr roleName) w2)).
Proof.
  split.
  - destruct (h (CacheGetIngress (Request_NamespacedName request)) w)
      as [[ingress [e |]] w1] eqn:Hget.
    { by rewrite (run_Reconcile_fetch_failed _ _ _ _ _ _ _ _ _ Hget). }
    rewrite (run_Reconcile_fetched _ _ _ _ _ _ _ _ Hget). cbv zeta.
    set (componentRoutes := intersectingComponentRoutes Hash _ _).
    pose proof (bindingsFollowRoles_ensureComponentRoutes
                  OpenShiftConfigNamespace h None r componentRoutes w1) as Hloop.
    destruct (run h (ensureComponentRoutes OpenShiftConfigNamespace r componentRoutes) w1)
      as [[res t] w2].
    cbn [result_of trace_of world_of fst snd] in *.
    destruct res as [res |]; cbn [trace_of fst snd]; [done |].
    cbn. apply bindingsFollowRoles_neutral_r; [| done].
    apply cleanupOrphanedResources_neutral.
  - intros cr w1 w2 roleName Hrole.
    apply bindingsFollowRoles_role.
    + rewrite Hrole. intros name [= <-].
      rewrite <- (app_nil_r (trace_of _)). by apply bindingsFollowRoles_binding.
    + by rewrite Hrole.
Qed.

(** The role is gone and is created anew under a generated name; the role
    binding is updated to refer to it. *)
Lemma Reconcile_bindings_follow_roles_witness :
  bindingsFollowRoles false None
    (trace_of (run fakeClient
                 (ensureServiceCertKeyPairSecretRole
                    configNamespace theReconciler targetFoo) clusterRoleLost)
     ++ trace_of (run fakeClient
                    (ensureServiceCertKeyPairSecretRoleBinding
                       configNamespace theReconciler targetFoo "foo-7")
                    clusterRoleLost)).
Proof.
  destruct (Reconcile_bindings_follow_roles plainHash configNamespace cluster
              fakeClient theReconciler requestCluster clusterRoleLost)
    as [_ Hboth].
  apply Hboth. vm_compute. reflexivity.
Defined.

(** C8, as stated, fails: the role binding that is updated in place keeps
    its own name ["foo-0"], while the role it now refers to is ["foo-7"]. *)
Lemma updated_binding_keeps_its_name :
  ¬ bindingsFollowRoles true None
      (trace_of (run fakeClient
                   (Reconcile plainHash configNamespace theReconciler requestCluster)
                   clusterRoleLost)).
Proof.
  vm_compute. intros (_ & Hname & _). specialize (Hname eq_refl). discriminate Hname.
Qed.

(** ** Created objects *)

(** The subjects loop makes one subject per consuming user, in order. *)
Lemma subjectsOf_map (users : list string) :
  subjectsOf users =
    map (λ user, {| Subject_Kind := ServiceAccountKind;
                    Subject_Name := user;
                    Subject_APIGroup := "" |}) users.
Proof.
  unfold subjectsOf. induction users as [| user users IH] using rev_ind.
  - done.
  - by rewrite foldl_app, map_app, IH.
Qed.

Section CreateFacts.

Variable Hash : string → string.
Variable OpenShiftConfigNamespace : string.
Context {W : Type} (h : handler W).

(** A create call of the loop of [Reconcile] carries the desired role or
    the desired role binding of one of the targets. *)
Lemma ensureComponentRoutes_creates
    (r : reconciler) (componentRoutes : list aggregatedComponentRoute) (w : W)
    (q : request) :
  q ∈ requests (trace_of (run h (ensureComponentRoutes
                                   OpenShiftConfigNamespace r componentRoutes) w)) →
  is_create q = true →
  ∃ cr, cr ∈ componentRoutes ∧
        (q = ClientCreateRole (desiredRole r cr) ∨
         ∃ roleName, q = ClientCreateRoleBinding (desiredRoleBinding r cr roleName)).
Proof.
  revert w. induction componentRoutes as [| cr rest IH]; intros w.
  { intros Hin. by apply elem_of_nil in Hin. }
  rewrite run_ensureComponentRoutes_cons. cbv zeta.
  pose proof (ensureServiceCertKeyPairSecretRole_steps
                OpenShiftConfigNamespace h r cr w) as Hrole.
  rewrite Forall_forall in Hrole.
  destruct (run h (ensureServiceCertKeyPairSecretRole OpenShiftConfigNamespace r cr) w)
    as [[[roleName err] t] w1].
  cbn [result_of trace_of world_of fst snd] in *.
  assert (Hfirst : q ∈ requests t → is_create q = true →
                   ∃ cr', cr' ∈ cr :: rest ∧
                     (q = ClientCreateRole (desiredRole r cr') ∨
                      ∃ roleName', q = ClientCreateRoleBinding
                                         (desiredRoleBinding r cr' roleName'))).
  { intros Hin Hcreate. exists cr. split; [left |].
    destruct (Hrole q Hin); try discriminate. by left. }
  destruct err as [e |]; cbn [trace_of fst snd]; [done |].
  pose proof (ensureServiceCertKeyPairSecretRoleBinding_steps
                OpenShiftConfigNamespace h r cr roleName w1) as Hbinding.
  rewrite Forall_forall in Hbinding.
  destruct (run h (ensureServiceCertKeyPairSecretRoleBinding
                     OpenShiftConfigNamespace r cr roleName) w1)
    as [[err t'] w2].
  cbn [result_of trace_of world_of fst snd] in *.
  assert (Hsecond : q ∈ requests t' → is_create q = true →
                    ∃ cr', cr' ∈ cr :: rest ∧
                      (q = ClientCreateRole (desiredRole r cr') ∨
                       ∃ roleName', q = ClientCreateRoleBinding
                                          (desiredRoleBinding r cr' roleName'))).
  { intros Hin Hcreate. exists cr. split; [left |].
    destruct (Hbinding q Hin); try discriminate. right. by exists roleName. }
  destruct err as [e |]; cbn [trace_of fst snd]; autorewrite with trace.
  - intros [Hin | Hin]%elem_of_app; auto.
  - intros [Hin | [Hin | Hin]%elem_of_app]%elem_of_app Hcreate; auto.
    destruct (IH w2 Hin Hcreate) as (cr' & Hcr' & Hq).
    exists cr'. split; [by right | done].
Qed.

(** A create call of [Reconcile] is for a target of the intersection of
    the fetched ingress. *)
Lemma Reconcile_creates (r : reconciler) (req : Request) (w : W) (q : request) :
  q ∈ requests (trace_of (run h (Reconcile Hash OpenShiftConfigNamespace r req) w)) →
  is_create q = true →
  ∃ ingress cr,
    (h (CacheGetIngress (Request_NamespacedName req)) w).1 = (ingress, None) ∧
    cr ∈ intersectingComponentRoutes Hash
           (IngressSpec_ComponentRoutes (Ingress_Spec ingress))
           (IngressStatus_ComponentRoutes (Ingress_Status ingress)) ∧
    (q = ClientCreateRole (desiredRole r cr) ∨
     ∃ roleName, q = ClientCreateRoleBinding (desiredRoleBinding r cr roleName)).
Proof.
  destruct (h (CacheGetIngress (Request_NamespacedName req)) w)
    as [[ingress [e |]] w1] eqn:Hget.
  { rewrite (run_Reconcile_fetch_failed _ _ _ _ _ _ _ _ _ Hget).
    cbn [trace_of fst snd]. autorewrite with trace.
    intros ->%list_elem_of_singleton. discriminate. }
  rewrite (run_Reconcile_fetched _ _ _ _ _ _ _ _ Hget). cbv zeta.
  set (componentRoutes := intersectingComponentRoutes Hash _ _).
  pose proof (ensureComponentRoutes_creates r componentRoutes w1 q) as Hloop.
  destruct (run h (ensureComponentRoutes OpenShiftConfigNamespace r componentRoutes) w1)
    as [[res t] w2].
  cbn [result_of trace_of world_of fst snd] in *.
  assert (Hgc : q ∈ requests (trace_of (run h (cleanupOrphanedResources
                                                OpenShiftConfigNamespace
                                                componentRoutes) w2)) →
                is_create q = true → False).
  { intros Hin Hcreate.
    pose proof (cleanupOrphanedResources_neutral
                  OpenShiftConfigNamespace h componentRoutes w2) as Hneutral.
    rewrite Forall_forall in Hneutral. destruct (Hneutral q Hin). congruence. }
  destruct res as [res |]; cbn [trace_of fst snd]; autorewrite with trace.
  - intros [-> | Hin]%elem_of_cons Hcreate; [discriminate |].
    destruct (Hloop Hin Hcreate) as (cr & Hcr & Hq). by exists ingress, cr.
  - intros [-> | [Hin | Hin]%elem_of_app]%elem_of_cons Hcreate; [discriminate | |].
    + destruct (Hloop Hin Hcreate) as (cr & Hcr & Hq). by exists ingress, cr.
    + by destruct (Hgc Hin Hcreate).
Qed.

End CreateFacts.

(** C10.  In any run, a role that role convergence creates for a target is
    the desired role of that target, and a role binding that role-binding
    convergence creates is the desired binding: each carries the marker
    label with the target's hash as its only label; the role has the one
    rule get, list, watch on secrets named by the target's serving secret;
    the binding has one ServiceAccount subject per consuming user.  With no
    listed binding the binding is created even for an empty consumer list,
    then with no subject.  Every create call of a run of [Reconcile] is
    one of these, for a target of the intersection. *)
Theorem created_objects_match_target
    (Hash : string → string) (OpenShiftConfigNamespace : string)
    (W : Type) (h : handler W)
    (r : reconciler) (cr : aggregatedComponentRoute) (roleName : string)
    (req : Request) (w w' w'' : W) :
  (∀ obj,
     ClientCreateRole obj
       ∈ requests (trace_of (run h (ensureServiceCertKeyPairSecretRole
                                      OpenShiftConfigNamespace r cr) w)) →
     obj = desiredRole r cr)
  ∧ (∀ obj,
       ClientCreateRoleBinding obj
         ∈ requests (trace_of (run h (ensureServiceCertKeyPairSecretRoleBinding
                                        OpenShiftConfigNamespace r cr roleName) w')) →
       obj = desiredRoleBinding r cr roleName)
  ∧ Role_GetLabels (desiredRole r cr)
    = {[ componentRouteHashLabelKey := aggregatedComponentRoute_Hash cr ]}
  ∧ Role_Rules (desiredRole r cr)
    = [ {| PolicyRule_Verbs := ["get"; "list"; "watch"];
           PolicyRule_APIGroups := [""];
           PolicyRule_Resources := ["secrets"];
           PolicyRule_ResourceNames :=
             [aggregatedComponentRoute_ServingCertificateName cr] |} ]
  ∧ RoleBinding_GetLabels (desiredRoleBinding r cr roleName)
    = {[ componentRouteHashLabelKey := aggregatedComponentRoute_Hash cr ]}
  ∧ RoleBinding_Subjects (desiredRoleBinding r cr roleName)
    = map (λ user, {| Subject_Kind := ServiceAccountKind;
                      Subject_Name := user;
                      Subject_APIGroup := "" |})
          (aggregatedComponentRoute_ConsumingUsers cr)
  ∧ (∀ w1 : W,
       aggregatedComponentRoute_ConsumingUsers cr = [] →
       h (CacheListRoleBindings
            (componentRouteResources OpenShiftConfigNamespace cr)) w'
         = (([], None), w1) →
       RoleBinding_Subjects (desiredRoleBinding r cr roleName) = [] ∧
       requests (trace_of (run h (ensureServiceCertKeyPairSecretRoleBinding
                                    OpenShiftConfigNamespace r cr roleName) w'))
       = [ CacheListRoleBindings
             (componentRouteResources OpenShiftConfigNamespace cr);
           ClientCreateRoleBinding (desiredRoleBinding r cr roleName) ])
  ∧ (∀ q,
       q ∈ requests (trace_of (run h (Reconcile Hash OpenShiftConfigNamespace
                                        r req) w'')) →
       is_create q = true →
       ∃ ingress target,
         (h (CacheGetIngress (Request_NamespacedName req)) w'').1
           = (ingress, None) ∧
         target ∈ intersectingComponentRoutes Hash
                    (IngressSpec_ComponentRoutes (Ingress_Spec ingress))
                    (IngressStatus_ComponentRoutes (Ingress_Status ingress)) ∧
         (q = ClientCreateRole (desiredRole r target) ∨
          ∃ name, q = ClientCreateRoleBinding (desiredRoleBinding r target name))).
Proof.
  repeat apply conj; try done.
  - intros obj Hin.
    pose proof (ensureServiceCertKeyPairSecretRole_steps
                  OpenShiftConfigNamespace h r cr w) as Hsteps.
    rewrite Forall_forall in Hsteps. specialize (Hsteps _ Hin).
    by inversion Hsteps.
  - intros obj Hin.
    pose proof (ensureServiceCertKeyPairSecretRoleBinding_steps
                  OpenShiftConfigNamespace h r cr roleName w') as Hsteps.
    rewrite Forall_forall in Hsteps. specialize (Hsteps _ Hin).
    by inversion Hsteps.
  - cbn [desiredRoleBinding RoleBinding_Subjects]. apply subjectsOf_map.
  - intros w1 Husers Hlist. split.
    + cbn [desiredRoleBinding RoleBinding_Subjects]. by rewrite Husers.
    + unfold ensureServiceCertKeyPairSecretRoleBinding. run_step. rewrite Hlist.
      run_step.
      destruct (h (ClientCreateRoleBinding (desiredRoleBinding r cr roleName)) w1)
        as [[created err] w2].
      run_step. by out_simpl.
  - apply Reconcile_creates.
Qed.

(** An observed entry without consuming users, and no binding stored yet. *)
Lemma created_objects_match_target_witness :
  let cr := newAggregatedComponentRoute plainHash
              (specOf "default" "foo" "foo") (statusOf "default" "foo" []) in
  requests (trace_of (run fakeClient
                        (ensureServiceCertKeyPairSecretRoleBinding
                           configNamespace theReconciler cr "foo-0")
                        clusterWithoutIngress))
  = [ CacheListRoleBindings (componentRouteResources configNamespace cr);
      ClientCreateRoleBinding
        (storedRoleBinding "foo-0" "default/foo" "foo-0" []) ].
Proof.
  intros cr.
  destruct (created_objects_match_target plainHash configNamespace cluster fakeClient
              theReconciler cr "foo-0" requestCluster
              clusterWithoutIngress clusterWithoutIngress clusterWithoutIngress)
    as (_ & _ & _ & _ & _ & _ & Hempty & _).
  destruct (Hempty clusterWithoutIngress eq_refl eq_refl) as [_ Hrequests].
  exact Hrequests.
Defined.


(** ** Errors abort *)

Section AbortFacts.

Variable OpenShiftConfigNamespace : string.
Context {W : Type} (h : handler W).

Lemma failsLast_app (t1 t2 : list event) :
  failsLast OpenShiftConfigNamespace t1 →
  failsLast OpenShiftConfigNamespace t2 →
  (Exists (failed OpenShiftConfigNamespace) t1 → t2 = []) →
  failsLast OpenShiftConfigNamespace (t1 ++ t2).
Proof.
  induction t1 as [| e t1 IH]; [done |]. cbn. intros [He Ht1] Ht2 Hstop. split.
  - intros Hfailed. rewrite (He Hfailed), (Hstop (Exists_cons_hd _ _ _ Hfailed)). done.
  - apply IH; [done | done |]. intros Hex. apply Hstop. by apply Exists_cons_tl.
Qed.

Lemma failsLast_split (t1 t2 : list event) (e : event) :
  failsLast OpenShiftConfigNamespace (t1 ++ e :: t2) →
  failed OpenShiftConfigNamespace e → t2 = [].
Proof.
  induction t1 as [| e' t1 IH]; cbn; intros [He Ht] Hfailed; auto.
Qed.

Lemma not_failed_ok (q : request) (x : response q) :
  event_error (Event q x) = None → ¬ failed OpenShiftConfigNamespace (Event q x).
Proof. intros Hok [[? Herr] _]. congruence. Qed.

Lemma not_failed_delete (q : request) (x : response q) :
  is_delete q = true → event_error (Event q x) = Some NotFoundError →
  ¬ failed OpenShiftConfigNamespace (Event q x).
Proof. intros Hq Hx (_ & Hnot & _). apply Hnot. split; [done | by right]. Qed.

(** A step that did not fail, before a run that aborts. *)
Lemma aborts_cons {A} (err : A → Prop) (e : event) (a : A) (t : list event) (w : W) :
  ¬ failed OpenShiftConfigNamespace e →
  aborts OpenShiftConfigNamespace err (a, t, w) →
  aborts OpenShiftConfigNamespace err (a, e :: t, w).
Proof.
  intros He [Hlast Herr]. split; cbn in *.
  - split; [by intros ? | done].
  - intros [? | ?]%Exists_cons; [done | auto].
Qed.

(** A step that is the last, with an error as the result. *)
Lemma aborts_last {A} (err : A → Prop) (e : event) (a : A) (w : W) :
  err a → aborts OpenShiftConfigNamespace err (a, [e], w).
Proof. intros Ha. split; cbn; auto. Qed.

Lemma aborts_nil {A} (err : A → Prop) (a : A) (w : W) :
  aborts OpenShiftConfigNamespace err (a, [], w).
Proof. split; cbn; [done |]. by intros ?%Exists_nil. Qed.

(** A run that aborts, before a run that is made only if the first
    returned no error and that aborts too. *)
Lemma aborts_app {A B} (errA : A → Prop) (errB : B → Prop)
    (a : A) (t : list event) (w : W) (b : B) (t' : list event) (w' : W) :
  aborts OpenShiftConfigNamespace errA (a, t, w) →
  (errA a → t' = [] ∧ errB b) →
  (¬ errA a → aborts OpenShiftConfigNamespace errB (b, t', w')) →
  (errA a ∨ ¬ errA a) →
  aborts OpenShiftConfigNamespace errB (b, t ++ t', w').
Proof.
  intros [Hlast Herr] Hstop Hgo Hdec. unfold aborts in *. cbn in *.
  destruct Hdec as [Ha | Ha].
  - destruct (Hstop Ha) as [-> Hb]. rewrite app_nil_r. auto.
  - destruct (Hgo Ha) as [Hlast' Herr']. split.
    + apply failsLast_app; [done | done |]. intros Hex. by destruct (Ha (Herr Hex)).
    + intros [Hex | Hex]%Exists_app; [by destruct (Ha (Herr Hex)) | auto].
Qed.

(** The loops over listed items. *)
Lemma deleteRolesAfterFirst_aborts (i : nat) (items : list Role) (w : W) :
  aborts OpenShiftConfigNamespace is_Some (run h (deleteRolesAfterFirst i items) w).
Proof.
  revert i w. induction items as [| item items IH]; intros i w.
  { apply aborts_nil. }
  cbn [deleteRolesAfterFirst]. case_decide; [apply IH |]. run_step.
  destruct (h (ClientDeleteRole item) w) as [err w1].
  specialize (IH (S i) w1).
  destruct err as [[| |msg] |]; run_step;
    try destruct (run h (deleteRolesAfterFirst (S i) items) w1) as [[res t] w2].
  - apply aborts_cons; [by apply not_failed_delete | done].
  - by apply aborts_last.
  - by apply aborts_last.
  - apply aborts_cons; [by apply not_failed_ok | done].
Qed.

Lemma deleteRoleBindingsAfterFirst_aborts
    (i : nat) (items : list RoleBinding) (w : W) :
  aborts OpenShiftConfigNamespace is_Some
    (run h (deleteRoleBindingsAfterFirst i items) w).
Proof.
  revert i w. induction items as [| item items IH]; intros i w.
  { apply aborts_nil. }
  cbn [deleteRoleBindingsAfterFirst]. case_decide; [apply IH |]. run_step.
  destruct (h (ClientDeleteRoleBinding item) w) as [err w1].
  specialize (IH (S i) w1).
  destruct err as [[| |msg] |]; run_step;
    try destruct (run h (deleteRoleBindingsAfterFirst (S i) items) w1)
      as [[res t] w2].
  - apply aborts_cons; [by apply not_failed_delete | done].
  - by apply aborts_last.
  - by apply aborts_last.
  - apply aborts_cons; [by apply not_failed_ok | done].
Qed.

Lemma deleteOrphanedRoles_aborts
    (hashes : gset string) (items : list Role) (w : W) :
  aborts OpenShiftConfigNamespace is_Some (run h (deleteOrphanedRoles hashes items) w).
Proof.
  revert w. induction items as [| item items IH]; intros w.
  { apply aborts_nil. }
  cbn [deleteOrphanedRoles].
  destruct (Role_GetLabels item !! componentRouteHashLabelKey); [| apply aborts_nil].
  case_decide; [apply IH |]. run_step.
  destruct (h (ClientDeleteRole item) w) as [err w1].
  specialize (IH w1).
  destruct err as [[| |msg] |]; run_step;
    try destruct (run h (deleteOrphanedRoles hashes items) w1) as [[res t] w2].
  - apply aborts_cons; [by apply not_failed_delete | done].
  - by apply aborts_last.
  - by apply aborts_last.
  - apply aborts_cons; [by apply not_failed_ok | done].
Qed.

Lemma deleteOrphanedRoleBindings_aborts
    (hashes : gset string) (items : list RoleBinding) (w : W) :
  aborts OpenShiftConfigNamespace is_Some
    (run h (deleteOrphanedRoleBindings hashes items) w).
Proof.
  revert w. induction items as [| item items IH]; intros w.
  { apply aborts_nil. }
  cbn [deleteOrphanedRoleBindings].
  destruct (RoleBinding_GetLabels item !! componentRouteHashLabelKey);
    [| apply aborts_nil].
  case_decide; [apply IH |]. run_step.
  destruct (h (ClientDeleteRoleBinding item) w) as [err w1].
  specialize (IH w1).
  destruct err as [[| |msg] |]; run_step;
    try destruct (run h (deleteOrphanedRoleBindings hashes items) w1)
      as [[res t] w2].
  - apply aborts_cons; [by apply not_failed_delete | done].
  - by apply aborts_last.
  - by apply aborts_last.
  - apply aborts_cons; [by apply not_failed_ok | done].
Qed.

(** Role convergence and role-binding convergence. *)
Lemma ensureServiceCertKeyPairSecretRole_aborts
    (r : reconciler) (cr : aggregatedComponentRoute) (w : W) :
  aborts OpenShiftConfigNamespace (λ res : string * option error, is_Some res.2)
    (run h (ensureServiceCertKeyPairSecretRole OpenShiftConfigNamespace r cr) w).
Proof.
  unfold ensureServiceCertKeyPairSecretRole. run_step.
  destruct (h (CacheListRoles (componentRouteResources OpenShiftConfigNamespace cr)) w)
    as [[items err] w1].
  destruct err as [e |]; [run_step; by apply aborts_last |].
  destruct items as [| first rest].
  - run_step. destruct (h (ClientCreateRole (desiredRole r cr)) w1)
      as [[role' err] w2].
    destruct err as [e |]; run_step;
      (apply aborts_cons; [by apply not_failed_ok |]).
    + by apply aborts_last.
    + apply aborts_cons; [by apply not_failed_ok | apply aborts_nil].
  - cbn [deleteRolesAfterFirst]. rewrite decide_True by done.
    run_split (deleteRolesAfterFirst 1 rest) err t w2.
    pose proof (deleteRolesAfterFirst_aborts 1 rest w1) as Hloop.
    rewrite Heqp in Hloop.
    destruct err as [e |]; run_step.
    + apply aborts_cons; [by apply not_failed_ok |].
      eapply aborts_app; [exact Hloop | | | by left]; by intros.
    + destruct (h (ClientUpdateRole
                     (Role_setRules first (Role_Rules (desiredRole r cr)))) w2)
        as [[updated err] w3].
      destruct err as [e |]; run_step;
        (apply aborts_cons; [by apply not_failed_ok |]);
        (eapply aborts_app;
           [exact Hloop | by intros [] | intros _ | right; by intros []]).
      * by apply aborts_last.
      * apply aborts_cons; [by apply not_failed_ok | apply aborts_nil].
Qed.

Lemma ensureServiceCertKeyPairSecretRoleBinding_aborts
    (r : reconciler) (cr : aggregatedComponentRoute) (roleName : string) (w : W) :
  aborts OpenShiftConfigNamespace is_Some
    (run h (ensureServiceCertKeyPairSecretRoleBinding
              OpenShiftConfigNamespace r cr roleName) w).
Proof.
  unfold ensureServiceCertKeyPairSecretRoleBinding. run_step.
  destruct (h (CacheListRoleBindings
                 (componentRouteResources OpenShiftConfigNamespace cr)) w)
    as [[items err] w1].
  destruct err as [e |]; [run_step; by apply aborts_last |].
  destruct items as [| first rest].
  - run_step.
    destruct (h (ClientCreateRoleBinding (desiredRoleBinding r cr roleName)) w1)
      as [[created err] w2].
    destruct err as [e |]; run_step;
      (apply aborts_cons; [by apply not_failed_ok |]).
    + by apply aborts_last.
    + apply aborts_cons; [by apply not_failed_ok | apply aborts_nil].
  - cbn [deleteRoleBindingsAfterFirst]. rewrite decide_True by done.
    run_split (deleteRoleBindingsAfterFirst 1 rest) err t w2.
    pose proof (deleteRoleBindingsAfterFirst_aborts 1 rest w1) as Hloop.
    rewrite Heqp in Hloop.
    destruct err as [e |]; run_step.
    + apply aborts_cons; [by apply not_failed_ok |].
      eapply aborts_app; [exact Hloop | | | by left]; by intros.
    + cbn [desiredRoleBinding RoleBinding_Subjects RoleBinding_RoleRef].
      destruct (h (ClientUpdateRoleBinding
                     (RoleBinding_setSubjectsRoleRef first
                        (subjectsOf (aggregatedComponentRoute_ConsumingUsers cr))
                        (roleRefTo roleName))) w2)
        as [[updated err] w3].
      destruct err as [e |]; run_step;
        (apply aborts_cons; [by apply not_failed_ok |]);
        (eapply aborts_app;
           [exact Hloop | by intros [] | intros _ | right; by intros []]).
      * by apply aborts_last.
      * apply aborts_cons; [by apply not_failed_ok | apply aborts_nil].
Qed.

(** The same run, with another result that is an error whenever the first
    is. *)
Lemma aborts_result {A B} (errA : A → Prop) (errB : B → Prop)
    (a : A) (b : B) (t : list event) (w w' : W) :
  aborts OpenShiftConfigNamespace errA (a, t, w) →
  (errA a → errB b) →
  aborts OpenShiftConfigNamespace errB (b, t, w').
Proof. intros [Hlast Herr] Hab. split; cbn in *; auto. Qed.

Lemma not_failed_gcListRoles
    (x : response (CacheListRoles
                     (allComponentRouteResources OpenShiftConfigNamespace))) :
  ¬ failed OpenShiftConfigNamespace
      (Event (CacheListRoles (allComponentRouteResources OpenShiftConfigNamespace)) x).
Proof. intros (_ & _ & Hq & _). by apply Hq. Qed.

Lemma not_failed_gcListRoleBindings
    (x : response (CacheListRoleBindings
                     (allComponentRouteResources OpenShiftConfigNamespace))) :
  ¬ failed OpenShiftConfigNamespace
      (Event (CacheListRoleBindings
                (allComponentRouteResources OpenShiftConfigNamespace)) x).
Proof. intros (_ & _ & _ & Hq). by apply Hq. Qed.

(** The garbage collector: its list calls apart, a failed call is its last
    and makes it return an error. *)
Lemma cleanupOrphanedResources_aborts
    (componentRoutes : list aggregatedComponentRoute) (w : W) :
  aborts OpenShiftConfigNamespace is_Some
    (run h (cleanupOrphanedResources OpenShiftConfigNamespace componentRoutes) w).
Proof.
  rewrite run_cleanupOrphanedResources. cbv zeta.
  destruct (h (CacheListRoles (allComponentRouteResources OpenShiftConfigNamespace)) w)
    as [roleList w1].
  cbn [fst snd].
  pose proof (deleteOrphanedRoles_aborts (existingHashes componentRoutes)
                roleList.1 w1) as Hroles.
  destruct (run h (deleteOrphanedRoles (existingHashes componentRoutes) roleList.1) w1)
    as [[res t] w2].
  cbn [result_of trace_of world_of fst snd].
  destruct res as [e |]; (apply aborts_cons; [apply not_failed_gcListRoles |]).
  - done.
  - destruct (h (CacheListRoleBindings
                   (allComponentRouteResources OpenShiftConfigNamespace)) w2)
      as [roleBindingList w3].
    cbn [fst snd].
    pose proof (deleteOrphanedRoleBindings_aborts (existingHashes componentRoutes)
                  roleBindingList.1 w3) as Hbindings.
    destruct (run h (deleteOrphanedRoleBindings (existingHashes componentRoutes)
                       roleBindingList.1) w3) as [[res' t'] w4].
    cbn [result_of trace_of world_of fst snd].
    eapply aborts_app; [exact Hroles | by intros [] | intros _ | right; by intros []].
    apply aborts_cons; [apply not_failed_gcListRoleBindings | done].
Qed.

(** The loop of [Reconcile]. *)
Lemma ensureComponentRoutes_aborts
    (r : reconciler) (componentRoutes : list aggregatedComponentRoute) (w : W) :
  aborts OpenShiftConfigNamespace is_Some
    (run h (ensureComponentRoutes OpenShiftConfigNamespace r componentRoutes) w).
Proof.
  revert w. induction componentRoutes as [| cr rest IH]; intros w.
  { apply aborts_nil. }
  rewrite run_ensureComponentRoutes_cons. cbv zeta.
  pose proof (ensureServiceCertKeyPairSecretRole_aborts r cr w) as Hrole.
  destruct (run h (ensureServiceCertKeyPairSecretRole OpenShiftConfigNamespace r cr) w)
    as [[[roleName err] t] w1].
  cbn [result_of trace_of world_of fst snd].
  destruct err as [e |].
  { eapply aborts_result; [exact Hrole | done]. }
  pose proof (ensureServiceCertKeyPairSecretRoleBinding_aborts r cr roleName w1)
    as Hbinding.
  destruct (run h (ensureServiceCertKeyPairSecretRoleBinding
                     OpenShiftConfigNamespace r cr roleName) w1)
    as [[err t'] w2].
  cbn [result_of trace_of world_of fst snd].
  destruct err as [e |].
  - eapply aborts_app;
      [exact Hrole | by intros [] | intros _ | right; by intros []].
    eapply aborts_result; [exact Hbinding | done].
  - specialize (IH w2).
    destruct (run h (ensureComponentRoutes OpenShiftConfigNamespace r rest) w2)
      as [[res t''] w3].
    cbn [result_of trace_of world_of fst snd].
    eapply aborts_app;
      [exact Hrole | by intros [] | intros _ | right; by intros []].
    eapply aborts_app;
      [exact Hbinding | by intros [] | intros _ | right; by intros []].
    done.
Qed.

End AbortFacts.

(** Every call of a run of [Reconcile] that comes back with an error, other
    than NotFound on fetching the ingress, NotFound on a delete, and the
    list calls of the garbage collector, is the last call of the run, and
    the run returns an error. *)
Lemma Reconcile_aborts
    (Hash : string → string) (OpenShiftConfigNamespace : string)
    (W : Type) (h : handler W) (r : reconciler) (req : Request) (w : W) :
  aborts OpenShiftConfigNamespace (λ res : Result * option error, is_Some res.2)
    (run h (Reconcile Hash OpenShiftConfigNamespace r req) w).
Proof.
  destruct (h (CacheGetIngress (Request_NamespacedName req)) w)
    as [[ingress [e |]] w1] eqn:Hget.
  { rewrite (run_Reconcile_fetch_failed _ _ _ _ _ _ _ _ _ Hget).
    destruct e; cbn [IsNotFound]; try by apply aborts_last.
    apply aborts_cons; [| apply aborts_nil].
    intros (_ & Hnot & _). apply Hnot. split; [done | by left]. }
  rewrite (run_Reconcile_fetched _ _ _ _ _ _ _ _ Hget). cbv zeta.
  set (componentRoutes := intersectingComponentRoutes Hash _ _).
  pose proof (ensureComponentRoutes_aborts
                OpenShiftConfigNamespace h r componentRoutes w1) as Hloop.
  pose proof (ensureComponentRoutes_result
                OpenShiftConfigNamespace h r componentRoutes w1) as Hres.
  destruct (run h (ensureComponentRoutes OpenShiftConfigNamespace r componentRoutes) w1)
    as [[res t] w2].
  cbn [result_of trace_of world_of fst snd] in *.
  destruct res as [res |]; (apply aborts_cons; [by apply not_failed_ok |]).
  - eapply aborts_result; [exact Hloop |]. intros _.
    destruct (Hres res eq_refl) as [e [-> | ->]]; done.
  - pose proof (cleanupOrphanedResources_aborts
                  OpenShiftConfigNamespace h componentRoutes w2) as Hgc.
    destruct (run h (cleanupOrphanedResources
                       OpenShiftConfigNamespace componentRoutes) w2)
      as [[err t'] w3].
    cbn [result_of trace_of world_of fst snd].
    eapply aborts_app;
      [exact Hloop | by intros [] | intros _ | right; by intros []].
    eapply aborts_result; [exact Hgc |]. by intros [e ->].
Qed.

(** Every call of a run of [Reconcile] that failed is the last call of the
    run, and the run then returns an error.  ([failed] leaves out NotFound
    on fetching the ingress, NotFound on a delete, and the two list calls
    of the garbage collector, whose errors are dropped.) *)
Theorem Reconcile_errors_abort
    (Hash : string → string) (OpenShiftConfigNamespace : string)
    (W : Type) (h : handler W) (r : reconciler) (req : Request) (w : W)
    (t1 t2 : list event) (e : event) :
  trace_of (run h (Reconcile Hash OpenShiftConfigNamespace r req) w) = t1 ++ e :: t2 →
  failed OpenShiftConfigNamespace e →
  t2 = [] ∧ is_Some (result_of (run h (Reconcile Hash OpenShiftConfigNamespace r req) w)).2.
Proof.
  intros Htrace Hfailed.
  destruct (Reconcile_aborts Hash OpenShiftConfigNamespace W h r req w)
    as [Hlast Herr].
  rewrite Htrace in Hlast, Herr. split.
  - by apply (failsLast_split OpenShiftConfigNamespace t1 t2 e).
  - apply Herr. apply Exists_app. right. by left.
Qed.

(** The list call of role convergence fails: [Reconcile] stops there and
    returns the error. *)
Lemma Reconcile_errors_abort_witness :
  is_Some (result_of (run (cannedClient listFailsForTarget)
                        (Reconcile plainHash configNamespace theReconciler
                           requestCluster) tt)).2.
Proof.
  refine (proj2 (Reconcile_errors_abort plainHash configNamespace unit
                   (cannedClient listFailsForTarget) theReconciler requestCluster tt
                   [Event (CacheGetIngress (Request_NamespacedName requestCluster))
                          (canned_ingress listFailsForTarget)]
                   []
                   (Event (CacheListRoles
                             (componentRouteResources configNamespace targetFoo))
                          ([], Some (OtherError "cache not synced")))
                   eq_refl _)).
  split; [by eexists |]. split; [| split; discriminate].
  intros [[=] _].
Defined.

(** ** Creates and updates of a run *)

Lemma puts_app (t1 t2 : list event) : puts (t1 ++ t2) = puts t1 + puts t2.
Proof. unfold puts. by rewrite requests_app, List.filter_app, length_app. Qed.

Lemma puts_cons (q : request) (x : response q) (t : list event) :
  puts (Event q x :: t) = (if is_put q then 1 else 0) + puts t.
Proof. unfold puts. rewrite requests_cons. simpl. by destruct (is_put q). Qed.

Lemma puts_nil : puts [] = 0.
Proof. done. Qed.

Lemma puts_neutral (t : list event) :
  Forall neutral (requests t) → puts t = 0.
Proof.
  unfold puts. induction (requests t) as [| q l IH]; [done |].
  intros [[Hc Hu] Hl]%Forall_cons. simpl. unfold is_put at 1.
  rewrite Hc, Hu. by apply IH.
Qed.

Section PutFacts.

Variable Hash : string → string.
Variable OpenShiftConfigNamespace : string.
Context {W : Type} (h : handler W).

Lemma ensureServiceCertKeyPairSecretRole_puts
    (r : reconciler) (cr : aggregatedComponentRoute) (w : W) :
  let o := run h (ensureServiceCertKeyPairSecretRole
                    OpenShiftConfigNamespace r cr) w in
  puts (trace_of o) ≤ 1 ∧ ((result_of o).2 = None → puts (trace_of o) = 1).
Proof.
  cbv zeta. unfold ensureServiceCertKeyPairSecretRole. run_step.
  destruct (h (CacheListRoles (componentRouteResources OpenShiftConfigNamespace cr)) w)
    as [[items err] w1].
  destruct err as [e |]; [run_step; cbn [result_of trace_of fst snd]; by split; [unfold puts; simpl; lia |] |].
  destruct items as [| first rest].
  - run_step. destruct (h (ClientCreateRole (desiredRole r cr)) w1) as [[role' err] w2].
    destruct err; run_step; cbn [result_of trace_of fst snd];
      rewrite !puts_cons, puts_nil; simpl; split; (done || lia).
  - cbn [deleteRolesAfterFirst]. rewrite decide_True by done.
    run_split (deleteRolesAfterFirst 1 rest) err t w2.
    pose proof (deleteRolesAfterFirst_requests h neutral 1 rest w1) as Hloop.
    rewrite Heqp in Hloop. cbn [trace_of fst snd] in Hloop.
    assert (Ht : puts t = 0) by (apply puts_neutral, Hloop; by split).
    destruct err as [e |]; run_step.
    { cbn [result_of trace_of fst snd].
      rewrite puts_cons, puts_app, Ht, puts_nil. simpl. split; [lia | done]. }
    destruct (h (ClientUpdateRole
                   (Role_setRules first (Role_Rules (desiredRole r cr)))) w2)
      as [[updated err] w3].
    destruct err; run_step; cbn [result_of trace_of fst snd];
      rewrite puts_cons, puts_app, Ht, puts_cons, puts_nil; simpl;
      split; (done || lia).
Qed.

Lemma ensureServiceCertKeyPairSecretRoleBinding_puts
    (r : reconciler) (cr : aggregatedComponentRoute) (roleName : string) (w : W) :
  let o := run h (ensureServiceCertKeyPairSecretRoleBinding
                    OpenShiftConfigNamespace r cr roleName) w in
  puts (trace_of o) ≤ 1 ∧ (result_of o = None → puts (trace_of o) = 1).
Proof.
  cbv zeta. unfold ensureServiceCertKeyPairSecretRoleBinding. run_step.
  destruct (h (CacheListRoleBindings
                 (componentRouteResources OpenShiftConfigNamespace cr)) w)
    as [[items err] w1].
  destruct err as [e |]; [run_step; cbn [result_of trace_of fst snd]; by split; [unfold puts; simpl; lia |] |].
  destruct items as [| first rest].
  - run_step.
    destruct (h (ClientCreateRoleBinding (desiredRoleBinding r cr roleName)) w1)
      as [[created err] w2].
    run_step; cbn [result_of trace_of fst snd];
      rewrite !puts_cons, puts_nil; simpl; split; (done || lia).
  - cbn [deleteRoleBindingsAfterFirst]. rewrite decide_True by done.
    run_split (deleteRoleBindingsAfterFirst 1 rest) err t w2.
    pose proof (deleteRoleBindingsAfterFirst_requests h neutral 1 rest w1) as Hloop.
    rewrite Heqp in Hloop. cbn [trace_of fst snd] in Hloop.
    assert (Ht : puts t = 0) by (apply puts_neutral, Hloop; by split).
    destruct err as [e |]; run_step.
    { cbn [result_of trace_of fst snd].
      rewrite puts_cons, puts_app, Ht, puts_nil. simpl. split; [lia | done]. }
    cbn [desiredRoleBinding RoleBinding_Subjects RoleBinding_RoleRef].
    destruct (h (ClientUpdateRoleBinding
                   (RoleBinding_setSubjectsRoleRef first
                      (subjectsOf (aggregatedComponentRoute_ConsumingUsers cr))
                      (roleRefTo roleName))) w2)
      as [[updated err] w3].
    run_step; cbn [result_of trace_of fst snd];
      rewrite puts_cons, puts_app, Ht, puts_cons, puts_nil; simpl;
      split; (done || lia).
Qed.

Lemma ensureComponentRoutes_puts
    (r : reconciler) (componentRoutes : list aggregatedComponentRoute) (w : W) :
  let o := run h (ensureComponentRoutes
                    OpenShiftConfigNamespace r componentRoutes) w in
  puts (trace_of o) ≤ 2 * length componentRoutes
  ∧ (result_of o = None → puts (trace_of o) = 2 * length componentRoutes).
Proof.
  cbv zeta. revert w.
  induction componentRoutes as [| cr rest IH]; intros w; [done |].
  rewrite run_ensureComponentRoutes_cons. cbv zeta.
  pose proof (ensureServiceCertKeyPairSecretRole_puts r cr w) as [Hrole Hrole'].
  destruct (run h (ensureServiceCertKeyPairSecretRole OpenShiftConfigNamespace r cr) w)
    as [[[roleName err] t] w1].
  cbn [result_of trace_of world_of fst snd length] in *.
  destruct err as [e |]; cbn [result_of trace_of fst snd]; [split; [lia | done] |].
  pose proof (ensureServiceCertKeyPairSecretRoleBinding_puts r cr roleName w1)
    as [Hbinding Hbinding'].
  destruct (run h (ensureServiceCertKeyPairSecretRoleBinding
                     OpenShiftConfigNamespace r cr roleName) w1)
    as [[err t'] w2].
  cbn [result_of trace_of world_of fst snd] in *.
  destruct err as [e |]; cbn [result_of trace_of fst snd]; rewrite ?puts_app.
  - split; [lia | done].
  - destruct (IH w2) as [Hrest Hrest']. split; [lia |].
    intros Hres. rewrite Hrole', Hbinding', Hrest' by done. lia.
Qed.

End PutFacts.

Lemma run_Reconcile_puts
    (Hash : string → string) (OpenShiftConfigNamespace : string)
    (W : Type) (h : handler W) (r : reconciler) (req : Request)
    (ingress : Ingress) (w w1 : W) :
  h (CacheGetIngress (Request_NamespacedName req)) w = ((ingress, None), w1) →
  let o := run h (Reconcile Hash OpenShiftConfigNamespace r req) w in
  let targets :=
    intersectingComponentRoutes Hash
      (IngressSpec_ComponentRoutes (Ingress_Spec ingress))
      (IngressStatus_ComponentRoutes (Ingress_Status ingress)) in
  puts (trace_of o) ≤ 2 * length targets
  ∧ ((result_of o).2 = None → puts (trace_of o) = 2 * length targets).
Proof.
  intros Hget. cbv zeta.
  rewrite (run_Reconcile_fetched _ _ _ _ _ _ _ _ Hget). cbv zeta.
  set (componentRoutes := intersectingComponentRoutes Hash _ _).
  pose proof (ensureComponentRoutes_puts
                OpenShiftConfigNamespace h r componentRoutes w1) as [Hloop Hloop'].
  pose proof (ensureComponentRoutes_result
                OpenShiftConfigNamespace h r componentRoutes w1) as Hres.
  destruct (run h (ensureComponentRoutes _ r componentRoutes) w1)
    as [[res t] w2].
  cbn [result_of trace_of world_of fst snd] in *.
  destruct res as [res |]; cbn [result_of trace_of fst snd].
  - rewrite puts_cons. simpl. split; [done |].
    destruct (Hres res eq_refl) as [e [-> | ->]]; done.
  - pose proof (cleanupOrphanedResources_neutral
                  OpenShiftConfigNamespace h componentRoutes w2) as Hgc.
    apply puts_neutral in Hgc.
    rewrite puts_cons, puts_app, Hgc, Hloop' by done. simpl. split; [lia |].
    intros _. lia.
Qed.



(** ** Runs that find one match for every target *)

Lemma no_create_filter (l : list request) :
  Forall (λ q, is_create q = false) l → List.filter is_create l = [].
Proof.
  induction l as [| q l IH]; [done |].
  intros [Hq Hl]%Forall_cons. simpl. rewrite Hq. by apply IH.
Qed.

Lemma puts_updates (t : list event) :
  Forall (λ q, is_create q = false) (requests t) →
  length (List.filter is_update (requests t)) = puts t.
Proof.
  unfold puts. induction (requests t) as [| q l IH]; [done |].
  intros [Hq Hl]%Forall_cons. simpl. unfold is_put at 1. rewrite Hq. simpl.
  destruct (is_update q); simpl; by rewrite IH.
Qed.

Lemma componentRouteResources_not_all (namespace : string)
    (cr : aggregatedComponentRoute) :
  componentRouteResources namespace cr ≠ allComponentRouteResources namespace.
Proof. discriminate. Qed.

Section SingleMatchFacts.

Variable Hash : string → string.
Variable OpenShiftConfigNamespace : string.
Context {W : Type} (h : handler W).

Lemma ensureServiceCertKeyPairSecretRole_single
    (r : reconciler) (cr : aggregatedComponentRoute) (w : W) :
  let o := run h (ensureServiceCertKeyPairSecretRole
                    OpenShiftConfigNamespace r cr) w in
  singleMatches OpenShiftConfigNamespace (trace_of o) →
  Forall (λ q, is_create q = false) (requests (trace_of o)).
Proof.
  cbv zeta. unfold ensureServiceCertKeyPairSecretRole. run_step.
  destruct (h (CacheListRoles (componentRouteResources OpenShiftConfigNamespace cr)) w)
    as [[items err] w1].
  destruct err as [e |]; [run_step; out_simpl; by repeat constructor |].
  destruct items as [| first rest].
  - run_step. destruct (h (ClientCreateRole (desiredRole r cr)) w1) as [[role' err] w2].
    destruct err; run_step; cbn [trace_of fst snd];
      intros [Hlist _]%Forall_cons;
      by destruct (Hlist (componentRouteResources_not_all _ _)).
  - intros _. cbn [deleteRolesAfterFirst]. rewrite decide_True by done.
    run_split (deleteRolesAfterFirst 1 rest) err t w2.
    pose proof (deleteRolesAfterFirst_requests h
                  (λ q, is_create q = false) 1 rest w1 (λ _, eq_refl)) as Hloop.
    rewrite Heqp in Hloop. out_simpl.
    destruct err as [e |]; run_step.
    + out_simpl. rewrite app_nil_r. by constructor.
    + destruct (h (ClientUpdateRole
                     (Role_setRules first (Role_Rules (desiredRole r cr)))) w2)
        as [[updated err] w3].
      destruct err; run_step; out_simpl;
        (constructor; [done |]);
        (apply Forall_app; split; [done | by repeat constructor]).
Qed.

Lemma ensureServiceCertKeyPairSecretRoleBinding_single
    (r : reconciler) (cr : aggregatedComponentRoute) (roleName : string) (w : W) :
  let o := run h (ensureServiceCertKeyPairSecretRoleBinding
                    OpenShiftConfigNamespace r cr roleName) w in
  singleMatches OpenShiftConfigNamespace (trace_of o) →
  Forall (λ q, is_create q = false) (requests (trace_of o)).
Proof.
  cbv zeta. unfold ensureServiceCertKeyPairSecretRoleBinding. run_step.
  destruct (h (CacheListRoleBindings
                 (componentRouteResources OpenShiftConfigNamespace cr)) w)
    as [[items err] w1].
  destruct err as [e |]; [run_step; out_simpl; by repeat constructor |].
  destruct items as [| first rest].
  - run_step.
    destruct (h (ClientCreateRoleBinding (desiredRoleBinding r cr roleName)) w1)
      as [[created err] w2].
    run_step; cbn [trace_of fst snd];
      intros [Hlist _]%Forall_cons;
      by destruct (Hlist (componentRouteResources_not_all _ _)).
  - intros _. cbn [deleteRoleBindingsAfterFirst]. rewrite decide_True by done.
    run_split (deleteRoleBindingsAfterFirst 1 rest) err t w2.
    pose proof (deleteRoleBindingsAfterFirst_requests h
                  (λ q, is_create q = false) 1 rest w1 (λ _, eq_refl)) as Hloop.
    rewrite Heqp in Hloop. out_simpl.
    destruct err as [e |]; run_step.
    + out_simpl. rewrite app_nil_r. by constructor.
    + cbn [desiredRoleBinding RoleBinding_Subjects RoleBinding_RoleRef].
      destruct (h (ClientUpdateRoleBinding
                     (RoleBinding_setSubjectsRoleRef first
                        (subjectsOf (aggregatedComponentRoute_ConsumingUsers cr))
                        (roleRefTo roleName))) w2)
        as [[updated err] w3].
      run_step; out_simpl;
        (constructor; [done |]);
        (apply Forall_app; split; [done | by repeat constructor]).
Qed.

Lemma ensureComponentRoutes_single
    (r : reconciler) (componentRoutes : list aggregatedComponentRoute) (w : W) :
  let o := run h (ensureComponentRoutes
                    OpenShiftConfigNamespace r componentRoutes) w in
  singleMatches OpenShiftConfigNamespace (trace_of o) →
  Forall (λ q, is_create q = false) (requests (trace_of o)).
Proof.
  cbv zeta. revert w.
  induction componentRoutes as [| cr rest IH]; intros w; [by constructor |].
  rewrite run_ensureComponentRoutes_cons. cbv zeta.
  pose proof (ensureServiceCertKeyPairSecretRole_single r cr w) as Hrole.
  destruct (run h (ensureServiceCertKeyPairSecretRole OpenShiftConfigNamespace r cr) w)
    as [[[roleName err] t] w1].
  cbn [result_of trace_of world_of fst snd] in *.
  destruct err as [e |]; cbn [trace_of fst snd]; [done |].
  pose proof (ensureServiceCertKeyPairSecretRoleBinding_single r cr roleName w1)
    as Hbinding.
  destruct (run h (ensureServiceCertKeyPairSecretRoleBinding
                     OpenShiftConfigNamespace r cr roleName) w1)
    as [[err t'] w2].
  cbn [result_of trace_of world_of fst snd] in *.
  unfold singleMatches in *.
  destruct err as [e |]; cbn [trace_of fst snd]; autorewrite with trace.
  - intros [H1 H2]%Forall_app. apply Forall_app. auto.
  - intros [H1 [H2 H3]%Forall_app]%Forall_app.
    apply Forall_app. split; [auto |]. apply Forall_app. split; [auto |].
    by apply IH.
Qed.

Lemma run_Reconcile_single
    (r : reconciler) (req : Request) (ingress : Ingress) (w w1 : W) :
  h (CacheGetIngress (Request_NamespacedName req)) w = ((ingress, None), w1) →
  let o := run h (Reconcile Hash OpenShiftConfigNamespace r req) w in
  singleMatches OpenShiftConfigNamespace (trace_of o) →
  Forall (λ q, is_create q = false) (requests (trace_of o)).
Proof.
  intros Hget. cbv zeta.
  rewrite (run_Reconcile_fetched _ _ _ _ _ _ _ _ Hget). cbv zeta.
  set (componentRoutes := intersectingComponentRoutes Hash _ _).
  pose proof (ensureComponentRoutes_single r componentRoutes w1) as Hloop.
  destruct (run h (ensureComponentRoutes _ r componentRoutes) w1)
    as [[res t] w2].
  cbn [result_of trace_of world_of fst snd] in *.
  unfold singleMatches in *.
  destruct res as [res |]; cbn [trace_of fst snd]; autorewrite with trace.
  - intros [_ Ht]%Forall_cons. constructor; auto.
  - intros [_ [Ht _]%Forall_app]%Forall_cons.
    constructor; [done |]. apply Forall_app. split; [auto |].
    eapply Forall_impl; [apply cleanupOrphanedResources_neutral |].
    by intros q [? _].
Qed.

End SingleMatchFacts.




(** What the second run does there: four updates, no create, no delete,
    and the cluster is as the first run left it. *)
Example second_run_rewrites_in_place :
  let p := Reconcile plainHash configNamespace theReconciler requestCluster in
  let first := run fakeClient p clusterFooBar in
  let second := run fakeClient p (world_of first) in
  length (List.filter is_update (requests (trace_of second))) = 4 ∧
  List.filter (λ q, is_create q || is_delete q) (requests (trace_of second)) = [] ∧
  world_of second = world_of first.
Proof. vm_compute. repeat split; reflexivity. Qed.

(** ** More on the state intersector *)

Lemma filter_key_NoDup {A} (f : A → string) (k : string) (l : list A) :
  NoDup (map f l) → length (filter (λ x, f x = k) l) ≤ 1.
Proof.
  induction l as [| x l IH]; [simpl; lia |].
  rewrite fmap_cons, NoDup_cons. intros [Hx Hl].
  rewrite filter_cons. case_decide as Hk; [| by apply IH].
  destruct (filter (λ x0, f x0 = k) l) as [| y l'] eqn:E; [simpl; lia |].
  exfalso. apply Hx.
  assert (Hy : y ∈ filter (λ x0, f x0 = k) l) by (rewrite E; left).
  apply list_elem_of_filter in Hy as [Hfy Hy].
  rewrite Hk, <- Hfy. by apply list_elem_of_fmap_2.
Qed.

Lemma short_Permutation {A} (l l' : list A) :
  length l ≤ 1 → l ≡ₚ l' → l = l'.
Proof.
  destruct l as [| x [| y l]]; simpl; intros Hlen Hperm; [| | lia].
  - symmetry. by apply Permutation_nil.
  - by apply Permutation_singleton_l.
Qed.

Section IntersectorMore.

Variable Hash : string → string.

Lemma lastWithHash_Permutation k S S' :
  NoDup (map (statusHash Hash) S) → S ≡ₚ S' →
  lastWithHash Hash k S = lastWithHash Hash k S'.
Proof.
  intros Hnodup Hperm. unfold lastWithHash. f_equal.
  apply short_Permutation; [by apply filter_key_NoDup |].
  by rewrite Hperm.
Qed.

End IntersectorMore.

(** The order of the observed list does not matter as long as no two
    observed entries have the same correlation key: the targets depend on
    the observed list as a set of entries only. *)
Theorem intersectingComponentRoutes_observed_order
    (Hash : string → string)
    (D : list ComponentRouteSpec) (S S' : list ComponentRouteStatus) :
  NoDup (map (statusHash Hash) S) → S ≡ₚ S' →
  intersectingComponentRoutes Hash D S = intersectingComponentRoutes Hash D S'.
Proof.
  intros Hnodup Hperm. rewrite !intersectingComponentRoutes_omap.
  apply list_omap_ext, Forall2_same_length_lookup.
  split; [done |]. intros i d d' Hd Hd'.
  assert (d = d') as <- by congruence.
  by rewrite (lastWithHash_Permutation Hash _ S S').
Qed.

Lemma intersectingComponentRoutes_observed_order_witness :
  intersectingComponentRoutes plainHash desiredFooBar observedFooBar
  = intersectingComponentRoutes plainHash desiredFooBar (reverse observedFooBar).
Proof.
  apply intersectingComponentRoutes_observed_order.
  - apply (bool_decide_unpack _). vm_compute. reflexivity.
  - vm_compute. apply perm_swap.
Defined.

(** The hashes that the garbage collector takes for active are those that
    are the key of a desired entry and of an observed entry alike. *)
Theorem existingHashes_intersectingComponentRoutes
    (Hash : string → string)
    (D : list ComponentRouteSpec) (S : list ComponentRouteStatus) (k : string) :
  k ∈ existingHashes (intersectingComponentRoutes Hash D S) ↔
  (∃ d, d ∈ D ∧ specHash Hash d = k) ∧ (∃ s, s ∈ S ∧ statusHash Hash s = k).
Proof.
  rewrite elem_of_existingHashes, intersectingComponentRoutes_omap. split.
  - intros (cr & Hin & Hk). apply list_elem_of_omap in Hin as (d & Hd & Hcr).
    destruct (lastWithHash Hash (specHash Hash d) S) as [s |] eqn:E; [| done].
    injection Hcr as <-. rewrite newAggregatedComponentRoute_Hash in Hk.
    apply lastWithHash_Some in E as [Hs Hks]. split; [by exists d |].
    exists s. split; [done | congruence].
  - intros [(d & Hd & Hkd) (s & Hs & Hks)].
    assert (Hsome : is_Some (lastWithHash Hash (specHash Hash d) S)).
    { apply lastWithHash_is_Some. exists s. split; [done | congruence]. }
    destruct Hsome as [s' E].
    exists (newAggregatedComponentRoute Hash d s'). split.
    + apply list_elem_of_omap. exists d. split; [done |]. by rewrite E.
    + by rewrite newAggregatedComponentRoute_Hash.
Qed.

(** ** What a run returns, and when it collects garbage *)


(** The garbage collector starts, with its list call for roles, exactly
    when the ingress was fetched and the convergence of every target went
    through: a run that fails to create a role or a role binding lists and
    deletes no orphan. *)
Theorem garbage_collection_after_convergence
    (Hash : string → string) (OpenShiftConfigNamespace : string)
    (W : Type) (h : handler W) (r : reconciler) (req : Request) (w : W) :
  let o := run h (Reconcile Hash OpenShiftConfigNamespace r req) w in
  CacheListRoles (allComponentRouteResources OpenShiftConfigNamespace)
    ∈ requests (trace_of o)
  ↔ (h (CacheGetIngress (Request_NamespacedName req)) w).1.2 = None
    ∧ (∀ e, (result_of o).2 ≠ Some (FailedToCreateRole e))
    ∧ (∀ e, (result_of o).2 ≠ Some (FailedToCreateRoleBinding e)).
Proof.
  cbv zeta.
  destruct (h (CacheGetIngress (Request_NamespacedName req)) w)
    as [[ingress [e |]] w1] eqn:Hget.
  { rewrite (run_Reconcile_fetch_failed _ _ _ _ _ _ _ _ _ Hget). out_simpl.
    split; [| by intros [? _]].
    intros Hin%list_elem_of_singleton. discriminate Hin. }
  rewrite (run_Reconcile_fetched _ _ _ _ _ _ _ _ Hget). cbv zeta.
  set (componentRoutes := intersectingComponentRoutes Hash _ _).
  pose proof (ensureComponentRoutes_result
                OpenShiftConfigNamespace h r componentRoutes w1) as Hres.
  pose proof (ensureComponentRoutes_notGcList
                OpenShiftConfigNamespace h r componentRoutes w1) as Hloop.
  destruct (run h (ensureComponentRoutes _ r componentRoutes) w1)
    as [[res t] w2].
  cbn [result_of trace_of world_of fst snd] in *.
  destruct res as [res |]; out_simpl.
  - destruct (Hres res eq_refl) as [e Hshape]. split.
    + intros [Hin | Hin]%elem_of_cons; [discriminate Hin |].
      rewrite Forall_forall in Hloop. by destruct (Hloop _ Hin) as [? _].
    + intros (_ & Hrole & Hbinding).
      destruct Hshape as [-> | ->]; [by destruct (Hrole e) | by destruct (Hbinding e)].
  - rewrite run_cleanupOrphanedResources. cbv zeta.
    destruct (h (CacheListRoles _) w2) as [[roleList e1] w3].
    cbn [fst snd].
    split.
    + intros _. split; [done |].
      destruct (result_of (run h (deleteOrphanedRoles _ roleList) w3)) as [e |].
      * by split.
      * destruct (h (CacheListRoleBindings _) _) as [[bindingList e2] w4].
        cbn [fst snd result_of].
        destruct (run h (deleteOrphanedRoleBindings _ bindingList) w4)
          as [[[e |] t'] w5]; by split.
    + intros _. right. apply elem_of_app. right.
      destruct (result_of (run h (deleteOrphanedRoles _ roleList) w3)) as [e |];
        out_simpl; left.
Qed.

(** ** What the garbage collector never does *)

Section GarbageCollectionSafety.

Variable OpenShiftConfigNamespace : string.
Context {W : Type} (h : handler W).

Lemma deleteOrphanedRoles_gcStep
    (hashes : gset string) (items : list Role) (w : W) :
  Forall (gcStep OpenShiftConfigNamespace hashes)
    (requests (trace_of (run h (deleteOrphanedRoles hashes items) w))).
Proof.
  revert w. induction items as [| item items IH]; intros w; [constructor |].
  cbn [deleteOrphanedRoles].
  destruct (Role_GetLabels item !! componentRouteHashLabelKey)
    as [expectedHash |] eqn:Hlabel; [| constructor].
  case_decide as Hactive; [apply IH |]. run_step.
  destruct (h (ClientDeleteRole item) w) as [err w1].
  specialize (IH w1).
  assert (Hstep : gcStep OpenShiftConfigNamespace hashes (ClientDeleteRole item))
    by (by apply (orphaned_Some hashes _ expectedHash)).
  destruct err as [[| |msg] |]; run_step;
    try destruct (run h (deleteOrphanedRoles hashes items) w1) as [[res t] w2];
    out_simpl; auto.
Qed.

Lemma deleteOrphanedRoleBindings_gcStep
    (hashes : gset string) (items : list RoleBinding) (w : W) :
  Forall (gcStep OpenShiftConfigNamespace hashes)
    (requests (trace_of (run h (deleteOrphanedRoleBindings hashes items) w))).
Proof.
  revert w. induction items as [| item items IH]; intros w; [constructor |].
  cbn [deleteOrphanedRoleBindings].
  destruct (RoleBinding_GetLabels item !! componentRouteHashLabelKey)
    as [expectedHash |] eqn:Hlabel; [| constructor].
  case_decide as Hactive; [apply IH |]. run_step.
  destruct (h (ClientDeleteRoleBinding item) w) as [err w1].
  specialize (IH w1).
  assert (Hstep : gcStep OpenShiftConfigNamespace hashes
                    (ClientDeleteRoleBinding item))
    by (by apply (orphaned_Some hashes _ expectedHash)).
  destruct err as [[| |msg] |]; run_step;
    try destruct (run h (deleteOrphanedRoleBindings hashes items) w1)
      as [[res t] w2];
    out_simpl; auto.
Qed.

Lemma cleanupOrphanedResources_gcStep
    (componentRoutes : list aggregatedComponentRoute) (w : W) :
  Forall (gcStep OpenShiftConfigNamespace (existingHashes componentRoutes))
    (requests (trace_of (run h (cleanupOrphanedResources
                                  OpenShiftConfigNamespace componentRoutes) w))).
Proof.
  rewrite run_cleanupOrphanedResources. cbv zeta.
  destruct (h (CacheListRoles _) w) as [[roleList e1] w1]. cbn [fst snd].
  pose proof (deleteOrphanedRoles_gcStep
                (existingHashes componentRoutes) roleList w1) as Hroles.
  destruct (run h (deleteOrphanedRoles _ roleList) w1) as [[err t] w2].
  cbn [result_of trace_of world_of fst snd] in *.
  destruct err as [e |]; out_simpl.
  - by constructor.
  - destruct (h (CacheListRoleBindings _) w2) as [[bindingList e2] w3].
    cbn [fst snd].
    pose proof (deleteOrphanedRoleBindings_gcStep
                  (existingHashes componentRoutes) bindingList w3) as Hbindings.
    destruct (run h (deleteOrphanedRoleBindings _ bindingList) w3)
      as [[err' t'] w4].
    out_simpl. constructor; [done |]. apply Forall_app. split; [done |].
    by constructor.
Qed.

End GarbageCollectionSafety.

(** Whatever the collaborator answers, the garbage collector makes no call
    but its two list calls and deletes of objects that carry a hash label
    which is the hash of no target: it never creates or updates, and it
    never deletes an object labelled with the hash of a target. *)
Theorem cleanupOrphanedResources_spares_targets
    (OpenShiftConfigNamespace : string) (W : Type) (h : handler W)
    (componentRoutes : list aggregatedComponentRoute) (w : W) (q : request) :
  q ∈ requests (trace_of (run h (cleanupOrphanedResources
                                   OpenShiftConfigNamespace componentRoutes) w)) →
  gcStep OpenShiftConfigNamespace (existingHashes componentRoutes) q
  ∧ ∀ cr labels,
      cr ∈ componentRoutes →
      hashLabel labels = Some (aggregatedComponentRoute_Hash cr) →
      ¬ orphaned (existingHashes componentRoutes) labels.
Proof.
  intros Hin. split.
  - pose proof (cleanupOrphanedResources_gcStep
                  OpenShiftConfigNamespace h componentRoutes w) as Hsteps.
    rewrite Forall_forall in Hsteps. by apply Hsteps.
  - intros cr labels Hcr Hlabel Horphan.
    apply (orphaned_Some _ _ _ Hlabel) in Horphan. apply Horphan.
    apply elem_of_existingHashes. by exists cr.
Qed.

Lemma cleanupOrphanedResources_spares_targets_witness :
  gcStep configNamespace (existingHashes [targetFoo])
    (ClientDeleteRole (storedRole "bar-2" "default/bar" "bar"))
  ∧ ∀ cr labels,
      cr ∈ [targetFoo] →
      hashLabel labels = Some (aggregatedComponentRoute_Hash cr) →
      ¬ orphaned (existingHashes [targetFoo]) labels.
Proof.
  apply (cleanupOrphanedResources_spares_targets configNamespace cluster fakeClient
           [targetFoo] clusterFooAndBar).
  vm_compute. right. left.
Defined.

(** ** Deletes and updates are of listed objects *)

Lemma touchesOnlyListed_mono (roles roles' : list Role)
    (bindings bindings' : list RoleBinding) (t : list event) :
  roles ⊆ roles' → bindings ⊆ bindings' →
  touchesOnlyListed roles bindings t → touchesOnlyListed roles' bindings' t.
Proof.
  revert roles roles' bindings bindings'.
  induction t as [| [q x] t IH]; intros roles roles' bindings bindings' Hr Hb;
    [done |].
  destruct q; cbn [touchesOnlyListed Event].
  - by apply IH.
  - apply IH; [| done]. intros y [?|?]%elem_of_app; apply elem_of_app; auto.
  - apply IH; [done |]. intros y [?|?]%elem_of_app; apply elem_of_app; auto.
  - by apply IH.
  - intros [(item & Hin & Hmeta) Ht]. split; [| by eapply IH].
    exists item. auto.
  - intros [Hin Ht]. split; [auto | by eapply IH].
  - by apply IH.
  - intros [(item & Hin & Hmeta) Ht]. split; [| by eapply IH].
    exists item. auto.
  - intros [Hin Ht]. split; [auto | by eapply IH].
Qed.

Lemma touchesOnlyListed_app (roles : list Role) (bindings : list RoleBinding)
    (t1 t2 : list event) :
  touchesOnlyListed roles bindings t1 →
  (∀ roles' bindings', roles ⊆ roles' → bindings ⊆ bindings' →
     touchesOnlyListed roles' bindings' t2) →
  touchesOnlyListed roles bindings (t1 ++ t2).
Proof.
  revert roles bindings.
  induction t1 as [| [q x] t1 IH]; intros roles bindings H1 H2.
  - by apply H2.
  - rewrite <- app_comm_cons. destruct q; cbn [touchesOnlyListed Event] in *.
    + by apply IH.
    + apply IH; [done |]. intros roles' bindings' Hr Hb. apply H2; [| done].
      intros y Hy. apply Hr, elem_of_app. by left.
    + apply IH; [done |]. intros roles' bindings' Hr Hb. apply H2; [done |].
      intros y Hy. apply Hb, elem_of_app. by left.
    + by apply IH.
    + destruct H1 as [Hitem H1]. split; [done | by apply IH].
    + destruct H1 as [Hitem H1]. split; [done | by apply IH].
    + by apply IH.
    + destruct H1 as [Hitem H1]. split; [done | by apply IH].
    + destruct H1 as [Hitem H1]. split; [done | by apply IH].
Qed.

Section TouchFacts.

Variable Hash : string → string.
Variable OpenShiftConfigNamespace : string.
Context {W : Type} (h : handler W).

Lemma deleteRolesAfterFirst_touches (i : nat) (items : list Role) (w : W)
    (roles : list Role) (bindings : list RoleBinding) :
  items ⊆ roles →
  touchesOnlyListed roles bindings
    (trace_of (run h (deleteRolesAfterFirst i items) w)).
Proof.
  revert i w. induction items as [| item items IH]; intros i w Hsub; [done |].
  assert (Hitems : items ⊆ roles) by (intros y Hy; apply Hsub; by right).
  assert (Hitem : item ∈ roles) by (apply Hsub; left).
  cbn [deleteRolesAfterFirst]. case_decide; [by apply IH |]. run_step.
  destruct (h (ClientDeleteRole item) w) as [err w1].
  specialize (IH (S i) w1 Hitems).
  destruct err as [[| |msg] |]; run_step;
    try destruct (run h (deleteRolesAfterFirst (S i) items) w1) as [[res t] w2];
    out_simpl; cbn [touchesOnlyListed Event]; auto.
Qed.

Lemma deleteRoleBindingsAfterFirst_touches
    (i : nat) (items : list RoleBinding) (w : W)
    (roles : list Role) (bindings : list RoleBinding) :
  items ⊆ bindings →
  touchesOnlyListed roles bindings
    (trace_of (run h (deleteRoleBindingsAfterFirst i items) w)).
Proof.
  revert i w. induction items as [| item items IH]; intros i w Hsub; [done |].
  assert (Hitems : items ⊆ bindings) by (intros y Hy; apply Hsub; by right).
  assert (Hitem : item ∈ bindings) by (apply Hsub; left).
  cbn [deleteRoleBindingsAfterFirst]. case_decide; [by apply IH |]. run_step.
  destruct (h (ClientDeleteRoleBinding item) w) as [err w1].
  specialize (IH (S i) w1 Hitems).
  destruct err as [[| |msg] |]; run_step;
    try destruct (run h (deleteRoleBindingsAfterFirst (S i) items) w1)
      as [[res t] w2];
    out_simpl; cbn [touchesOnlyListed Event]; auto.
Qed.

Lemma deleteOrphanedRoles_touches
    (hashes : gset string) (items : list Role) (w : W)
    (roles : list Role) (bindings : list RoleBinding) :
  items ⊆ roles →
  touchesOnlyListed roles bindings
    (trace_of (run h (deleteOrphanedRoles hashes items) w)).
Proof.
  revert w. induction items as [| item items IH]; intros w Hsub; [done |].
  assert (Hitems : items ⊆ roles) by (intros y Hy; apply Hsub; by right).
  assert (Hitem : item ∈ roles) by (apply Hsub; left).
  cbn [deleteOrphanedRoles].
  destruct (Role_GetLabels item !! componentRouteHashLabelKey); [| done].
  case_decide; [by apply IH |]. run_step.
  destruct (h (ClientDeleteRole item) w) as [err w1].
  specialize (IH w1 Hitems).
  destruct err as [[| |msg] |]; run_step;
    try destruct (run h (deleteOrphanedRoles hashes items) w1) as [[res t] w2];
    out_simpl; cbn [touchesOnlyListed Event]; auto.
Qed.

Lemma deleteOrphanedRoleBindings_touches
    (hashes : gset string) (items : list RoleBinding) (w : W)
    (roles : list Role) (bindings : list RoleBinding) :
  items ⊆ bindings →
  touchesOnlyListed roles bindings
    (trace_of (run h (deleteOrphanedRoleBindings hashes items) w)).
Proof.
  revert w. induction items as [| item items IH]; intros w Hsub; [done |].
  assert (Hitems : items ⊆ bindings) by (intros y Hy; apply Hsub; by right).
  assert (Hitem : item ∈ bindings) by (apply Hsub; left).
  cbn [deleteOrphanedRoleBindings].
  destruct (RoleBinding_GetLabels item !! componentRouteHashLabelKey); [| done].
  case_decide; [by apply IH |]. run_step.
  destruct (h (ClientDeleteRoleBinding item) w) as [err w1].
  specialize (IH w1 Hitems).
  destruct err as [[| |msg] |]; run_step;
    try destruct (run h (deleteOrphanedRoleBindings hashes items) w1)
      as [[res t] w2];
    out_simpl; cbn [touchesOnlyListed Event]; auto.
Qed.

Lemma ensureServiceCertKeyPairSecretRole_touches
    (r : reconciler) (cr : aggregatedComponentRoute) (w : W)
    (roles : list Role) (bindings : list RoleBinding) :
  touchesOnlyListed roles bindings
    (trace_of (run h (ensureServiceCertKeyPairSecretRole
                        OpenShiftConfigNamespace r cr) w)).
Proof.
  unfold ensureServiceCertKeyPairSecretRole. run_step.
  destruct (h (CacheListRoles (componentRouteResources OpenShiftConfigNamespace cr)) w)
    as [[items err] w1].
  destruct err as [e |]; [by run_step |].
  destruct items as [| first rest].
  - run_step. destruct (h (ClientCreateRole (desiredRole r cr)) w1) as [[role' err] w2].
    by destruct err; run_step.
  - cbn [deleteRolesAfterFirst]. rewrite decide_True by done.
    run_split (deleteRolesAfterFirst 1 rest) err t w2.
    pose proof (deleteRolesAfterFirst_touches 1 rest w1
                  (roles ++ first :: rest) bindings) as Hloop.
    rewrite Heqp in Hloop. out_simpl.
    assert (Ht : touchesOnlyListed (roles ++ first :: rest) bindings t).
    { apply Hloop. intros y Hy. apply elem_of_app. right. by right. }
    destruct err as [e |]; run_step.
    { cbn [trace_of fst snd touchesOnlyListed Event]. by rewrite app_nil_r. }
    destruct (h (ClientUpdateRole
                   (Role_setRules first (Role_Rules (desiredRole r cr)))) w2)
      as [[updated err] w3].
    destruct err; run_step; cbn [trace_of fst snd touchesOnlyListed Event];
      (apply touchesOnlyListed_app; [done |]);
      intros roles' bindings' Hr Hb; cbn [touchesOnlyListed Event];
      (split; [| done]); exists first; (split; [| done]);
      apply Hr, elem_of_app; right; left.
Qed.

Lemma ensureServiceCertKeyPairSecretRoleBinding_touches
    (r : reconciler) (cr : aggregatedComponentRoute) (roleName : string) (w : W)
    (roles : list Role) (bindings : list RoleBinding) :
  touchesOnlyListed roles bindings
    (trace_of (run h (ensureServiceCertKeyPairSecretRoleBinding
                        OpenShiftConfigNamespace r cr roleName) w)).
Proof.
  unfold ensureServiceCertKeyPairSecretRoleBinding. run_step.
  destruct (h (CacheListRoleBindings
                 (componentRouteResources OpenShiftConfigNamespace cr)) w)
    as [[items err] w1].
  destruct err as [e |]; [by run_step |].
  destruct items as [| first rest].
  - run_step.
    destruct (h (ClientCreateRoleBinding (desiredRoleBinding r cr roleName)) w1)
      as [[created err] w2].
    by run_step.
  - cbn [deleteRoleBindingsAfterFirst]. rewrite decide_True by done.
    run_split (deleteRoleBindingsAfterFirst 1 rest) err t w2.
    pose proof (deleteRoleBindingsAfterFirst_touches 1 rest w1
                  roles (bindings ++ first :: rest)) as Hloop.
    rewrite Heqp in Hloop. out_simpl.
    assert (Ht : touchesOnlyListed roles (bindings ++ first :: rest) t).
    { apply Hloop. intros y Hy. apply elem_of_app. right. by right. }
    destruct err as [e |]; run_step.
    { cbn [trace_of fst snd touchesOnlyListed Event]. by rewrite app_nil_r. }
    cbn [desiredRoleBinding RoleBinding_Subjects RoleBinding_RoleRef].
    destruct (h (ClientUpdateRoleBinding
                   (RoleBinding_setSubjectsRoleRef first
                      (subjectsOf (aggregatedComponentRoute_ConsumingUsers cr))
                      (roleRefTo roleName))) w2)
      as [[updated err] w3].
    run_step; cbn [trace_of fst snd touchesOnlyListed Event];
      (apply touchesOnlyListed_app; [done |]);
      intros roles' bindings' Hr Hb; cbn [touchesOnlyListed Event];
      (split; [| done]); exists first; (split; [| done]);
      apply Hb, elem_of_app; right; left.
Qed.

Lemma ensureComponentRoutes_touches
    (r : reconciler) (componentRoutes : list aggregatedComponentRoute) (w : W)
    (roles : list Role) (bindings : list RoleBinding) :
  touchesOnlyListed roles bindings
    (trace_of (run h (ensureComponentRoutes
                        OpenShiftConfigNamespace r componentRoutes) w)).
Proof.
  revert w roles bindings.
  induction componentRoutes as [| cr rest IH]; intros w roles bindings; [done |].
  rewrite run_ensureComponentRoutes_cons. cbv zeta.
  pose proof (ensureServiceCertKeyPairSecretRole_touches r cr w roles bindings)
    as Hrole.
  destruct (run h (ensureServiceCertKeyPairSecretRole OpenShiftConfigNamespace r cr) w)
    as [[[roleName err] t] w1].
  cbn [result_of trace_of world_of fst snd] in *.
  destruct err as [e |]; cbn [trace_of fst snd]; [done |].
  pose proof (ensureServiceCertKeyPairSecretRoleBinding_touches r cr roleName w1)
    as Hbinding.
  destruct (run h (ensureServiceCertKeyPairSecretRoleBinding
                     OpenShiftConfigNamespace r cr roleName) w1)
    as [[err t'] w2].
  cbn [result_of trace_of world_of fst snd] in *.
  destruct err as [e |]; cbn [trace_of fst snd].
  - apply touchesOnlyListed_app; [done |]. intros. apply Hbinding.
  - apply touchesOnlyListed_app; [done |]. intros.
    apply touchesOnlyListed_app; [apply Hbinding |]. intros. apply IH.
Qed.

Lemma cleanupOrphanedResources_touches
    (componentRoutes : list aggregatedComponentRoute) (w : W)
    (roles : list Role) (bindings : list RoleBinding) :
  touchesOnlyListed roles bindings
    (trace_of (run h (cleanupOrphanedResources
                        OpenShiftConfigNamespace componentRoutes) w)).
Proof.
  rewrite run_cleanupOrphanedResources. cbv zeta.
  destruct (h (CacheListRoles _) w) as [[roleList e1] w1]. cbn [fst snd].
  pose proof (deleteOrphanedRoles_touches
                (existingHashes componentRoutes) roleList w1
                (roles ++ roleList) bindings) as Hroles.
  destruct (run h (deleteOrphanedRoles _ roleList) w1) as [[err t] w2].
  cbn [result_of trace_of world_of fst snd] in *.
  assert (Ht : touchesOnlyListed (roles ++ roleList) bindings t).
  { apply Hroles. intros y Hy. apply elem_of_app. by right. }
  destruct err as [e |]; cbn [trace_of fst snd touchesOnlyListed Event]; [done |].
  destruct (h (CacheListRoleBindings _) w2) as [[bindingList e2] w3].
  cbn [fst snd].
  pose proof (deleteOrphanedRoleBindings_touches
                (existingHashes componentRoutes) bindingList w3) as Hbindings.
  destruct (run h (deleteOrphanedRoleBindings _ bindingList) w3)
    as [[err' t'] w4].
  cbn [result_of trace_of world_of fst snd touchesOnlyListed Event] in *.
  apply touchesOnlyListed_app; [done |].
  intros roles' bindings' Hr Hb. cbn [touchesOnlyListed Event fst].
  apply Hbindings. intros y Hy. apply elem_of_app. by right.
Qed.

End TouchFacts.

(** Whatever the collaborator answers, [Reconcile] deletes and updates
    only what it was handed: every role (role binding) it deletes is an
    object that an earlier list call of the same run handed back, and
    every one it updates is such an object under the metadata it was
    listed with. *)
Theorem Reconcile_touches_only_listed
    (Hash : string → string) (OpenShiftConfigNamespace : string)
    (W : Type) (h : handler W) (r : reconciler) (req : Request) (w : W) :
  touchesOnlyListed [] []
    (trace_of (run h (Reconcile Hash OpenShiftConfigNamespace r req) w)).
Proof.
  destruct (h (CacheGetIngress (Request_NamespacedName req)) w)
    as [[ingress [e |]] w1] eqn:Hget.
  { by rewrite (run_Reconcile_fetch_failed _ _ _ _ _ _ _ _ _ Hget). }
  rewrite (run_Reconcile_fetched _ _ _ _ _ _ _ _ Hget). cbv zeta.
  set (componentRoutes := intersectingComponentRoutes Hash _ _).
  pose proof (ensureComponentRoutes_touches
                OpenShiftConfigNamespace h r componentRoutes w1 [] []) as Hloop.
  destruct (run h (ensureComponentRoutes _ r componentRoutes) w1)
    as [[res t] w2].
  cbn [result_of trace_of world_of fst snd] in *.
  destruct res as [res |]; cbn [trace_of fst snd touchesOnlyListed Event]; [done |].
  apply touchesOnlyListed_app; [done |]. intros.
  apply cleanupOrphanedResources_touches.
Qed.

(** ** Targets without a match *)

(** When no role (role binding) matches the target, convergence makes one
    create call with the desired object and nothing else.  The role step
    returns the name the created role came back with; an error of the
    create call, AlreadyExists included, is returned as it is. *)
Theorem no_match_is_created
    (OpenShiftConfigNamespace : string) (W : Type) (h : handler W)
    (r : reconciler) (cr : aggregatedComponentRoute) (roleName : string)
    (w w1 w' w1' : W) :
  h (CacheListRoles (componentRouteResources OpenShiftConfigNamespace cr)) w
    = (([], None), w1) →
  h (CacheListRoleBindings (componentRouteResources OpenShiftConfigNamespace cr)) w'
    = (([], None), w1') →
  let role := run h (ensureServiceCertKeyPairSecretRole
                       OpenShiftConfigNamespace r cr) w in
  let binding := run h (ensureServiceCertKeyPairSecretRoleBinding
                          OpenShiftConfigNamespace r cr roleName) w' in
  let created := h (ClientCreateRole (desiredRole r cr)) w1 in
  let createdBinding :=
    h (ClientCreateRoleBinding (desiredRoleBinding r cr roleName)) w1' in
  trace_of role =
    [ Event (CacheListRoles (componentRouteResources OpenShiftConfigNamespace cr))
            ([], None);
      Event (ClientCreateRole (desiredRole r cr)) created.1 ]
  ∧ result_of role = match created.1.2 with
                     | Some e => ("", Some (FromAPI e))
                     | None => (Role_GetName created.1.1, None)
                     end
  ∧ trace_of binding =
      [ Event (CacheListRoleBindings
                 (componentRouteResources OpenShiftConfigNamespace cr)) ([], None);
        Event (ClientCreateRoleBinding (desiredRoleBinding r cr roleName))
              createdBinding.1 ]
  ∧ result_of binding = FromAPI <$> createdBinding.1.2.
Proof.
  intros Hroles Hbindings. cbv zeta.
  unfold ensureServiceCertKeyPairSecretRole,
    ensureServiceCertKeyPairSecretRoleBinding.
  run_step. rewrite Hroles, Hbindings. run_step.
  destruct (h (ClientCreateRole (desiredRole r cr)) w1) as [[role' err] w2].
  destruct (h (ClientCreateRoleBinding (desiredRoleBinding r cr roleName)) w1')
    as [[binding' err'] w2'].
  destruct err, err'; run_step; done.
Qed.

Lemma no_match_is_created_witness :
  let cr := targetFoo in
  result_of (run fakeClient
               (ensureServiceCertKeyPairSecretRole configNamespace theReconciler cr)
               clusterFooBar) = ("foo-0", None)
  ∧ result_of (run fakeClient
                 (ensureServiceCertKeyPairSecretRoleBinding
                    configNamespace theReconciler cr "foo-0")
                 clusterFooBar) = None.
Proof.
  destruct (no_match_is_created configNamespace cluster fakeClient theReconciler
              targetFoo "foo-0" clusterFooBar clusterFooBar clusterFooBar
              clusterFooBar eq_refl eq_refl) as (_ & Hrole & _ & Hbinding).
  split; [exact Hrole | exact Hbinding].
Defined.

(** ** Created objects and the list options *)

Lemma matchesOption_hash (meta : ObjectMeta) (hash : string) :
  ObjectMeta_Labels meta = {[ componentRouteHashLabelKey := hash ]} →
  matchesOption meta (MatchingLabels {[ componentRouteHashLabelKey := hash ]}) = true
  ∧ matchesOption meta (HasLabels [componentRouteHashLabelKey]) = true.
Proof.
  intros Hlabels. unfold matchesOption, forallb. rewrite Hlabels. split.
  - apply bool_decide_eq_true. apply map_Forall_singleton.
    apply lookup_singleton_eq.
  - rewrite lookup_singleton_eq. apply andb_true_intro. split; [| reflexivity].
    apply bool_decide_eq_true. eexists. reflexivity.
Qed.

Lemma desiredRole_Labels (r : reconciler) (cr : aggregatedComponentRoute) :
  ObjectMeta_Labels (Role_ObjectMeta (desiredRole r cr))
  = {[ componentRouteHashLabelKey := aggregatedComponentRoute_Hash cr ]}.
Proof. reflexivity. Qed.

Lemma desiredRoleBinding_Labels
    (r : reconciler) (cr : aggregatedComponentRoute) (roleName : string) :
  ObjectMeta_Labels (RoleBinding_ObjectMeta (desiredRoleBinding r cr roleName))
  = {[ componentRouteHashLabelKey := aggregatedComponentRoute_Hash cr ]}.
Proof. reflexivity. Qed.

(** An object that the controller creates for a target is selected by the
    list options of that target and by those of the garbage collector
    alike if, and only if, the namespace the reconciler is configured with
    is the namespace the list options name.  (A list option selects an
    object that has every label of [MatchingLabels], every key of
    [HasLabels] and the namespace of [InNamespace].) *)
Theorem created_objects_are_listed
    (OpenShiftConfigNamespace : string) (r : reconciler)
    (cr : aggregatedComponentRoute) (roleName : string) :
  let configured :=
    bool_decide (Config_SecretNamespace (reconciler_config r)
                 = OpenShiftConfigNamespace) in
  let role := Role_ObjectMeta (desiredRole r cr) in
  let binding := RoleBinding_ObjectMeta (desiredRoleBinding r cr roleName) in
  matchesOptions (componentRouteResources OpenShiftConfigNamespace cr) role
    = configured
  ∧ matchesOptions (allComponentRouteResources OpenShiftConfigNamespace) role
    = configured
  ∧ matchesOptions (componentRouteResources OpenShiftConfigNamespace cr) binding
    = configured
  ∧ matchesOptions (allComponentRouteResources OpenShiftConfigNamespace) binding
    = configured.
Proof.
  cbv zeta.
  destruct (matchesOption_hash _ _ (desiredRole_Labels r cr)) as [Hr1 Hr2].
  destruct (matchesOption_hash _ _ (desiredRoleBinding_Labels r cr roleName))
    as [Hb1 Hb2].
  unfold matchesOptions, componentRouteResources, allComponentRouteResources.
  cbn [forallb]. rewrite Hr1, Hr2, Hb1, Hb2.
  cbn [matchesOption andb]. rewrite !andb_true_r.
  repeat split; reflexivity.
Qed.

(** ** The earlier revision of the controller *)

Lemma legacy_run_bind {W A B} (h : Legacy.handler W) (p : Legacy.prog A)
    (f : A → Legacy.prog B) (w : W) :
  Legacy.run h (p ≫= f) w =
    let '(a, t, w1) := Legacy.run h p w in
    let '(b, t', w2) := Legacy.run h (f a) w1 in
    (b, t ++ t', w2).
Proof.
  revert w. induction p as [a | q k IH]; intros w.
  - simpl. destruct (Legacy.run h (f a) w) as [[b t'] w2]. done.
  - change (Legacy.run h (Legacy.Call q k ≫= f) w)
      with (let '(x, w1) := h q w in
            let '(a, t, w2) := Legacy.run h (k x ≫= f) w1 in
            (a, Legacy.Event q x :: t, w2)).
    simpl. destruct (h q w) as [x w1]. rewrite IH.
    destruct (Legacy.run h (k x) w1) as [[a t] w2].
    destruct (Legacy.run h (f a) w2) as [[b t'] w3]. done.
Qed.

Ltac legacy_step :=
  cbn [Legacy.run mbind Legacy.prog_mbind Legacy.prog_bind Legacy.call mret
       Legacy.prog_ret IsNotFound IsAlreadyExists negb].

Ltac legacy_split p a t w :=
  rewrite (legacy_run_bind _ p); destruct (Legacy.run _ p _) as [[a t] w] eqn:?.

Lemma legacy_lookup_snoc (D : list ComponentRouteSpec) (d : ComponentRouteSpec)
    (tuple : Legacy.componentRouteTuple) :
  Legacy.componentRouteTupleToSecretName (D ++ [d]) !! tuple =
    if decide (Legacy.specTuple d = tuple)
    then Some (SecretNameReference_Name (ComponentRouteSpec_ServingCertKeyPairSecret d))
    else Legacy.componentRouteTupleToSecretName D !! tuple.
Proof.
  unfold Legacy.componentRouteTupleToSecretName. rewrite foldl_app. simpl.
  by rewrite lookup_insert.
Qed.

Lemma legacy_secret_of_last_desired_lookup
    (D : list ComponentRouteSpec) (s : ComponentRouteStatus) :
  Legacy.componentRouteTupleToSecretName D !! Legacy.statusTuple s =
    (λ d, SecretNameReference_Name (ComponentRouteSpec_ServingCertKeyPairSecret d))
      <$> last (filter (λ d, sameIdentity d s) D).
Proof.
  induction D as [| d D IH] using rev_ind; [done |].
  rewrite legacy_lookup_snoc, filter_app, filter_cons, filter_nil.
  assert (Hiff : Legacy.specTuple d = Legacy.statusTuple s ↔ sameIdentity d s).
  { unfold Legacy.specTuple, Legacy.statusTuple, sameIdentity.
    split; [by intros [= -> ->] | by intros [-> ->]]. }
  case_decide as Ht; case_decide as Hs; try tauto.
  - by rewrite last_snoc.
  - by rewrite app_nil_r.
Qed.

(** The earlier revision joins on the pair itself: an observed entry finds
    the serving secret of the last desired entry that has its namespace
    and its name, and none when no desired entry has both. *)
Theorem legacy_secret_of_last_desired
    (D : list ComponentRouteSpec) (s : ComponentRouteStatus) :
  Legacy.componentRouteTupleToSecretName D !! Legacy.statusTuple s =
    (λ d, SecretNameReference_Name (ComponentRouteSpec_ServingCertKeyPairSecret d))
      <$> last (filter (λ d, sameIdentity d s) D).
Proof. apply legacy_secret_of_last_desired_lookup. Qed.

Section LegacyFacts.

Context {W : Type} (h : Legacy.handler W).

Lemma legacy_ensureRole_ok (r : reconciler) (crName secretName : string) (w : W) :
  let o := Legacy.run h (Legacy.ensureServiceCertKeyPairSecretRole
                           r crName secretName) w in
  Forall legacy_ok o.1.2 →
  o.1.1 = None ∧
  Legacy.requests o.1.2 = [Legacy.ClientCreateRole (Legacy.desiredRole r crName secretName)].
Proof.
  cbv zeta. unfold Legacy.ensureServiceCertKeyPairSecretRole. legacy_step.
  destruct (h (Legacy.ClientCreateRole _) w) as [[role [e |]] w1].
  - destruct (negb (IsAlreadyExists e)); legacy_step.
    + intros [Hhead _]%Forall_cons. discriminate Hhead.
    + destruct (h (Legacy.ClientGetRole _) w1) as [[existing [e' |]] w2];
        legacy_step; [| destruct (h (Legacy.ClientUpdateRole _) w2) as [[? ?] ?]];
        intros [Hhead _]%Forall_cons; discriminate Hhead.
  - legacy_step. done.
Qed.

Lemma legacy_ensureRoleBinding_ok
    (r : reconciler) (roleName : string) (users : list string) (w : W) :
  let o := Legacy.run h (Legacy.ensureServiceCertKeyPairSecretRoleBinding
                           r roleName users) w in
  Forall legacy_ok o.1.2 →
  o.1.1 = None ∧
  Legacy.requests o.1.2
  = [Legacy.ClientCreateRoleBinding (Legacy.desiredRoleBinding r roleName users)].
Proof.
  cbv zeta. unfold Legacy.ensureServiceCertKeyPairSecretRoleBinding. legacy_step.
  destruct (h (Legacy.ClientCreateRoleBinding _) w) as [[role [e |]] w1].
  - destruct (negb (IsAlreadyExists e)); legacy_step.
    + intros [Hhead _]%Forall_cons. discriminate Hhead.
    + destruct (h (Legacy.ClientGetRoleBinding _) w1) as [[existing [e' |]] w2];
        legacy_step;
        [| destruct (h (Legacy.ClientUpdateRoleBinding _) w2) as [[? ?] ?]];
        intros [Hhead _]%Forall_cons; discriminate Hhead.
  - legacy_step. done.
Qed.

Lemma legacy_deleteRole_ok (r : reconciler) (name : string) (w : W) :
  let o := Legacy.run h (Legacy.deleteServiceKeyPairSecretRole r name) w in
  Forall legacy_ok o.1.2 →
  o.1.1 = None ∧
  Legacy.requests o.1.2 = [Legacy.ClientDeleteRole (Legacy.namedRole r name)].
Proof.
  cbv zeta. unfold Legacy.deleteServiceKeyPairSecretRole. legacy_step.
  destruct (h (Legacy.ClientDeleteRole _) w) as [[e |] w1].
  - destruct e; legacy_step; intros [Hhead _]%Forall_cons; discriminate Hhead.
  - legacy_step. done.
Qed.

Lemma legacy_deleteRoleBinding_ok (r : reconciler) (name : string) (w : W) :
  let o := Legacy.run h (Legacy.deleteServiceKeyPairSecretRoleBinding r name) w in
  Forall legacy_ok o.1.2 →
  o.1.1 = None ∧
  Legacy.requests o.1.2
  = [Legacy.ClientDeleteRoleBinding (Legacy.namedRoleBinding r name)].
Proof.
  cbv zeta. unfold Legacy.deleteServiceKeyPairSecretRoleBinding. legacy_step.
  destruct (h (Legacy.ClientDeleteRoleBinding _) w) as [[e |] w1].
  - destruct e; legacy_step; intros [Hhead _]%Forall_cons; discriminate Hhead.
  - legacy_step. done.
Qed.

Lemma legacy_loop_ok (r : reconciler)
    (secretNames : gmap Legacy.componentRouteTuple string)
    (statuses : list ComponentRouteStatus) (w : W) :
  let o := Legacy.run h (Legacy.reconcileComponentRoutes r secretNames statuses) w in
  Forall legacy_ok o.1.2 →
  o.1.1 = None ∧
  Legacy.requests o.1.2 = statuses ≫= Legacy.plan r secretNames.
Proof.
  cbv zeta. revert w. induction statuses as [| s rest IH]; intros w; [done |].
  cbn [Legacy.reconcileComponentRoutes].
  rewrite bind_cons. unfold Legacy.plan at 1.
  destruct (secretNames !! Legacy.statusTuple s) as [secretName |].
  - legacy_split (Legacy.ensureServiceCertKeyPairSecretRole r
                    (ComponentRouteStatus_Name s) secretName) err t w1.
    pose proof (legacy_ensureRole_ok r (ComponentRouteStatus_Name s) secretName w)
      as Hrole.
    rewrite Heqp in Hrole. cbn [fst snd] in Hrole.
    destruct err as [e |].
    { legacy_step. cbn [fst snd]. rewrite app_nil_r.
      intros Hok. by destruct (Hrole Hok). }
    legacy_split (Legacy.ensureServiceCertKeyPairSecretRoleBinding r
                    (ComponentRouteStatus_Name s)
                    (ComponentRouteStatus_ConsumingUsers s)) err' t' w2.
    pose proof (legacy_ensureRoleBinding_ok r (ComponentRouteStatus_Name s)
                  (ComponentRouteStatus_ConsumingUsers s) w1) as Hbinding.
    rewrite Heqp0 in Hbinding. cbn [fst snd] in Hbinding.
    specialize (IH w2).
    destruct err' as [e |].
    { legacy_step. cbn [fst snd]. rewrite app_nil_r.
      intros [_ Hok]%Forall_app. by destruct (Hbinding Hok). }
    destruct (Legacy.run h (Legacy.reconcileComponentRoutes r secretNames rest) w2)
      as [[res t''] w3].
    cbn [fst snd] in *.
    intros [Hok [Hok' Hok'']%Forall_app]%Forall_app.
    destruct (Hrole Hok) as [_ Hr], (Hbinding Hok') as [_ Hb],
      (IH Hok'') as [-> Hl].
    split; [done |]. unfold Legacy.requests, Legacy.event in *.
    by rewrite !map_app, Hr, Hb, Hl.
  - legacy_split (Legacy.deleteServiceKeyPairSecretRole r
                    (ComponentRouteStatus_Name s)) err t w1.
    pose proof (legacy_deleteRole_ok r (ComponentRouteStatus_Name s) w) as Hrole.
    rewrite Heqp in Hrole. cbn [fst snd] in Hrole.
    destruct err as [e |].
    { legacy_step. cbn [fst snd]. rewrite app_nil_r.
      intros Hok. by destruct (Hrole Hok). }
    legacy_split (Legacy.deleteServiceKeyPairSecretRoleBinding r
                    (ComponentRouteStatus_Name s)) err' t' w2.
    pose proof (legacy_deleteRoleBinding_ok r (ComponentRouteStatus_Name s) w1)
      as Hbinding.
    rewrite Heqp0 in Hbinding. cbn [fst snd] in Hbinding.
    specialize (IH w2).
    destruct err' as [e |].
    { legacy_step. cbn [fst snd]. rewrite app_nil_r.
      intros [_ Hok]%Forall_app. by destruct (Hbinding Hok). }
    destruct (Legacy.run h (Legacy.reconcileComponentRoutes r secretNames rest) w2)
      as [[res t''] w3].
    cbn [fst snd] in *.
    intros [Hok [Hok' Hok'']%Forall_app]%Forall_app.
    destruct (Hrole Hok) as [_ Hr], (Hbinding Hok') as [_ Hb],
      (IH Hok'') as [-> Hl].
    split; [done |]. unfold Legacy.requests, Legacy.event in *.
    by rewrite !map_app, Hr, Hb, Hl.
Qed.

Lemma legacy_run_plan (r : reconciler) (req : Request) (w : W) :
  let o := Legacy.run h (Legacy.Reconcile r req) w in
  Forall legacy_ok o.1.2 →
  ∃ ingress,
    (h (Legacy.ClientGetIngress (Request_NamespacedName req)) w).1 = (ingress, None)
    ∧ o.1.1 = ({| Result_Requeue := false |}, None)
    ∧ Legacy.requests o.1.2 =
        Legacy.ClientGetIngress (Request_NamespacedName req)
          :: (IngressStatus_ComponentRoutes (Ingress_Status ingress)
                ≫= Legacy.plan r
                     (Legacy.componentRouteTupleToSecretName
                        (IngressSpec_ComponentRoutes (Ingress_Spec ingress)))).
Proof.
  cbv zeta. unfold Legacy.Reconcile. legacy_step.
  destruct (h (Legacy.ClientGetIngress (Request_NamespacedName req)) w)
    as [[ingress [e |]] w1].
  { destruct e; legacy_step; intros [Hhead _]%Forall_cons; discriminate Hhead. }
  pose proof (legacy_loop_ok r
                (Legacy.componentRouteTupleToSecretName
                   (IngressSpec_ComponentRoutes (Ingress_Spec ingress)))
                (IngressStatus_ComponentRoutes (Ingress_Status ingress)) w1) as Hloop.
  cbv zeta in Hloop.
  rewrite (legacy_run_bind h (Legacy.reconcileComponentRoutes _ _ _)).
  destruct (Legacy.run h (Legacy.reconcileComponentRoutes _ _ _) w1)
    as [[res t] w2].
  cbn [fst snd] in *.
  destruct res as [res |]; legacy_step; cbn [fst snd]; rewrite app_nil_r;
    intros [_ Hok]%Forall_cons; destruct (Hloop Hok) as [Hres Hreq]; [done |].
  exists ingress. split; [done |]. split; [done |].
  cbn [Legacy.requests map projT1 Legacy.Event]. f_equal. exact Hreq.
Qed.

End LegacyFacts.

(** In the earlier revision, a run of [Reconcile] in which every call goes
    through follows the observed list: after fetching the ingress it
    creates, for each observed entry in order, the role and the role
    binding named after the entry when a desired entry has its namespace
    and name, and deletes the role and the role binding of that name when
    none has; it returns no error and asks for no requeue.  A desired entry
    that is not observed causes no call. *)
Theorem legacy_Reconcile_follows_observed
    (W : Type) (h : Legacy.handler W) (r : reconciler) (req : Request) (w : W) :
  let o := Legacy.run h (Legacy.Reconcile r req) w in
  Forall (λ e, Legacy.event_error e = None) o.1.2 →
  ∃ ingress,
    (h (Legacy.ClientGetIngress (Request_NamespacedName req)) w).1 = (ingress, None)
    ∧ o.1.1 = ({| Result_Requeue := false |}, None)
    ∧ Legacy.requests o.1.2 =
        Legacy.ClientGetIngress (Request_NamespacedName req)
          :: (IngressStatus_ComponentRoutes (Ingress_Status ingress)
                ≫= Legacy.plan r
                     (Legacy.componentRouteTupleToSecretName
                        (IngressSpec_ComponentRoutes (Ingress_Spec ingress)))).
Proof. apply legacy_run_plan. Qed.

Lemma legacy_Reconcile_follows_observed_witness :
  Legacy.requests
    (Legacy.run (Legacy.cannedClient legacyObliging)
       (Legacy.Reconcile theReconciler requestCluster) tt).1.2
  = [ Legacy.ClientGetIngress (Request_NamespacedName requestCluster);
      Legacy.ClientCreateRole (Legacy.desiredRole theReconciler "foo" "foo-secret");
      Legacy.ClientCreateRoleBinding
        (Legacy.desiredRoleBinding theReconciler "foo" ["foo"; "bar"]);
      Legacy.ClientDeleteRole (Legacy.namedRole theReconciler "foo");
      Legacy.ClientDeleteRoleBinding (Legacy.namedRoleBinding theReconciler "foo") ].
Proof.
  destruct (legacy_Reconcile_follows_observed unit
              (Legacy.cannedClient legacyObliging) theReconciler requestCluster tt)
    as (ingress & Hget & _ & Hrequests).
  - vm_compute. repeat constructor.
  - rewrite Hrequests. injection Hget as <-. vm_compute. reflexivity.
Defined.

(** In the earlier revision the role and the role binding of an entry are
    named after the entry's name alone, in the configured namespace: when
    a desired and observed entry and an observed entry that is not desired
    have the same name in two namespaces, a run in which every call goes
    through creates the role and the role binding for the first and then
    deletes the role and the role binding of the same namespace and name
    for the second. *)
Theorem legacy_names_collide
    (W : Type) (h : Legacy.handler W) (r : reconciler) (req : Request) (w w1 : W)
    (ingress : Ingress) (d : ComponentRouteSpec) (s1 s2 : ComponentRouteStatus) :
  h (Legacy.ClientGetIngress (Request_NamespacedName req)) w = ((ingress, None), w1) →
  IngressSpec_ComponentRoutes (Ingress_Spec ingress) = [d] →
  IngressStatus_ComponentRoutes (Ingress_Status ingress) = [s1; s2] →
  sameIdentity d s1 →
  ComponentRouteStatus_Name s2 = ComponentRouteStatus_Name s1 →
  ComponentRouteStatus_Namespace s2 ≠ ComponentRouteStatus_Namespace s1 →
  let o := Legacy.run h (Legacy.Reconcile r req) w in
  let name := ComponentRouteStatus_Name s1 in
  let role :=
    Legacy.desiredRole r name
      (SecretNameReference_Name (ComponentRouteSpec_ServingCertKeyPairSecret d)) in
  let binding :=
    Legacy.desiredRoleBinding r name (ComponentRouteStatus_ConsumingUsers s1) in
  Forall (λ e, Legacy.event_error e = None) o.1.2 →
  Legacy.requests o.1.2 =
    [ Legacy.ClientGetIngress (Request_NamespacedName req);
      Legacy.ClientCreateRole role;
      Legacy.ClientCreateRoleBinding binding;
      Legacy.ClientDeleteRole (Legacy.namedRole r name);
      Legacy.ClientDeleteRoleBinding (Legacy.namedRoleBinding r name) ]
  ∧ objectKey (Role_ObjectMeta (Legacy.namedRole r name))
    = objectKey (Role_ObjectMeta role)
  ∧ objectKey (RoleBinding_ObjectMeta (Legacy.namedRoleBinding r name))
    = objectKey (RoleBinding_ObjectMeta binding)
  ∧ o.1.1 = ({| Result_Requeue := false |}, None).
Proof.
  intros Hget HD HS Hid Hname Hns o name role binding Hok.
  destruct (legacy_run_plan h r req w Hok) as (ingress' & Hget' & Hres & Hreq).
  rewrite Hget in Hget'. injection Hget' as <-.
  rewrite HD, HS in Hreq.
  pose proof (legacy_secret_of_last_desired_lookup [d] s1) as H1.
  pose proof (legacy_secret_of_last_desired_lookup [d] s2) as H2.
  rewrite filter_cons_True, filter_nil in H1 by done.
  rewrite filter_cons_False, filter_nil in H2.
  2:{ intros [Hns2 _]. destruct Hid as [Hns1 _]. congruence. }
  cbn [last fmap option_fmap option_map] in H1, H2.
  rewrite !bind_cons in Hreq.
  change (@nil ComponentRouteStatus ≫= Legacy.plan r _)
    with (@nil Legacy.request) in Hreq.
  unfold Legacy.plan in Hreq. rewrite H1, H2 in Hreq. rewrite Hname in Hreq.
  split; [exact Hreq |]. done.
Qed.

Lemma legacy_names_collide_witness :
  Legacy.requests
    (Legacy.run (Legacy.cannedClient legacyObliging)
       (Legacy.Reconcile theReconciler requestCluster) tt).1.2 =
    [ Legacy.ClientGetIngress (Request_NamespacedName requestCluster);
      Legacy.ClientCreateRole (Legacy.desiredRole theReconciler "foo" "foo-secret");
      Legacy.ClientCreateRoleBinding
        (Legacy.desiredRoleBinding theReconciler "foo" ["foo"; "bar"]);
      Legacy.ClientDeleteRole (Legacy.namedRole theReconciler "foo");
      Legacy.ClientDeleteRoleBinding (Legacy.namedRoleBinding theReconciler "foo") ].
Proof.
  refine (proj1 (legacy_names_collide unit (Legacy.cannedClient legacyObliging)
                   theReconciler requestCluster tt tt legacyIngress
                   (specOf "default" "foo" "foo-secret")
                   (statusOf "default" "foo" ["foo"; "bar"])
                   (statusOf "other" "foo" ["baz"])
                   eq_refl eq_refl eq_refl _ eq_refl _ _)).
  - by split.
  - discriminate.
  - vm_compute. repeat constructor.
Defined.

(** In the earlier revision, when the create call answers AlreadyExists
    the object is fetched by the namespace and name the create call left,
    and the fetched object is updated with the desired rules (the desired
    subjects and role reference) under the metadata it was fetched with;
    what the update answers is what the function returns.  An error of the
    fetch, NotFound included, is returned as it is and nothing is
    updated. *)
Theorem legacy_existing_is_updated
    (W : Type) (h : Legacy.handler W) (r : reconciler)
    (crName secretName : string) (users : list string)
    (role existing : Role) (binding existingB : RoleBinding)
    (fetched fetchedB : option api_error) (w w1 w2 w' w1' w2' : W) :
  h (Legacy.ClientCreateRole (Legacy.desiredRole r crName secretName)) w
    = ((role, Some AlreadyExistsError), w1) →
  h (Legacy.ClientGetRole
       {| NamespacedName_Namespace := Role_GetNamespace role;
          NamespacedName_Name := Role_GetName role |}) w1
    = ((existing, fetched), w2) →
  h (Legacy.ClientCreateRoleBinding (Legacy.desiredRoleBinding r crName users)) w'
    = ((binding, Some AlreadyExistsError), w1') →
  h (Legacy.ClientGetRoleBinding
       {| NamespacedName_Namespace := RoleBinding_GetNamespace binding;
          NamespacedName_Name := RoleBinding_GetName binding |}) w1'
    = ((existingB, fetchedB), w2') →
  let o := Legacy.run h (Legacy.ensureServiceCertKeyPairSecretRole
                           r crName secretName) w in
  let o' := Legacy.run h (Legacy.ensureServiceCertKeyPairSecretRoleBinding
                            r crName users) w' in
  let updated := Role_setRules existing (Role_Rules role) in
  let updatedB :=
    RoleBinding_setSubjectsRoleRef existingB
      (RoleBinding_Subjects binding) (RoleBinding_RoleRef binding) in
  Legacy.requests o.1.2 =
    Legacy.ClientCreateRole (Legacy.desiredRole r crName secretName)
      :: Legacy.ClientGetRole
           {| NamespacedName_Namespace := Role_GetNamespace role;
              NamespacedName_Name := Role_GetName role |}
      :: match fetched with
         | Some _ => []
         | None => [Legacy.ClientUpdateRole updated]
         end
  ∧ o.1.1 = match fetched with
            | Some e => Some e
            | None => (h (Legacy.ClientUpdateRole updated) w2).1.2
            end
  ∧ Legacy.requests o'.1.2 =
      Legacy.ClientCreateRoleBinding (Legacy.desiredRoleBinding r crName users)
        :: Legacy.ClientGetRoleBinding
             {| NamespacedName_Namespace := RoleBinding_GetNamespace binding;
                NamespacedName_Name := RoleBinding_GetName binding |}
        :: match fetchedB with
           | Some _ => []
           | None => [Legacy.ClientUpdateRoleBinding updatedB]
           end
  ∧ o'.1.1 = match fetchedB with
             | Some e => Some e
             | None => (h (Legacy.ClientUpdateRoleBinding updatedB) w2').1.2
             end
  ∧ Role_ObjectMeta updated = Role_ObjectMeta existing
  ∧ Role_Rules updated = Role_Rules role
  ∧ RoleBinding_ObjectMeta updatedB = RoleBinding_ObjectMeta existingB
  ∧ RoleBinding_Subjects updatedB = RoleBinding_Subjects binding
  ∧ RoleBinding_RoleRef updatedB = RoleBinding_RoleRef binding.
Proof.
  intros Hcreate Hget Hcreate' Hget'. cbv zeta.
  unfold Legacy.ensureServiceCertKeyPairSecretRole,
    Legacy.ensureServiceCertKeyPairSecretRoleBinding.
  legacy_step. rewrite Hcreate, Hcreate'. legacy_step. rewrite Hget, Hget'.
  destruct fetched as [e |], fetchedB as [e' |]; legacy_step;
    try destruct (h (Legacy.ClientUpdateRole _) w2) as [[? ?] ?];
    try destruct (h (Legacy.ClientUpdateRoleBinding _) w2') as [[? ?] ?];
    done.
Qed.

Lemma legacy_existing_is_updated_witness :
  Legacy.requests
    (Legacy.run (Legacy.cannedClient legacyExisting)
       (Legacy.ensureServiceCertKeyPairSecretRole theReconciler "foo" "foo-secret")
       tt).1.2
  = [ Legacy.ClientCreateRole (Legacy.desiredRole theReconciler "foo" "foo-secret");
      Legacy.ClientGetRole
        {| NamespacedName_Namespace := configNamespace;
           NamespacedName_Name := "foo" |};
      Legacy.ClientUpdateRole (Legacy.desiredRole theReconciler "foo" "foo-secret") ].
Proof.
  destruct (legacy_existing_is_updated unit (Legacy.cannedClient legacyExisting)
              theReconciler "foo" "foo-secret" ["foo"; "bar"]
              (Legacy.desiredRole theReconciler "foo" "foo-secret") legacyRole
              (Legacy.desiredRoleBinding theReconciler "foo" ["foo"; "bar"])
              legacyRoleBinding None None tt tt tt tt tt tt
              eq_refl eq_refl eq_refl eq_refl) as (Hrole & _).
  exact Hrole.
Defined.

Section LegacyAbortFacts.

Context {W : Type} (h : Legacy.handler W).

Lemma legacy_failsLast_app (t1 t2 : list Legacy.event) :
  Legacy.failsLast t1 → Legacy.failsLast t2 →
  (Exists Legacy.failed t1 → t2 = []) →
  Legacy.failsLast (t1 ++ t2).
Proof.
  induction t1 as [| e t1 IH]; [done |]. cbn. intros [He Ht1] Ht2 Hstop. split.
  - intros Hfailed. rewrite (He Hfailed), (Hstop (Exists_cons_hd _ _ _ Hfailed)). done.
  - apply IH; [done | done |]. intros Hex. apply Hstop. by apply Exists_cons_tl.
Qed.

Lemma legacy_failsLast_split (t1 t2 : list Legacy.event) (e : Legacy.event) :
  Legacy.failsLast (t1 ++ e :: t2) → Legacy.failed e → t2 = [].
Proof.
  induction t1 as [| e' t1 IH]; cbn; intros [He Ht] Hfailed; auto.
Qed.

Lemma legacy_not_failed_ok (q : Legacy.request) (x : Legacy.response q) :
  Legacy.event_error (Legacy.Event q x) = None →
  ¬ Legacy.failed (Legacy.Event q x).
Proof. intros Hok [[? Herr] _]. congruence. Qed.

Lemma legacy_aborts_cons {A} (err : A → Prop) (e : Legacy.event) (a : A)
    (t : list Legacy.event) (w : W) :
  ¬ Legacy.failed e → Legacy.aborts err (a, t, w) → Legacy.aborts err (a, e :: t, w).
Proof.
  intros He [Hlast Herr]. split; cbn in *.
  - split; [by intros ? | done].
  - intros [? | ?]%Exists_cons; [done | auto].
Qed.

Lemma legacy_aborts_last {A} (err : A → Prop) (e : Legacy.event) (a : A) (w : W) :
  err a → Legacy.aborts err (a, [e], w).
Proof. intros Ha. split; cbn; auto. Qed.

Lemma legacy_aborts_nil {A} (err : A → Prop) (a : A) (w : W) :
  Legacy.aborts err (a, [], w).
Proof. split; cbn; [done |]. by intros ?%Exists_nil. Qed.

Lemma legacy_aborts_app {A B} (errA : A → Prop) (errB : B → Prop)
    (a : A) (t : list Legacy.event) (w : W)
    (b : B) (t' : list Legacy.event) (w' : W) :
  Legacy.aborts errA (a, t, w) →
  (errA a → t' = [] ∧ errB b) →
  (¬ errA a → Legacy.aborts errB (b, t', w')) →
  (errA a ∨ ¬ errA a) →
  Legacy.aborts errB (b, t ++ t', w').
Proof.
  intros [Hlast Herr] Hstop Hgo Hdec. unfold Legacy.aborts in *. cbn in *.
  destruct Hdec as [Ha | Ha].
  - destruct (Hstop Ha) as [-> Hb]. rewrite app_nil_r. auto.
  - destruct (Hgo Ha) as [Hlast' Herr']. split.
    + apply legacy_failsLast_app; [done | done |].
      intros Hex. by destruct (Ha (Herr Hex)).
    + intros [Hex | Hex]%Exists_app; [by destruct (Ha (Herr Hex)) | auto].
Qed.

Lemma legacy_ensureRole_aborts (r : reconciler) (crName secretName : string) (w : W) :
  Legacy.aborts is_Some
    (Legacy.run h (Legacy.ensureServiceCertKeyPairSecretRole r crName secretName) w).
Proof.
  unfold Legacy.ensureServiceCertKeyPairSecretRole. legacy_step.
  destruct (h (Legacy.ClientCreateRole _) w) as [[role [e |]] w1].
  2:{ legacy_step. apply legacy_aborts_cons; [by apply legacy_not_failed_ok |].
      apply legacy_aborts_nil. }
  destruct e; legacy_step; try by apply legacy_aborts_last.
  destruct (h (Legacy.ClientGetRole _) w1) as [[existing [e' |]] w2]; legacy_step.
  { apply legacy_aborts_cons; [by intros [_ Hnot]; apply Hnot |].
    by apply legacy_aborts_last. }
  destruct (h (Legacy.ClientUpdateRole _) w2) as [[updated [e'' |]] w3]; legacy_step;
    (apply legacy_aborts_cons; [by intros [_ Hnot]; apply Hnot |]);
    (apply legacy_aborts_cons; [by apply legacy_not_failed_ok |]).
  - by apply legacy_aborts_last.
  - apply legacy_aborts_cons; [by apply legacy_not_failed_ok |].
    apply legacy_aborts_nil.
Qed.

Lemma legacy_ensureRoleBinding_aborts
    (r : reconciler) (roleName : string) (users : list string) (w : W) :
  Legacy.aborts is_Some
    (Legacy.run h (Legacy.ensureServiceCertKeyPairSecretRoleBinding
                     r roleName users) w).
Proof.
  unfold Legacy.ensureServiceCertKeyPairSecretRoleBinding. legacy_step.
  destruct (h (Legacy.ClientCreateRoleBinding _) w) as [[role [e |]] w1].
  2:{ legacy_step. apply legacy_aborts_cons; [by apply legacy_not_failed_ok |].
      apply legacy_aborts_nil. }
  destruct e; legacy_step; try by apply legacy_aborts_last.
  destruct (h (Legacy.ClientGetRoleBinding _) w1) as [[existing [e' |]] w2]; legacy_step.
  { apply legacy_aborts_cons; [by intros [_ Hnot]; apply Hnot |].
    by apply legacy_aborts_last. }
  destruct (h (Legacy.ClientUpdateRoleBinding _) w2) as [[updated [e'' |]] w3]; legacy_step;
    (apply legacy_aborts_cons; [by intros [_ Hnot]; apply Hnot |]);
    (apply legacy_aborts_cons; [by apply legacy_not_failed_ok |]).
  - by apply legacy_aborts_last.
  - apply legacy_aborts_cons; [by apply legacy_not_failed_ok |].
    apply legacy_aborts_nil.
Qed.

Lemma legacy_deleteRole_aborts (r : reconciler) (name : string) (w : W) :
  Legacy.aborts is_Some
    (Legacy.run h (Legacy.deleteServiceKeyPairSecretRole r name) w).
Proof.
  unfold Legacy.deleteServiceKeyPairSecretRole. legacy_step.
  destruct (h (Legacy.ClientDeleteRole _) w) as [[e |] w1].
  2:{ legacy_step. apply legacy_aborts_cons; [by apply legacy_not_failed_ok |].
      apply legacy_aborts_nil. }
  destruct e; legacy_step; try by apply legacy_aborts_last.
  apply legacy_aborts_cons; [by intros [_ Hnot]; apply Hnot |].
  apply legacy_aborts_nil.
Qed.

Lemma legacy_deleteRoleBinding_aborts (r : reconciler) (name : string) (w : W) :
  Legacy.aborts is_Some
    (Legacy.run h (Legacy.deleteServiceKeyPairSecretRoleBinding r name) w).
Proof.
  unfold Legacy.deleteServiceKeyPairSecretRoleBinding. legacy_step.
  destruct (h (Legacy.ClientDeleteRoleBinding _) w) as [[e |] w1].
  2:{ legacy_step. apply legacy_aborts_cons; [by apply legacy_not_failed_ok |].
      apply legacy_aborts_nil. }
  destruct e; legacy_step; try by apply legacy_aborts_last.
  apply legacy_aborts_cons; [by intros [_ Hnot]; apply Hnot |].
  apply legacy_aborts_nil.
Qed.

(** Two steps of a turn of the loop, then the rest of the loop. *)
Lemma legacy_turn_aborts
    (first second : Legacy.prog (option api_error))
    (rest : Legacy.prog (option (Result * option error))) (w : W) :
  (∀ w, Legacy.aborts is_Some (Legacy.run h first w)) →
  (∀ w, Legacy.aborts is_Some (Legacy.run h second w)) →
  (∀ w, Legacy.aborts is_Some (Legacy.run h rest w)) →
  Legacy.aborts is_Some
    (Legacy.run h
       (err ← first;
        match err with
        | Some e => mret (Some (Legacy.requeue e))
        | None =>
            err ← second;
            match err with
            | Some e => mret (Some (Legacy.requeue e))
            | None => rest
            end
        end) w).
Proof.
  intros Hfirst Hsecond Hrest.
  legacy_split first err t w1.
  specialize (Hfirst w). rewrite Heqp in Hfirst.
  destruct err as [e |].
  { legacy_step. rewrite app_nil_r. destruct Hfirst as [? ?]. by split. }
  legacy_split second err' t' w2.
  specialize (Hsecond w1). rewrite Heqp0 in Hsecond.
  destruct err' as [e |].
  { legacy_step. rewrite app_nil_r.
    eapply (legacy_aborts_app is_Some is_Some None t w1);
      [exact Hfirst | by intros [] | intros _ | right; by intros []].
    destruct Hsecond as [? ?]. by split. }
  specialize (Hrest w2).
  destruct (Legacy.run h rest w2) as [[res t''] w3].
  eapply (legacy_aborts_app is_Some is_Some None t w1);
    [exact Hfirst | by intros [] | intros _ | right; by intros []].
  eapply (legacy_aborts_app is_Some is_Some None t' w2);
    [exact Hsecond | by intros [] | intros _; exact Hrest | right; by intros []].
Qed.

Lemma legacy_loop_aborts (r : reconciler)
    (secretNames : gmap Legacy.componentRouteTuple string)
    (statuses : list ComponentRouteStatus) (w : W) :
  Legacy.aborts is_Some
    (Legacy.run h (Legacy.reconcileComponentRoutes r secretNames statuses) w).
Proof.
  revert w. induction statuses as [| s rest IH]; intros w.
  { apply legacy_aborts_nil. }
  cbn [Legacy.reconcileComponentRoutes].
  destruct (secretNames !! Legacy.statusTuple s) as [secretName |].
  - apply legacy_turn_aborts; [| | done].
    + apply legacy_ensureRole_aborts.
    + apply legacy_ensureRoleBinding_aborts.
  - apply legacy_turn_aborts; [| | done].
    + apply legacy_deleteRole_aborts.
    + apply legacy_deleteRoleBinding_aborts.
Qed.

Lemma legacy_loop_result (r : reconciler)
    (secretNames : gmap Legacy.componentRouteTuple string)
    (statuses : list ComponentRouteStatus) (w : W) (res : Result * option error) :
  (Legacy.run h (Legacy.reconcileComponentRoutes r secretNames statuses) w).1.1
    = Some res →
  ∃ e, res = Legacy.requeue e.
Proof.
  revert w. induction statuses as [| s rest IH]; intros w; [done |].
  cbn [Legacy.reconcileComponentRoutes].
  destruct (secretNames !! Legacy.statusTuple s) as [secretName |].
  - legacy_split (Legacy.ensureServiceCertKeyPairSecretRole r
                    (ComponentRouteStatus_Name s) secretName) err t w1.
    destruct err as [e |]; [legacy_step; intros [= <-]; eauto |].
    legacy_split (Legacy.ensureServiceCertKeyPairSecretRoleBinding r
                    (ComponentRouteStatus_Name s)
                    (ComponentRouteStatus_ConsumingUsers s)) err' t' w2.
    destruct err' as [e |]; [legacy_step; intros [= <-]; eauto |].
    specialize (IH w2).
    destruct (Legacy.run h (Legacy.reconcileComponentRoutes r secretNames rest) w2)
      as [[res' t''] w3].
    exact IH.
  - legacy_split (Legacy.deleteServiceKeyPairSecretRole r
                    (ComponentRouteStatus_Name s)) err t w1.
    destruct err as [e |]; [legacy_step; intros [= <-]; eauto |].
    legacy_split (Legacy.deleteServiceKeyPairSecretRoleBinding r
                    (ComponentRouteStatus_Name s)) err' t' w2.
    destruct err' as [e |]; [legacy_step; intros [= <-]; eauto |].
    specialize (IH w2).
    destruct (Legacy.run h (Legacy.reconcileComponentRoutes r secretNames rest) w2)
      as [[res' t''] w3].
    exact IH.
Qed.

Lemma legacy_Reconcile_aborts (r : reconciler) (req : Request) (w : W) :
  Legacy.aborts (λ res : Result * option error, is_Some res.2)
    (Legacy.run h (Legacy.Reconcile r req) w).
Proof.
  unfold Legacy.Reconcile. legacy_step.
  destruct (h (Legacy.ClientGetIngress (Request_NamespacedName req)) w)
    as [[ingress [e |]] w1].
  { destruct e; legacy_step; try by apply legacy_aborts_last.
    apply legacy_aborts_cons; [by intros [_ Hnot]; apply Hnot |].
    apply legacy_aborts_nil. }
  set (secretNames := Legacy.componentRouteTupleToSecretName _).
  set (statuses := IngressStatus_ComponentRoutes _).
  pose proof (legacy_loop_aborts r secretNames statuses w1) as Hloop.
  pose proof (legacy_loop_result r secretNames statuses w1) as Hres.
  rewrite (legacy_run_bind h (Legacy.reconcileComponentRoutes _ _ _)).
  destruct (Legacy.run h (Legacy.reconcileComponentRoutes r secretNames statuses) w1)
    as [[res t] w2].
  cbn [fst snd] in Hres.
  destruct res as [res |]; legacy_step; rewrite app_nil_r;
    (apply legacy_aborts_cons; [by apply legacy_not_failed_ok |]).
  - destruct (Hres res eq_refl) as [e ->]. destruct Hloop as [? ?]. by split.
  - destruct Hloop as [Hlast Herr]. split; [done |].
    intros Hex. by destruct (Herr Hex).
Qed.

End LegacyAbortFacts.

(** In the earlier revision no error is dropped: every call of a run of
    [Reconcile] that comes back with an error, other than NotFound on
    fetching the ingress, NotFound on a delete and AlreadyExists on a
    create, is the last call of the run, and the run returns an error. *)
Theorem legacy_Reconcile_errors_abort
    (W : Type) (h : Legacy.handler W) (r : reconciler) (req : Request) (w : W)
    (t1 t2 : list Legacy.event) (e : Legacy.event) :
  (Legacy.run h (Legacy.Reconcile r req) w).1.2 = t1 ++ e :: t2 →
  is_Some (Legacy.event_error e) → ¬ Legacy.passedOver e →
  t2 = [] ∧ is_Some (Legacy.run h (Legacy.Reconcile r req) w).1.1.2.
Proof.
  intros Htrace Herror Hnot.
  destruct (legacy_Reconcile_aborts h r req w) as [Hlast Herr].
  rewrite Htrace in Hlast, Herr. split.
  - by apply (legacy_failsLast_split t1 t2 e).
  - apply Herr. apply Exists_app. right. left. by split.
Qed.

Lemma legacy_Reconcile_errors_abort_witness :
  is_Some (Legacy.run (Legacy.cannedClient legacyRefused)
             (Legacy.Reconcile theReconciler requestCluster) tt).1.1.2.
Proof.
  refine (proj2 (legacy_Reconcile_errors_abort unit
                   (Legacy.cannedClient legacyRefused) theReconciler requestCluster tt
                   [Legacy.Event
                      (Legacy.ClientGetIngress (Request_NamespacedName requestCluster))
                      (legacyIngress, None);
                    Legacy.Event
                      (Legacy.ClientCreateRole
                         (Legacy.desiredRole theReconciler "foo" "foo-secret"))
                      (Legacy.desiredRole theReconciler "foo" "foo-secret",
                       Some AlreadyExistsError);
                    Legacy.Event
                      (Legacy.ClientGetRole
                         {| NamespacedName_Namespace := configNamespace;
                            NamespacedName_Name := "foo" |})
                      (legacyRole, None)]
                   []
                   (Legacy.Event
                      (Legacy.ClientUpdateRole
                         (Legacy.desiredRole theReconciler "foo" "foo-secret"))
                      (Legacy.desiredRole theReconciler "foo" "foo-secret",
                       Some (OtherError "conflict")))
                   eq_refl _ _)).
  - by eexists.
  - intros [].
Defined.

(** ** Setting up the controller *)

Ltac setup_step :=
  cbn [Setup.run mbind Setup.prog_mbind Setup.prog_bind Setup.call mret
       Setup.prog_ret].

(** The calls of a short trace, one by one. *)
Ltac setup_cases Hin :=
  repeat (apply elem_of_cons in Hin as [-> | Hin]);
  try (by apply elem_of_nil in Hin).



(** [New] of the earlier revision returns the error of the first call that
    fails, with no controller, and makes no call after it; when every call
    goes through it has set up a watch on the ingress configuration and,
    by owner, on the roles and on the role bindings. *)
Theorem legacy_New_stops_at_first_error
    (W : Type) (h : Setup.handler W) (config : Config) (w : W) :
  let o := Setup.run h (Setup.LegacyNew config) w in
  (∀ e, e ∈ o.1.2 → is_Some (Setup.event_error e) →
        o.1.1 = (None, Setup.event_error e) ∧ last o.1.2 = Some e)
  ∧ (Forall (λ e, Setup.event_error e = None) o.1.2 →
     ∃ c,
       o.1.1 = (Some c, None)
       ∧ Setup.requests o.1.2 =
           [ Setup.ControllerNew Setup.legacyControllerName
               {| reconciler_config := config |};
             Setup.Watch c (Setup.SourceKind Setup.IngressKind)
               Setup.EnqueueRequestForObject [];
             Setup.Watch c (Setup.SourceKind Setup.RoleKind)
               (Setup.EnqueueRequestForOwner Setup.IngressKind) [];
             Setup.Watch c (Setup.SourceKind Setup.RoleBindingKind)
               (Setup.EnqueueRequestForOwner Setup.IngressKind) [] ]).
Proof.
  cbv zeta. unfold Setup.LegacyNew. setup_step.
  destruct (h (Setup.ControllerNew _ _) w) as [[c e0] w0].
  destruct e0 as [e0 |]; setup_step.
  { split.
    - intros e Hin Hf. setup_cases Hin. done.
    - intros [Hnot _]%Forall_cons. discriminate Hnot. }
  destruct (h (Setup.Watch c (Setup.SourceKind Setup.IngressKind) _ _) w0)
    as [e1 w1].
  destruct e1 as [e1 |]; setup_step.
  { split.
    - intros e Hin [x Hx]. setup_cases Hin; [discriminate Hx | done].
    - intros [_ [Hnot _]%Forall_cons]%Forall_cons. discriminate Hnot. }
  destruct (h (Setup.Watch c (Setup.SourceKind Setup.RoleKind) _ _) w1)
    as [e2 w2].
  destruct e2 as [e2 |]; setup_step.
  { split.
    - intros e Hin [x Hx]. setup_cases Hin; try discriminate Hx; done.
    - intros [_ [_ [Hnot _]%Forall_cons]%Forall_cons]%Forall_cons.
      discriminate Hnot. }
  destruct (h (Setup.Watch c (Setup.SourceKind Setup.RoleBindingKind) _ _) w2)
    as [e3 w3].
  destruct e3 as [e3 |]; setup_step.
  { split.
    - intros e Hin [x Hx]. setup_cases Hin; try discriminate Hx; done.
    - intros Hall. do 3 apply Forall_cons in Hall as [_ Hall].
      apply Forall_cons in Hall as [Hnot _]. discriminate Hnot. }
  split.
  - intros e Hin [x Hx]. setup_cases Hin; discriminate Hx.
  - intros _. by exists c.
Qed.

Lemma legacy_New_stops_at_first_error_witness :
  ∃ c, (Setup.run (Setup.cannedManager
                     {| Setup.canned_controller := (Setup.ControllerHandle 0, None);
                        Setup.canned_watch := None;
                        Setup.canned_informer := (Setup.InformerHandle 0, None) |})
          (Setup.LegacyNew {| Config_SecretNamespace := configNamespace |}) tt).1.1
       = (Some c, None).
Proof.
  destruct (legacy_New_stops_at_first_error unit
              (Setup.cannedManager
                 {| Setup.canned_controller := (Setup.ControllerHandle 0, None);
                    Setup.canned_watch := None;
                    Setup.canned_informer := (Setup.InformerHandle 0, None) |})
              {| Config_SecretNamespace := configNamespace |} tt)
    as [_ Hgo].
  destruct Hgo as (c & Hres & _).
  - vm_compute. repeat constructor.
  - by exists c.
Defined.

Section WatchFacts.

Variable Hash : string → string.
Variable OpenShiftConfigNamespace : string.
Context {W : Type} (h : handler W).

Lemma ensureComponentRoutes_no_get
    (r : reconciler) (componentRoutes : list aggregatedComponentRoute) (w : W) :
  Forall (λ q, is_get q = false)
    (requests (trace_of (run h (ensureComponentRoutes
                                  OpenShiftConfigNamespace r componentRoutes) w))).
Proof.
  revert w. induction componentRoutes as [| cr rest IH]; intros w; [constructor |].
  rewrite run_ensureComponentRoutes_cons. cbv zeta.
  pose proof (ensureServiceCertKeyPairSecretRole_steps
                OpenShiftConfigNamespace h r cr w) as Hrole.
  apply (Forall_impl _ (λ q, is_get q = false)) in Hrole; [| by intros q []].
  destruct (run h (ensureServiceCertKeyPairSecretRole OpenShiftConfigNamespace r cr) w)
    as [[[roleName err] t] w1].
  cbn [result_of trace_of world_of fst snd] in *.
  destruct err as [e |]; cbn [trace_of fst snd]; [done |].
  pose proof (ensureServiceCertKeyPairSecretRoleBinding_steps
                OpenShiftConfigNamespace h r cr roleName w1) as Hbinding.
  apply (Forall_impl _ (λ q, is_get q = false)) in Hbinding; [| by intros q []].
  destruct (run h (ensureServiceCertKeyPairSecretRoleBinding
                     OpenShiftConfigNamespace r cr roleName) w1)
    as [[err t'] w2].
  cbn [result_of trace_of world_of fst snd] in *.
  destruct err as [e |]; cbn [trace_of fst snd]; autorewrite with trace.
  - by apply Forall_app.
  - apply Forall_app. split; [done |]. apply Forall_app. split; [done | apply IH].
Qed.

Lemma Reconcile_gets (r : reconciler) (req : Request) (w : W) (key : NamespacedName) :
  CacheGetIngress key
    ∈ requests (trace_of (run h (Reconcile Hash OpenShiftConfigNamespace r req) w)) →
  key = Request_NamespacedName req.
Proof.
  destruct (h (CacheGetIngress (Request_NamespacedName req)) w)
    as [[ingress [e |]] w1] eqn:Hget.
  { rewrite (run_Reconcile_fetch_failed _ _ _ _ _ _ _ _ _ Hget). out_simpl.
    by intros [= ->]%list_elem_of_singleton. }
  rewrite (run_Reconcile_fetched _ _ _ _ _ _ _ _ Hget). cbv zeta.
  set (componentRoutes := intersectingComponentRoutes Hash _ _).
  pose proof (ensureComponentRoutes_no_get r componentRoutes w1) as Hloop.
  destruct (run h (ensureComponentRoutes _ r componentRoutes) w1)
    as [[res t] w2].
  cbn [result_of trace_of world_of fst snd] in *.
  assert (Hnot : ∀ l, Forall (λ q, is_get q = false) l → CacheGetIngress key ∉ l).
  { intros l Hl Hin. rewrite Forall_forall in Hl. by specialize (Hl _ Hin). }
  destruct res as [res |]; out_simpl.
  - intros [[= ->] | Hin]%elem_of_cons; [done |]. by destruct (Hnot _ Hloop).
  - intros [[= ->] | Hin]%elem_of_cons; [done |].
    apply elem_of_app in Hin as [Hin | Hin]; [by destruct (Hnot _ Hloop) |].
    exfalso. revert Hin. apply Hnot.
    eapply Forall_impl;
      [apply (cleanupOrphanedResources_gcStep OpenShiftConfigNamespace) |].
    intros q Hq. by destruct q.
Qed.

End WatchFacts.



(** ** The checks of the end-to-end test *)

Lemma e2e_lenDiffers_same {A} (l : list A) (n : nat) :
  length l = n → E2E.lenDiffers l n = E2E.Returns false.
Proof. intros Hlen. unfold E2E.lenDiffers. by rewrite bool_decide_eq_false_2 by auto. Qed.

Lemma e2e_invalidRules_sizes (rule : PolicyRule) (secretName : string) :
  length (PolicyRule_Verbs rule) = 3 →
  length (PolicyRule_APIGroups rule) = 1 →
  length (PolicyRule_Resources rule) = 1 →
  length (PolicyRule_ResourceNames rule) = 1 →
  E2E.invalidRules [rule] secretName = E2E.Returns false.
Proof.
  intros Hv Hg Hr Hn. unfold E2E.invalidRules.
  rewrite (e2e_lenDiffers_same [rule] 1) by done.
  cbn [lookup list_lookup E2E.orElse].
  by rewrite !e2e_lenDiffers_same by done.
Qed.

(** The role check of the end-to-end test looks at sizes only: it accepts
    every listed role that has a single rule with three verbs, one API
    group, one resource and one resource name, whatever these are and
    whatever serving secret the test expects. *)
Theorem e2e_role_check_is_blind_to_content
    (componentRoute : ComponentRouteSpec) (role : Role) (rule : PolicyRule) :
  Role_Rules role = [rule] →
  length (PolicyRule_Verbs rule) = 3 →
  length (PolicyRule_APIGroups rule) = 1 →
  length (PolicyRule_Resources rule) = 1 →
  length (PolicyRule_ResourceNames rule) = 1 →
  E2E.pollForValidComponentRouteRole_condition componentRoute ([role], None)
  = E2E.Returns (true, None).
Proof.
  intros Hrules Hv Hg Hr Hn. unfold E2E.pollForValidComponentRouteRole_condition.
  cbn [fst snd length lookup list_lookup]. rewrite bool_decide_eq_false_2 by auto.
  by rewrite Hrules, e2e_invalidRules_sizes.
Qed.

Lemma e2e_role_check_is_blind_to_content_witness :
  E2E.pollForValidComponentRouteRole_condition (specOf "default" "foo" "foo")
    ([permissiveRole], None)
  = E2E.Returns (true, None).
Proof.
  by apply (e2e_role_check_is_blind_to_content (specOf "default" "foo" "foo")
              permissiveRole
              {| PolicyRule_Verbs := ["*"; "*"; "*"];
                 PolicyRule_APIGroups := ["*"];
                 PolicyRule_Resources := ["*"];
                 PolicyRule_ResourceNames := ["*"] |}).
Defined.

(** The role check panics on a listed role whose single rule names no
    verb: with a number of verbs other than three it goes on to read the
    first verb. *)
Theorem e2e_role_check_panics
    (componentRoute : ComponentRouteSpec) (role : Role) (rule : PolicyRule) :
  Role_Rules role = [rule] →
  PolicyRule_Verbs rule = [] →
  E2E.pollForValidComponentRouteRole_condition componentRoute ([role], None)
  = E2E.Panics.
Proof.
  intros Hrules Hverbs. unfold E2E.pollForValidComponentRouteRole_condition.
  cbn [fst snd length lookup list_lookup]. rewrite bool_decide_eq_false_2 by auto.
  rewrite Hrules. unfold E2E.invalidRules.
  rewrite (e2e_lenDiffers_same [rule] 1) by done.
  cbn [lookup list_lookup E2E.orElse]. by rewrite Hverbs.
Qed.

Lemma e2e_role_check_panics_witness :
  E2E.pollForValidComponentRouteRole_condition (specOf "default" "foo" "foo")
    ([verblessRole], None)
  = E2E.Panics.
Proof.
  by apply (e2e_role_check_panics (specOf "default" "foo" "foo") verblessRole
              {| PolicyRule_Verbs := [];
                 PolicyRule_APIGroups := [""];
                 PolicyRule_Resources := ["secrets"];
                 PolicyRule_ResourceNames := ["foo"] |}).
Defined.

Lemma e2e_allFound (subjects : list Subject) (users : list string) :
  E2E.allFound subjects users = true ↔
  ∀ user, user ∈ users → ∃ subject, subject ∈ subjects ∧ Subject_Name subject = user.
Proof.
  unfold E2E.allFound. rewrite forallb_forall. split.
  - intros Hall user Hin%list_elem_of_In.
    apply Hall, existsb_exists in Hin as (subject & Hs & Hname).
    exists subject. split; [by apply list_elem_of_In |].
    by apply bool_decide_eq_true in Hname.
  - intros Hall user Hin%list_elem_of_In.
    destruct (Hall user Hin) as (subject & Hs & Hname).
    apply existsb_exists. exists subject. split; [by apply list_elem_of_In |].
    by apply bool_decide_eq_true.
Qed.

(** The role-binding check of the end-to-end test passes for a listed role
    binding exactly when its role reference is a [Role] of the RBAC API
    group named as the role binding itself, it has as many subjects as
    there are consuming users, and every consuming user is the name of one
    of its subjects; otherwise the poll goes on without an error. *)
Theorem e2e_binding_check
    (componentRoute : ComponentRouteStatus) (roleBinding : RoleBinding) :
  let verdict :=
    E2E.pollForValidComponentRouteRoleBinding_condition componentRoute
      ([roleBinding], None) in
  (verdict = E2E.Returns (true, None) ∨ verdict = E2E.Returns (false, None))
  ∧ (verdict = E2E.Returns (true, None) ↔
     RoleRef_APIGroup (RoleBinding_RoleRef roleBinding) = "rbac.authorization.k8s.io"
     ∧ RoleRef_Kind (RoleBinding_RoleRef roleBinding) = "Role"
     ∧ RoleRef_Name (RoleBinding_RoleRef roleBinding) = RoleBinding_GetName roleBinding
     ∧ length (RoleBinding_Subjects roleBinding)
       = length (ComponentRouteStatus_ConsumingUsers componentRoute)
     ∧ ∀ user, user ∈ ComponentRouteStatus_ConsumingUsers componentRoute →
         ∃ subject, subject ∈ RoleBinding_Subjects roleBinding ∧
                    Subject_Name subject = user).
Proof.
  cbv zeta. unfold E2E.pollForValidComponentRouteRoleBinding_condition.
  cbn [fst snd length lookup list_lookup]. rewrite bool_decide_eq_false_2 by auto.
  rewrite <- e2e_allFound.
  destruct (decide (RoleRef_APIGroup (RoleBinding_RoleRef roleBinding)
                    = "rbac.authorization.k8s.io")) as [Hg | Hg].
  2:{ rewrite (bool_decide_eq_true_2 _ Hg). cbn [orb]. split; [by right |].
      split; [done | by intros [? _]]. }
  rewrite (bool_decide_eq_false_2 _ (λ H, H Hg)). cbn [orb].
  destruct (decide (RoleRef_Kind (RoleBinding_RoleRef roleBinding) = "Role"))
    as [Hk | Hk].
  2:{ rewrite (bool_decide_eq_true_2 _ Hk). cbn [orb]. split; [by right |].
      split; [done | by intros (_ & ? & _)]. }
  rewrite (bool_decide_eq_false_2 _ (λ H, H Hk)). cbn [orb].
  destruct (decide (RoleRef_Name (RoleBinding_RoleRef roleBinding)
                    = RoleBinding_GetName roleBinding)) as [Hn | Hn].
  2:{ rewrite (bool_decide_eq_true_2 _ Hn). split; [by right |].
      split; [done | by intros (_ & _ & ? & _)]. }
  rewrite (bool_decide_eq_false_2 _ (λ H, H Hn)).
  destruct (decide (length (RoleBinding_Subjects roleBinding)
                    = length (ComponentRouteStatus_ConsumingUsers componentRoute)))
    as [Hl | Hl].
  2:{ rewrite (bool_decide_eq_true_2 _ Hl). split; [by right |].
      split; [done | by intros (_ & _ & _ & ? & _)]. }
  rewrite (bool_decide_eq_false_2 _ (λ H, H Hl)).
  destruct (E2E.allFound _ _); split; auto; split; try done.
  by intros (_ & _ & _ & _ & ?).
Qed.

Lemma e2e_allFound_subjectsOf (users : list string) :
  E2E.allFound (subjectsOf users) users = true.
Proof.
  apply e2e_allFound. intros user Hin. rewrite subjectsOf_map.
  eexists. split; [by apply list_elem_of_fmap_2 |]. done.
Qed.

(** The role binding that convergence creates for a target passes the
    role-binding check of the end-to-end test for an observed entry with
    the target's consuming users.  A role binding that convergence updates
    to refer to a role of another name than its own never passes it: the
    poll goes on until it times out. *)
Theorem e2e_binding_check_and_convergence
    (componentRoute : ComponentRouteStatus) (r : reconciler)
    (cr : aggregatedComponentRoute) (roleName : string) (existing : RoleBinding) :
  ComponentRouteStatus_ConsumingUsers componentRoute
    = aggregatedComponentRoute_ConsumingUsers cr →
  E2E.pollForValidComponentRouteRoleBinding_condition componentRoute
    ([desiredRoleBinding r cr roleName], None) = E2E.Returns (true, None)
  ∧ (RoleBinding_GetName existing ≠ roleName →
     E2E.pollForValidComponentRouteRoleBinding_condition componentRoute
       ([RoleBinding_setSubjectsRoleRef existing
           (subjectsOf (aggregatedComponentRoute_ConsumingUsers cr))
           (roleRefTo roleName)], None)
     = E2E.Returns (false, None)).
Proof.
  intros Husers. unfold E2E.pollForValidComponentRouteRoleBinding_condition.
  cbn [fst snd length lookup list_lookup]. rewrite bool_decide_eq_false_2 by auto.
  split.
  - cbn [desiredRoleBinding RoleBinding_RoleRef roleRefTo RoleRef_APIGroup
         RoleRef_Kind RoleRef_Name RoleBinding_GetName RoleBinding_ObjectMeta
         ObjectMeta_Name RoleBinding_Subjects].
    rewrite !(bool_decide_eq_false_2 (_ ≠ _)) by auto. cbn [orb].
    rewrite Husers, e2e_allFound_subjectsOf.
    rewrite bool_decide_eq_false_2; [done |].
    intros Hne. apply Hne. by rewrite subjectsOf_map, length_fmap.
  - intros Hname.
    cbn [RoleBinding_setSubjectsRoleRef RoleBinding_RoleRef roleRefTo
         RoleRef_APIGroup RoleRef_Kind RoleRef_Name RoleBinding_GetName
         RoleBinding_ObjectMeta].
    rewrite !(bool_decide_eq_false_2 (_ ≠ _)) by auto. cbn [orb].
    rewrite bool_decide_eq_true_2; [done |].
    intros Heq. apply Hname. symmetry. exact Heq.
Qed.

Lemma e2e_binding_check_and_convergence_witness :
  E2E.pollForValidComponentRouteRoleBinding_condition
    (statusOf "default" "foo" ["foo"; "bar"])
    ([desiredRoleBinding theReconciler targetFoo "foo-0"], None)
  = E2E.Returns (true, None).
Proof.
  exact (proj1 (e2e_binding_check_and_convergence
                  (statusOf "default" "foo" ["foo"; "bar"]) theReconciler
                  targetFoo "foo-0"
                  (storedRoleBinding "foo-0" "default/foo" "foo-0" ["foo"; "bar"])
                  eq_refl)).
Defined.

(** ** The scenario of the end-to-end test *)

(** Two desired and two observed entries give two roles and two role
    bindings; once ["bar"] is no longer desired its role and role binding
    are deleted, and those of ["foo"] stay. *)
Example scenario_foo_bar :
  let p := Reconcile plainHash configNamespace theReconciler requestCluster in
  let first := run fakeClient p clusterFooBar in
  let second :=
    run fakeClient p
      (withIngress (world_of first)
         (ingressOf [specOf "default" "foo" "foo"] observedFooBar)) in
  map Role_GetName (cluster_roles (world_of first)) = ["foo-0"; "bar-2"] ∧
  map Role_Rules (cluster_roles (world_of first))
    = map Role_Rules [storedRole "foo-0" "default/foo" "foo";
                      storedRole "bar-2" "default/bar" "bar"] ∧
  map (λ b, (RoleBinding_GetName b, RoleBinding_Subjects b, RoleBinding_RoleRef b))
      (cluster_roleBindings (world_of first))
    = map (λ b, (RoleBinding_GetName b, RoleBinding_Subjects b, RoleBinding_RoleRef b))
          [storedRoleBinding "foo-0" "default/foo" "foo-0" ["foo"; "bar"];
           storedRoleBinding "bar-2" "default/bar" "bar-2" ["bar"]] ∧
  result_of second = ({| Result_Requeue := false |}, None) ∧
  map Role_GetName (cluster_roles (world_of second)) = ["foo-0"] ∧
  map RoleBinding_GetName (cluster_roleBindings (world_of second)) = ["foo-0"].
Proof. vm_compute. repeat split; reflexivity. Qed.
